(** * markovchain: the JSON storage backend ([markovchain/storage/json.py])

    A shallow embedding of [JsonStorage] and of the wire helpers of its
    module, together with the properties of the storage contract.

    Conventions of the embedding.
    - Python [str] is [string].  [str.lower], whose case mapping is that of
      Unicode, is a parameter [str_lower] of the methods that call it; on a
      string of ASCII characters it is [lower], which folds the letters A to
      Z.  [str.replace] reads from the left and replaces the occurrences
      that do not overlap ([str_replace]).
    - A Python [dict] is an association list in insertion order ([dict_get],
      [dict_set]); a dict comprehension is [dict_of_items].
    - [None] among tokens and state keys is [None : option string].
    - An exception is a value of [exn]; a call that can raise returns a
      [result]; a method that mutates the store before it raises returns the
      store it leaves behind together with the outcome.  The error kinds of
      the spec are Python's exceptions: NotFound is [KeyError],
      UnsupportedOperation the [ValueError] of [get_links], StructuralError
      the [ValueError] of unpacking a tuple.
    - A [deque] lives in a heap of objects and is named by its location. *)

From Stdlib Require Import ZArith String Ascii.
From stdpp Require Import base list strings gmap.

#[local] Set Warnings "-clear-no-such-hyp".

Local Open Scope Z_scope.
Local Open Scope string_scope.
Local Open Scope list_scope.

(** ** Python values *)

Inductive exn : Set :=
| KeyError | ValueError | TypeError | StopIteration | AttributeError.

Inductive result (A : Type) : Type :=
| Ok (a : A)
| Raise (e : exn).
Arguments Ok {A} a.
Arguments Raise {A} e.

(** Scalars, as they occur in settings, in tuples and in windows. *)
Inductive pyval : Set :=
| VNone
| VBool (b : bool)
| VInt (z : Z)
| VStr (s : string).

#[global] Instance pyval_eq_dec : EqDecision pyval.
Proof. solve_decision. Defined.

#[global] Instance exn_eq_dec : EqDecision exn.
Proof. solve_decision. Defined.

(** Truth value of a scalar ([bool(v)]). *)
Definition truthy (v : pyval) : bool :=
  match v with
  | VNone => false
  | VBool b => b
  | VInt z => negb (z =? 0)%Z
  | VStr s => negb (String.eqb s "")
  end.

(** A token or a state key: a string, or Python's [None]. *)
Abbreviation token := (option string).

Definition of_token (t : token) : pyval :=
  match t with
  | None => VNone
  | Some s => VStr s
  end.

(** ** Strings *)

Definition lower_ascii (c : ascii) : ascii :=
  let n := nat_of_ascii c in
  if ((65 <=? n)%nat && (n <=? 90)%nat)%bool then ascii_of_nat (n + 32) else c.

(** [s.lower()] for a string [s] of ASCII characters: the letters A to Z
    are folded, every other character is kept. *)
Fixpoint lower (s : string) : string :=
  match s with
  | EmptyString => EmptyString
  | String c r => String (lower_ascii c) (lower r)
  end.

(** [s.isascii()] *)
Fixpoint isascii (s : string) : bool :=
  match s with
  | EmptyString => true
  | String c r => (nat_of_ascii c <? 128)%nat && isascii r
  end.

Fixpoint startswith (p s : string) : bool :=
  match p, s with
  | EmptyString, _ => true
  | String _ _, EmptyString => false
  | String a p', String b s' => Ascii.eqb a b && startswith p' s'
  end.

(** [needle in hay] on strings *)
Fixpoint contains (needle hay : string) : bool :=
  startswith needle hay ||
  match hay with
  | EmptyString => false
  | String _ r => contains needle r
  end.

(** Iterating over a [str] yields its characters, each a [str]. *)
Fixpoint chars (s : string) : list string :=
  match s with
  | EmptyString => []
  | String c r => String c EmptyString :: chars r
  end.

(** ** Dictionaries *)

Abbreviation dict K V := (list (K * V)) (only parsing).

Section dict.
Context {K V : Type} `{EqDecision K}.

(** [d.get(k)] *)
Fixpoint dict_get (k : K) (d : dict K V) : option V :=
  match d with
  | [] => None
  | (k', v) :: r => if decide (k = k') then Some v else dict_get k r
  end.

(** [d[k] = v]: an existing key keeps its place, a new one goes last. *)
Fixpoint dict_set (k : K) (v : V) (d : dict K V) : dict K V :=
  match d with
  | [] => [(k, v)]
  | (k', v') :: r =>
      if decide (k = k') then (k', v) :: r else (k', v') :: dict_set k v r
  end.

(** [k in d] *)
Definition dict_mem (k : K) (d : dict K V) : bool :=
  match dict_get k d with Some _ => true | None => false end.

(** [list(d.keys())] *)
Definition dict_keys (d : dict K V) : list K := d.*1.

(** [{k: v for (k, v) in items}] *)
Definition dict_of_items (items : list (K * V)) : dict K V :=
  fold_left (fun acc kv => dict_set kv.1 kv.2 acc) items [].

(** [d1 == d2] for dicts whose values are compared by [veq]. *)
Definition dict_eqb (veq : V -> V -> bool) (d1 d2 : dict K V) : bool :=
  (length d1 =? length d2)%nat &&
  forallb (fun kv => match dict_get kv.1 d2 with
                     | Some v' => veq kv.2 v'
                     | None => false
                     end) d1.
End dict.

(** ** Bounded deques ([collections.deque] with [maxlen]) *)

Module Deque.
Record t (A : Type) : Type := Make { items : list A; maxlen : nat }.
Arguments Make {A} items maxlen.
Arguments items {A} _.
Arguments maxlen {A} _.

Section ops.
Context {A : Type}.

(** [d.append(x)]: a full deque drops its leftmost element. *)
Definition append (x : A) (d : t A) : t A :=
  if (maxlen d =? 0)%nat then d
  else if (length (items d) <? maxlen d)%nat
       then Make (items d ++ [x]) (maxlen d)
       else Make (tail (items d) ++ [x]) (maxlen d).

(** [d.appendleft(x)]: a full deque drops its rightmost element. *)
Definition appendleft (x : A) (d : t A) : t A :=
  if (maxlen d =? 0)%nat then d
  else if (length (items d) <? maxlen d)%nat
       then Make (x :: items d) (maxlen d)
       else Make (x :: removelast (items d)) (maxlen d).

(** [deque(iterable, maxlen=n)]: the elements are appended in turn. *)
Definition of_iter (l : list A) (n : nat) : t A :=
  fold_left (fun d x => append x d) l (Make [] n).
End ops.
End Deque.

(** ** The wire codec *)

(** [NONE_VALUE = "\x00\x00"] *)
Definition NONE_VALUE : string := String zero (String zero EmptyString).

Definition dehydrate_key (key : token) : string :=
  match key with
  | None => NONE_VALUE
  | Some k => k
  end.

Definition hydrate_key (key : string) : token :=
  if decide (key = NONE_VALUE) then None else Some key.

(** The canonical weighted multiset of a state, a state's dataset and the
    datasets of one direction. *)
Abbreviation Counter := (dict token Z).
Abbreviation dataset_t := (dict token Counter).
Abbreviation data_t := (dict string dataset_t).

(** What a parsed document holds for one state: a JSON object, a two-element
    array of a number and a string, or a two-element array of arrays.  The
    constructor plays the part of the [isinstance] tests of [counterify]. *)
Inductive node_list : Type :=
| NDict (d : dict string Z)
| NPair (value : Z) (key : string)
| NLists (values : list Z) (keys : list string).

Abbreviation wire_data := (dict string (dict string node_list)).

(** [not node_list]: only the empty object is falsy, both array forms have
    two elements. *)
Definition node_list_falsy (nl : node_list) : bool :=
  match nl with
  | NDict [] => true
  | _ => false
  end.

Definition counterify (nl : node_list) : Counter :=
  if node_list_falsy nl then []
  else match nl with
       | NDict d => dict_of_items ((fun kv => (hydrate_key kv.1, kv.2)) <$> d)
       | NPair value key => [(hydrate_key key, value)]
       | NLists values keys =>
           dict_of_items ((fun vk => (hydrate_key vk.2, vk.1)) <$> zip values keys)
       end.

(** The loop of [hydrate_nodes] replaces the value of every dataset name of
    the copied dict in place, which on a dict is a map over its items. *)
Definition hydrate_nodes (nodes : option wire_data) : option data_t :=
  match nodes with
  | None => None
  | Some [] => Some []
  | Some nodes =>
      Some ((fun entry =>
               (entry.1,
                dict_of_items
                  ((fun sd => (hydrate_key sd.1, counterify sd.2)) <$> entry.2)))
              <$> nodes)
  end.

(** The innermost objects are read back by [json.load] as dicts, hence the
    [NDict]. *)
Definition dehydrate_nodes (nodes : option data_t) : option wire_data :=
  match nodes with
  | None => None
  | Some [] => Some []
  | Some nodes =>
      Some (dict_of_items
              ((fun entry =>
                  (entry.1,
                   dict_of_items
                     ((fun sd =>
                         (dehydrate_key sd.1,
                          NDict (dict_of_items
                                   ((fun dv => (dehydrate_key dv.1, dv.2)) <$> sd.2))))
                        <$> entry.2)))
                 <$> nodes))
  end.

(** ** The store *)

(** Modelled from the spec: the settings of the base class [Storage], an
    immutable configuration mapping read once at construction.  It is a
    mapping of sections to mappings of options; [None] is Python's [None]. *)
Abbreviation settings_t := (option (gmap string (gmap string pyval))).

(** [settings and settings.get('storage', {}).get('backward', False)] *)
Definition wants_backward (settings : settings_t) : bool :=
  match settings with
  | None => false
  | Some m =>
      if decide (m = ∅) then false
      else truthy (default (VBool false) (default ∅ (m !! "storage") !! "backward"))
  end.

Record JsonStorage : Type := {
  nodes : data_t;
  backward : option data_t;
  settings : settings_t
}.

(** The [backward] argument of the constructor: [None], a [bool] or a dict. *)
Inductive backward_arg : Type :=
| BNone
| BBool (b : bool)
| BData (d : data_t).

(** [JsonStorage.__init__].  Modelled from the spec: [super().__init__]
    keeps the settings it is given. *)
Definition init (nodes : option data_t) (backward : backward_arg)
    (settings : settings_t) : JsonStorage :=
  {| nodes := match nodes with None => [] | Some n => n end;
     backward := match backward with
                 | BNone => if wants_backward settings then Some [] else None
                 | BBool false => None
                 | BBool true => Some []
                 | BData d => Some d
                 end;
     settings := settings |}.

(** [Counter.__eq__], as it is since Python 3.10: the counts of all the
    tokens of either [Counter] agree, where a token that a [Counter] lacks
    counts 0. *)
Definition counter_eqb (c1 c2 : Counter) : bool :=
  forallb (fun t => (default 0 (dict_get t c1) =? default 0 (dict_get t c2))%Z)
          (dict_keys c1 ++ dict_keys c2).

(** The datasets and the data are plain dicts, which [==] compares key by
    key. *)
Definition dataset_eqb : dataset_t -> dataset_t -> bool := dict_eqb counter_eqb.
Definition data_eqb : data_t -> data_t -> bool := dict_eqb dataset_eqb.

(** [JsonStorage.__eq__].  Modelled from the spec: [super().__eq__] compares
    the settings. *)
Definition JsonStorage_eq (self storage : JsonStorage) : bool :=
  data_eqb (nodes self) (nodes storage)
  && match backward self, backward storage with
     | None, None => true
     | Some b1, Some b2 => data_eqb b1 b2
     | _, _ => false
     end
  && bool_decide (settings self = settings storage).

(** Methods that mutate the store: the store left behind and the outcome. *)
Definition M (A : Type) : Type := JsonStorage -> JsonStorage * result A.

Definition ret {A} (a : A) : M A := fun s => (s, Ok a).
Definition raise {A} (e : exn) : M A := fun s => (s, Raise e).
Definition bind {A B} (m : M A) (f : A -> M B) : M B :=
  fun s => match m s with
           | (s', Ok a) => f a s'
           | (s', Raise e) => (s', Raise e)
           end.
Definition lift {A} (r : result A) : M A := fun s => (s, r).

Declare Scope store_scope.
Delimit Scope store_scope with store.
Notation "'let*' x := m 'in' k" := (bind m (fun x => k))
  (at level 10, x pattern, m at level 100, k at level 200) : store_scope.

(** [do_get_dataset]: the data it leaves behind and the dataset it returns
    ([None] where the data is [None]). *)
Definition do_get_dataset (data : option data_t) (key : string) (create : bool)
    : option data_t * result (option dataset_t) :=
  match data with
  | None => (None, Ok None)
  | Some d =>
      if negb create then
        (data, match dict_get key d with
               | Some v => Ok (Some v)
               | None => Raise KeyError
               end)
      else
        match dict_get key d with
        | Some v => (data, Ok (Some v))
        | None => (Some (dict_set key [] d), Ok (Some []))
        end
  end.

(** [get_dataset]: the pair is built left to right, first from
    [self.nodes], which is never [None], then from [self.backward]. *)
Definition get_dataset (key : string) (create : bool)
    : M (dataset_t * option dataset_t) :=
  fun self =>
    match do_get_dataset (Some (nodes self)) key create with
    | (_, Raise e) => (self, Raise e)
    | (n, Ok f) =>
        let (b, r) := do_get_dataset (backward self) key create in
        ({| nodes := default [] n; backward := b; settings := settings self |},
         match r with
         | Ok r => Ok (default [] f, r)
         | Raise e => Raise e
         end)
    end.

(** [c[target] += count] on a [Counter], where a missing key counts 0. *)
Definition counter_add (target : token) (count : Z) (c : Counter) : Counter :=
  dict_set target (default 0 (dict_get target c) + count) c.

(** A component of an ingestion tuple: [None], a [str] or a list of [str]. *)
Inductive pyobj : Type :=
| PNone
| PStr (s : string)
| PList (l : list string).

(** An element of the [links] iterable: a tuple of components. *)
Abbreviation item := (list pyobj).

(** Iterating over a component ([tee], [chain], [str.join]). *)
Definition iterate (o : pyobj) : result (list string) :=
  match o with
  | PNone => Raise TypeError
  | PStr s => Ok (chars s)
  | PList l => Ok l
  end.

(** [add_link]: the dataset as the call leaves it, and the outcome.  A list
    as target cannot be hashed, which the [Counter] finds out after the
    state got its empty [Counter]. *)
Definition add_link (dataset : dataset_t) (source : string) (target : pyobj)
    (count : Z) : dataset_t * result unit :=
  let dataset :=
    if dict_mem (Some source) dataset then dataset
    else dict_set (Some source) [] dataset in
  match target with
  | PList _ => (dataset, Raise TypeError)
  | PNone | PStr _ =>
      let t := match target with PStr s => Some s | _ => None end in
      (dict_set (Some source)
         (counter_add t count (default [] (dict_get (Some source) dataset)))
         dataset,
       Ok tt)
  end.

(** The link is added to the dataset object that [self.nodes] (or
    [self.backward]) holds under [name]: the mutated dataset is stored back. *)
Definition add_link_forward (name source : string) (target : pyobj) : M unit :=
  fun self =>
    let (ds, r) := add_link (default [] (dict_get name (nodes self))) source target 1 in
    ({| nodes := dict_set name ds (nodes self); backward := backward self;
        settings := settings self |}, r).

Definition add_link_backward (name source : string) (target : pyobj) : M unit :=
  fun self =>
    match backward self with
    | None => (self, Ok tt)
    | Some b =>
        let (ds, r) := add_link (default [] (dict_get name b)) source target 1 in
        ({| nodes := nodes self; backward := Some (dict_set name ds b);
            settings := settings self |}, r)
    end.

Section Storage.
(** Modelled from the spec: the separator that the base class [Storage]
    joins state keys with. *)
Variable state_separator : string.

(** Modelled from the spec: [Storage.join_state], which joins the tokens of
    a state with the separator. *)
Definition join_state (state : list string) : string :=
  String.concat state_separator state.

(** The elements of a window as strings; [str.join] raises [TypeError] on an
    element that is not a [str]. *)
Fixpoint as_strs (state : list pyval) : option (list string) :=
  match state with
  | [] => Some []
  | VStr s :: r => option_map (cons s) (as_strs r)
  | _ :: _ => None
  end.

Local Open Scope store_scope.

(** The body of the loop of [add_links], for one element of [links]. *)
Definition add_links_body (dataset_prefix : string) (it : item) : M unit :=
  match it with
  | [dataset; src; dst] =>
      match dataset with
      | PStr dataset =>
          let name := dataset_prefix +:+ dataset in
          let* (forward, backward) := get_dataset name true in
          let* _ :=
            match backward, dst with
            | Some _, (PStr _ | PList _) =>
                (* [tee(src)] *)
                let* src2 := lift (iterate src) in
                (* [next(src2)] *)
                match src2 with
                | [] => raise StopIteration
                | dst2 :: src2 =>
                    (* [join_state(chain(src2, (dst,)))] *)
                    let* dst' := lift (match dst with
                                       | PStr d => Ok d
                                       | _ => Raise TypeError
                                       end) in
                    add_link_backward name (join_state (src2 ++ [dst'])) (PStr dst2)
                end
            | _, _ => ret tt
            end in
          let* src := lift (iterate src) in
          add_link_forward name (join_state src) dst
      | _ => raise TypeError  (* [dataset_prefix + dataset] *)
      end
  | _ => raise ValueError  (* [for dataset, src, dst in links] *)
  end.

Fixpoint add_links (links : list item) (dataset_prefix : string) : M unit :=
  match links with
  | [] => ret tt
  | it :: links =>
      let* _ := add_links_body dataset_prefix it in
      add_links links dataset_prefix
  end.

(** [get_states]: the comprehension walks all the keys and lowers each.
    [str_lower] is [str.lower], Python's own case mapping. *)
Fixpoint get_states_keys (str_lower : string -> string) (string_ : string)
    (keys : list token) : result (list string) :=
  match keys with
  | [] => Ok []
  | None :: _ => Raise AttributeError
  | Some key :: keys =>
      match get_states_keys str_lower string_ keys with
      | Ok l => Ok (if contains string_ (str_lower key) then key :: l else l)
      | Raise e => Raise e
      end
  end.

Definition get_states (str_lower : string -> string) (self : JsonStorage)
    (dataset : string) (string_ : string) : result (list string) :=
  match (get_dataset dataset false self).2 with
  | Ok dataset =>
      get_states_keys str_lower (str_lower string_) (dict_keys dataset.1)
  | Raise e => Raise e
  end.

(** [get_links]: [dataset] is the pair that [get_dataset] returned, [state]
    what the window yields; the [KeyError] of a state that the dataset lacks
    is caught. *)
Definition get_links (self : JsonStorage) (dataset : dataset_t * option dataset_t)
    (state : list pyval) (backward_ : bool) : result (list (pyval * pyval)) :=
  if backward_ && match backward self with None => true | Some _ => false end
  then Raise ValueError
  else
    match as_strs state with
    | None => Raise TypeError
    | Some tokens =>
        match (if backward_ then dataset.2 else Some dataset.1) with
        | None => Raise TypeError
        | Some d =>
            match dict_get (Some (join_state tokens)) d with
            | Some node => Ok ((fun wn => (VInt wn.2, of_token wn.1)) <$> node)
            | None => Ok []
            end
        end
    end.
End Storage.

(** ** Context windows *)

(** The deques that the generator holds, by location. *)
Abbreviation heap := (list (Deque.t pyval)).

(** [get_state]: a new deque, of which the location is returned. *)
Definition get_state (state : list pyval) (size : nat) (h : heap) : nat * heap :=
  (length h, h ++ [Deque.of_iter (replicate size (VStr "") ++ state) size]).

(** [follow_link]: [state] is the location of the deque; the result is
    [None] only for a location that holds no deque. *)
Definition follow_link (link : pyval * pyval) (state : nat) (backward_ : bool)
    (h : heap) : option (nat * heap) :=
  match h !! state with
  | None => None
  | Some d =>
      let value := link.2 in
      Some (state,
            <[state := if backward_ then Deque.appendleft value d
                       else Deque.append value d]> h)
  end.

(** ** Saving and loading *)

(** The JSON document.  [json.dump] followed by [json.load] is taken to
    give back the document that was written; an absent member and a [null]
    one are both [None]. *)
Record document : Type := {
  doc_settings : settings_t;
  doc_nodes : option wire_data;
  doc_backward : option wire_data
}.

Definition do_save (self : JsonStorage) : document :=
  {| doc_settings := settings self;
     doc_nodes := dehydrate_nodes (Some (nodes self));
     doc_backward := dehydrate_nodes (backward self) |}.

Definition load (data : document) : JsonStorage :=
  init (hydrate_nodes (doc_nodes data))
       (match hydrate_nodes (doc_backward data) with
        | None => BNone
        | Some b => BData b
        end)
       (doc_settings data).

(** ** The three encodings of a distribution

    These follow the words of the spec (§4.5): (a) a plain mapping of
    token to count, (b) a pair of parallel arrays (counts, tokens), (c) a
    single (count, token) pair for a singleton distribution; on the wire the
    null token is the sentinel string. *)

Definition encode_mapping (c : Counter) : node_list :=
  NDict (dict_of_items ((fun tv => (dehydrate_key tv.1, tv.2)) <$> c)).

Definition encode_arrays (c : Counter) : node_list :=
  NLists c.*2 (dehydrate_key <$> c.*1).

Definition encode_pair (t : token) (count : Z) : node_list :=
  NPair count (dehydrate_key t).

(** A token as hydration gives it back: the sentinel string has become the
    null token. *)
Definition normal_token (t : token) : token :=
  if decide (t = Some NONE_VALUE) then None else t.

(** ** Reading the store *)

(** [data[name][key][t]], where every level is there. *)
Definition data_count (d : data_t) (name : string) (key t : token) : option Z :=
  ds ← dict_get name d; c ← dict_get key ds; dict_get t c.

(** [self.nodes[name][key][t]] *)
Definition forward_count (self : JsonStorage) (name : string) (key t : token)
    : option Z :=
  data_count (nodes self) name key t.

(** [self.backward[name][key][t]] *)
Definition backward_count (self : JsonStorage) (name : string) (key t : token)
    : option Z :=
  b ← backward self; data_count b name key t.

(** The token that a target which can be hashed stands for. *)
Definition target_token (target : pyobj) : token :=
  match target with
  | PStr s => Some s
  | _ => None
  end.

(** The data after [do_get_dataset] with [create]. *)
Definition created (key : string) (d : data_t) : data_t :=
  if dict_mem key d then d else dict_set key [] d.

(** The data after [add_link] on its dataset [name]. *)
Definition linked (name source : string) (target : pyobj) (d : data_t) : data_t :=
  dict_set name (add_link (default [] (dict_get name d)) source target 1).1 d.

(** A property of the forward data and of the backward data, if any. *)
Definition store_all (Q : data_t -> Prop) (self : JsonStorage) : Prop :=
  Q (nodes self) /\ forall b, backward self = Some b -> Q b.

(** The dataset can be resolved: the forward data has the name, and so has
    the backward data where the store has backward data. *)
Definition dataset_exists (self : JsonStorage) (name : string) : bool :=
  dict_mem name (nodes self)
  && match backward self with
     | None => true
     | Some b => dict_mem name b
     end.

(** A sequence of [add_links] calls, each with its links and its prefix;
    a call that raises leaves what it had added. *)
Definition add_links_calls (sep : string) (calls : list (list item * string))
    (self : JsonStorage) : JsonStorage :=
  fold_left (fun self call => (add_links sep call.1 call.2 self).1) calls self.

(** The string does not contain the separator. *)
Definition sep_free (sep t : string) : bool := negb (contains sep t).

(** Neither a context token nor the target of the element contains the
    separator. *)
Definition clean_item (sep : string) (it : item) : bool :=
  match it with
  | [_; src; dst] =>
      forallb (sep_free sep) (match iterate src with Ok l => l | Raise _ => [] end)
      && match dst with
         | PStr t => sep_free sep t
         | _ => true
         end
  | _ => true
  end.

(** No state key and no token is the sentinel string. *)
Definition not_sentinel (t : token) : bool := bool_decide (t <> Some NONE_VALUE).

Definition data_no_sentinel (d : data_t) : bool :=
  forallb (fun entry =>
             forallb (fun sd =>
                        not_sentinel sd.1
                        && forallb (fun tv => not_sentinel tv.1) sd.2)
                     entry.2) d.

Definition no_sentinel (self : JsonStorage) : bool :=
  data_no_sentinel (nodes self)
  && match backward self with
     | None => true
     | Some b => data_no_sentinel b
     end.

(** The association lists of the store are dicts: no key twice, at any of
    the three levels. *)
Definition dataset_wf (ds : dataset_t) : Prop :=
  NoDup (dict_keys ds) /\ Forall (fun sd => NoDup (dict_keys sd.2)) ds.

Definition data_wf (d : data_t) : Prop :=
  NoDup (dict_keys d) /\ Forall (fun entry => dataset_wf entry.2) d.

(** Every count of the data is positive. *)
Definition data_positive (d : data_t) : Prop :=
  forall name key t n, data_count d name key t = Some n -> 0 < n.

(** Every state key of the data is a string. *)
Definition data_keys_str (d : data_t) : Prop :=
  Forall (fun entry => Forall (fun sd => is_Some sd.1) entry.2) d.

(** [JsonStorage(backward=enable, settings=settings)]: a store that starts
    without data. *)
Definition new_store (enable : option bool) (settings : settings_t) : JsonStorage :=
  init None (match enable with None => BNone | Some b => BBool b end) settings.

(** What iterating over the window that [get_state] makes yields. *)
Definition window_items (state : list pyval) (size : nat) : list pyval :=
  match get_state state size [] with
  | (w, h) => match h !! w with
              | Some d => Deque.items d
              | None => []
              end
  end.

(** ** The scenario of the spec (§8) *)

(** The separator ["\u0001"]. *)
Definition U0001 : string := String (ascii_of_nat 1) EmptyString.

Definition scenario_links : list item :=
  [ [PStr "body"; PList [""; ""]; PStr "the"];
    [PStr "body"; PList [""; "the"]; PStr "cat"] ].

Definition scenario_store : JsonStorage :=
  add_links_calls U0001 [(scenario_links, "")] (new_store None None).

(** The separator ["\u0000"], with which the state of three empty tokens has
    the sentinel string as its key. *)
Definition U0000 : string := String zero EmptyString.

(** The store that is read back after one link of that state was added to a
    new store and the store was saved. *)
Definition sentinel_key_store : JsonStorage :=
  load (do_save
          (add_links_calls U0000
             [([[PStr "body"; PList [""; ""; ""]; PStr "a"]], "")]
             (new_store None None))).

(** None of the strings contains the separator. *)
Definition sep_free_all (sep : string) (l : list string) : Prop :=
  Forall (fun s => sep_free sep s = true) l.

(** Forward and backward links mirror each other: a forward count of a
    token that is a string sits at the key of a context [x :: r], a backward
    count sits at the key of a reverse context [r ++ [tgt]] under the token
    [x], and the two counts of a link are the same. *)
Definition links_mirrored (sep : string) (self : JsonStorage) : Prop :=
  (forall name key t n,
      forward_count self name key (Some t) = Some n ->
      exists x r, key = Some (join_state sep (x :: r)) /\
                  sep_free_all sep (x :: r ++ [t])) /\
  (forall name key t n,
      backward_count self name key t = Some n ->
      exists x r tgt, key = Some (join_state sep (r ++ [tgt])) /\ t = Some x /\
                      sep_free_all sep (x :: r ++ [tgt])) /\
  (forall name x r tgt,
      sep_free_all sep (x :: r ++ [tgt]) ->
      forward_count self name (Some (join_state sep (x :: r))) (Some tgt)
      = backward_count self name (Some (join_state sep (r ++ [tgt]))) (Some x)).

(** Two links whose contexts have the same key under the separator ["aa"],
    which none of their tokens contains, and the store they fill. *)
Definition overlap_links : list item :=
  [ [PStr "d"; PList [""; "a"]; PStr "x"];
    [PStr "d"; PList ["a"; ""]; PStr "x"] ].

Definition overlap_store : JsonStorage :=
  add_links_calls "aa" [(overlap_links, "")] (new_store (Some true) None).

(** The proper suffixes of a string, the longest first. *)
Fixpoint proper_suffixes (s : string) : list string :=
  match s with
  | EmptyString => []
  | String _ r => r :: proper_suffixes r
  end.

(** The string has a border: one of its proper suffixes is not empty and is
    also a prefix of it.  No string of one character has one. *)
Definition has_border (s : string) : bool :=
  existsb (fun e => negb (String.eqb e "") && startswith e s) (proper_suffixes s).

(** [JsonStorage(nodes={"body": {"the": Counter({"cat": 1})}}, backward=True)]:
    a store whose backward data lacks the dataset of its forward data. *)
Definition forward_only_store : JsonStorage :=
  init (Some [("body", [(Some "the", [(Some "cat", 1)])])]) (BBool true) None.

(** ** Documents in the form that [do_save] writes *)

(** The entry of a state is an object, with no key twice. *)
Definition node_list_mapping (nl : node_list) : bool :=
  match nl with
  | NDict d => bool_decide (NoDup d.*1)
  | _ => false
  end.

(** The data of a document are objects of objects of such entries, as
    [json.load] reads them: no dataset name and no state key twice. *)
Definition wire_canonical (w : wire_data) : bool :=
  bool_decide (NoDup w.*1)
  && forallb (fun entry =>
                bool_decide (NoDup entry.2.*1)
                && forallb (fun sd => node_list_mapping sd.2) entry.2) w.

(** The document has its forward data in that form, and its backward data
    too, which are there whenever the settings ask for them. *)
Definition document_canonical (data : document) : bool :=
  match doc_nodes data with
  | Some w => wire_canonical w
  | None => false
  end
  && match doc_backward data with
     | Some b => wire_canonical b
     | None => negb (wants_backward (doc_settings data))
     end.

(** ** The links of a batch *)

(** The dataset name, the state key and the token of the forward link that
    an element of the batch stands for: a tuple of a name, a context that
    can be iterated over and a target that is a string or [None]. *)
Definition item_link (sep dataset_prefix : string) (it : item)
    : option (string * token * token) :=
  match it with
  | [PStr dataset; src; dst] =>
      match iterate src, dst with
      | Ok ctx, (PNone | PStr _) =>
          Some (dataset_prefix +:+ dataset, Some (join_state sep ctx),
                target_token dst)
      | _, _ => None
      end
  | _ => None
  end.

(** How many elements of the batch stand for the link. *)
Definition link_count (sep dataset_prefix : string) (links : list item)
    (name : string) (key t : token) : Z :=
  Z.of_nat
    (length
       (List.filter
          (fun it => bool_decide (item_link sep dataset_prefix it
                                  = Some (name, key, t))) links)).

(** The element with [dataset_prefix] put before its dataset name. *)
Definition with_prefix (dataset_prefix : string) (it : item) : item :=
  match it with
  | [PStr dataset; src; dst] => [PStr (dataset_prefix +:+ dataset); src; dst]
  | _ => it
  end.

(** The element stands for a link. *)
Definition stands_for_link (sep dataset_prefix : string) (it : item) : bool :=
  match item_link sep dataset_prefix it with
  | Some _ => true
  | None => false
  end.

(** A count that is there stays there and does not get smaller. *)
Definition grows (before after : option Z) : bool :=
  match before, after with
  | None, _ => true
  | Some c, Some c' => (c <=? c')%Z
  | Some _, None => false
  end.

(** The two links of the scenario in the other order. *)
Definition scenario_links_swapped : list item :=
  [ [PStr "body"; PList [""; "the"]; PStr "cat"];
    [PStr "body"; PList [""; ""]; PStr "the"] ].

(** ** Walks *)

(** A walk of the generator: [follow_link] for each link in turn, each call
    on the window that the call before returned. *)
Fixpoint follow_links (links : list (pyval * pyval)) (state : nat)
    (backward_ : bool) (h : heap) : option (nat * heap) :=
  match links with
  | [] => Some (state, h)
  | link :: links =>
      match follow_link link state backward_ h with
      | Some (state, h) => follow_links links state backward_ h
      | None => None
      end
  end.

(** ** Replacing the state separator *)

(** [s.replace(old, new)] for an [old] that is not empty, read from the
    left: where [old] starts, [new] is written and the characters of [old]
    are skipped ([skip] counts those still to skip); any other character is
    kept. *)
Fixpoint replace_from (old new : string) (skip : nat) (s : string) : string :=
  match s with
  | EmptyString => EmptyString
  | String c r =>
      match skip with
      | S k => replace_from old new k r
      | O =>
          if startswith old s
          then new +:+ replace_from old new (String.length old - 1) r
          else String c (replace_from old new 0 r)
      end
  end.

(** [s.replace("", new)]: [new] before every character and at the end. *)
Fixpoint interleave (new s : string) : string :=
  match s with
  | EmptyString => new
  | String c r => new +:+ String c (interleave new r)
  end.

(** [s.replace(old, new)] *)
Definition str_replace (old new s : string) : string :=
  match old with
  | EmptyString => interleave new s
  | String _ _ => replace_from old new 0 s
  end.

(** [dict((k.replace(old, new), v) for k, v in dataset.items())]: the pairs
    that the generator yields; a key that is [None] has no [replace]. *)
Fixpoint replace_keys (old new : string) (items : list (token * Counter))
    : result (list (token * Counter)) :=
  match items with
  | [] => Ok []
  | (None, _) :: _ => Raise AttributeError
  | (Some k, v) :: items =>
      match replace_keys old new items with
      | Ok l => Ok ((Some (str_replace old new k), v) :: l)
      | Raise e => Raise e
      end
  end.

(** The loop of [do_replace_state_separator] over [data.items()]: the
    datasets are replaced in [data] one by one, so that an error leaves the
    ones before it replaced. *)
Fixpoint do_replace_loop (old new : string) (entries : list (string * dataset_t))
    (data : data_t) : data_t * result unit :=
  match entries with
  | [] => (data, Ok tt)
  | (key, dataset) :: entries =>
      match replace_keys old new dataset with
      | Ok items =>
          do_replace_loop old new entries (dict_set key (dict_of_items items) data)
      | Raise e => (data, Raise e)
      end
  end.

Definition do_replace_state_separator (data : data_t) (old new : string)
    : data_t * result unit :=
  do_replace_loop old new data data.

Definition replace_state_separator (old_separator new_separator : string) : M unit :=
  fun self =>
    match do_replace_state_separator (nodes self) old_separator new_separator with
    | (n, Raise e) =>
        ({| nodes := n; backward := backward self; settings := settings self |},
         Raise e)
    | (n, Ok _) =>
        match backward self with
        | None =>
            ({| nodes := n; backward := None; settings := settings self |}, Ok tt)
        | Some b =>
            let (b, r) := do_replace_state_separator b old_separator new_separator in
            ({| nodes := n; backward := Some b; settings := settings self |}, r)
        end
    end.

(** The data with every state key that is a string replaced in place. *)
Definition rekeyed_dataset (old new : string) (ds : dataset_t) : dataset_t :=
  (fun sd : token * Counter => (option_map (str_replace old new) sd.1, sd.2))
  <$> ds.

Definition rekeyed (old new : string) (d : data_t) : data_t :=
  (fun entry : string * dataset_t => (entry.1, rekeyed_dataset old new entry.2))
  <$> d.

(** The elements of all the calls are clean for the separator. *)
Definition clean_calls (sep : string) (calls : list (list item * string)) : bool :=
  forallb (fun call => forallb (clean_item sep) call.1) calls.

(** The store with its state keys replaced in place. *)
Definition rekeyed_store (old new : string) (self : JsonStorage) : JsonStorage :=
  {| nodes := rekeyed old new (nodes self);
     backward := rekeyed old new <$> backward self;
     settings := settings self |}.

(** Every state key of the data is the key under [sep] of a context of
    which no token contains [sep] or [sep']. *)
Definition keys_joined (sep sep' : string) (d : data_t) : Prop :=
  Forall (fun entry : string * dataset_t =>
            Forall (fun sd : token * Counter =>
                      exists ctx : list string,
                        sd.1 = Some (join_state sep ctx) /\
                        sep_free_all sep ctx /\ sep_free_all sep' ctx)
                   entry.2) d.

(** Every state key of the data is a string, and no two state keys of a
    dataset are replaced by the same key. *)
Definition keys_apart (old new : string) (d : data_t) : Prop :=
  Forall (fun entry : string * dataset_t =>
            Forall (fun sd : token * Counter => is_Some sd.1) entry.2 /\
            forall k1 k2 : token,
              k1 ∈ dict_keys entry.2 -> k2 ∈ dict_keys entry.2 ->
              option_map (str_replace old new) k1
              = option_map (str_replace old new) k2 ->
              k1 = k2) d.

(** Every state key of the data is a string that does not contain [old]. *)
Definition keys_free (old : string) (d : data_t) : bool :=
  forallb (fun entry : string * dataset_t =>
             forallb (fun sd : token * Counter =>
                        match sd.1 with
                        | Some k => sep_free old k
                        | None => false
                        end) entry.2) d.

(** The data with every dataset rebuilt from its pairs with replaced keys,
    as the comprehension of [do_replace_state_separator] builds it. *)
Definition replaced (old new : string) (d : data_t) : data_t :=
  (fun entry : string * dataset_t =>
     (entry.1, dict_of_items (rekeyed_dataset old new entry.2)))
  <$> d.

(** * Properties *)

(** ** Dictionaries *)

Section dict_facts.
Context {K V : Type} `{EqDecision K}.
Implicit Types (k : K) (v : V) (d : dict K V).

Lemma dict_get_set k k' v d :
  dict_get k' (dict_set k v d) = if decide (k' = k) then Some v else dict_get k' d.
Proof.
  induction d as [|[k0 v0] d IH]; simpl.
  - by destruct (decide (k' = k)).
  - destruct (decide (k = k0)) as [->|Hk]; simpl.
    + by destruct (decide (k' = k0)).
    + rewrite IH. destruct (decide (k' = k0)) as [->|]; [|done].
      by destruct (decide (k0 = k)).
Qed.

Lemma dict_get_set_eq k v d : dict_get k (dict_set k v d) = Some v.
Proof. rewrite dict_get_set. by case_decide. Qed.

Lemma dict_get_set_ne k k' v d :
  k' ≠ k -> dict_get k' (dict_set k v d) = dict_get k' d.
Proof. intros. rewrite dict_get_set. by case_decide. Qed.

Lemma dict_get_None k d : dict_get k d = None <-> k ∉ dict_keys d.
Proof.
  unfold dict_keys. induction d as [|[k0 v0] d IH]; simpl.
  - split; [intros _; apply not_elem_of_nil | done].
  - rewrite not_elem_of_cons. case_decide; naive_solver.
Qed.

Lemma dict_get_Some_elem k v d : dict_get k d = Some v -> (k, v) ∈ d.
Proof.
  induction d as [|[k0 v0] d IH]; simpl; [done|].
  case_decide; intros; simplify_eq; [left | right; auto].
Qed.

Lemma dict_get_elem k v d : NoDup (dict_keys d) -> (k, v) ∈ d -> dict_get k d = Some v.
Proof.
  unfold dict_keys. induction d as [|[k0 v0] d IH]; simpl.
  - by intros _ ?%elem_of_nil.
  - rewrite NoDup_cons. intros [Hk Hd] [?|Hin]%elem_of_cons; simplify_eq.
    + by case_decide.
    + case_decide; [|by auto]. subst. destruct Hk.
      apply list_elem_of_fmap. by exists (k0, v).
Qed.

Lemma dict_set_new k v d : dict_get k d = None -> dict_set k v d = d ++ [(k, v)].
Proof.
  induction d as [|[k0 v0] d IH]; simpl; [done|].
  case_decide; [done|]. intros. by rewrite IH.
Qed.

Lemma dict_keys_set k v d :
  dict_keys (dict_set k v d)
  = if dict_mem k d then dict_keys d else dict_keys d ++ [k].
Proof.
  unfold dict_mem, dict_keys. induction d as [|[k0 v0] d IH]; [done|].
  cbn [dict_set dict_get]. case_decide; [done|].
  rewrite fmap_cons, IH. by destruct (dict_get k d).
Qed.

Lemma dict_set_NoDup k v d : NoDup (dict_keys d) -> NoDup (dict_keys (dict_set k v d)).
Proof.
  intros Hd. rewrite dict_keys_set. unfold dict_mem.
  destruct (dict_get k d) eqn:Hk; [done|].
  apply NoDup_app. split_and!; [done| |apply NoDup_singleton].
  intros x Hx ->%list_elem_of_singleton. by apply dict_get_None in Hk.
Qed.

Lemma dict_of_items_snoc (l : list (K * V)) k v :
  dict_of_items (l ++ [(k, v)]) = dict_set k v (dict_of_items l).
Proof. unfold dict_of_items. by rewrite fold_left_app. Qed.

Lemma dict_of_items_NoDup (l : list (K * V)) : NoDup (dict_keys (dict_of_items l)).
Proof.
  induction l as [|[k v] l IH] using rev_ind; [apply NoDup_nil_2|].
  rewrite dict_of_items_snoc. by apply dict_set_NoDup.
Qed.

(** A comprehension over items with distinct keys keeps them as they are. *)
Lemma dict_of_items_id d : NoDup (dict_keys d) -> dict_of_items d = d.
Proof.
  unfold dict_keys. induction d as [|[k v] d IH] using rev_ind; [done|].
  rewrite fmap_app, NoDup_app. simpl. intros (Hd & Hk & _).
  rewrite dict_of_items_snoc, IH by done. apply dict_set_new, dict_get_None.
  intros Hin. apply (Hk k Hin), list_elem_of_singleton. done.
Qed.

Lemma dict_eqb_refl (veq : V -> V -> bool) d :
  NoDup (dict_keys d) ->
  (forall k v, (k, v) ∈ d -> veq v v = true) ->
  dict_eqb veq d d = true.
Proof.
  intros Hd Hv. unfold dict_eqb. rewrite Nat.eqb_refl. simpl.
  apply forallb_forall. intros [k v] Hin%list_elem_of_In. simpl.
  rewrite (dict_get_elem k v) by done. eauto.
Qed.
End dict_facts.

(** Renaming the keys of a dict by an injective function commutes with
    building the dict. *)
Lemma dict_of_items_fmap_inj {K K' V : Type} `{EqDecision K, EqDecision K'}
    (g : K -> K') (l : list (K * V)) :
  (forall k1 k2, k1 ∈ l.*1 -> k2 ∈ l.*1 -> g k1 = g k2 -> k1 = k2) ->
  dict_of_items ((fun kv => (g kv.1, kv.2)) <$> l)
  = (fun kv => (g kv.1, kv.2)) <$> dict_of_items l.
Proof.
  induction l as [|[k v] l IH] using rev_ind; [done|]. intros Hg.
  rewrite fmap_app. simpl. rewrite !dict_of_items_snoc, IH.
  2:{ intros k1 k2 H1 H2. apply Hg; rewrite fmap_app; apply elem_of_app; by left. }
  assert (Hkeys : forall x, x ∈ (dict_of_items l).*1 -> x ∈ (l ++ [(k, v)]).*1).
  { clear. intros x. rewrite fmap_app, elem_of_app. intros Hx. left. revert Hx.
    induction l as [|[k0 v0] l IH] using rev_ind; [done|].
    rewrite dict_of_items_snoc. fold (dict_keys (dict_set k0 v0 (dict_of_items l))).
    rewrite dict_keys_set, fmap_app, elem_of_app. unfold dict_keys.
    destruct (dict_mem k0 (dict_of_items l)); [by auto|].
    rewrite elem_of_app. naive_solver. }
  assert (Hk : k ∈ (l ++ [(k, v)]).*1).
  { rewrite fmap_app, elem_of_app. right. by apply list_elem_of_singleton. }
  revert Hkeys. generalize (dict_of_items l). intros d Hd.
  induction d as [|[k0 v0] d IHd]; [done|].
  assert (Hk0 : k0 ∈ (l ++ [(k, v)]).*1) by (apply Hd; left).
  rewrite fmap_cons. cbn [dict_set fst snd].
  destruct (decide (k = k0)) as [->|Hne].
  - by rewrite decide_True.
  - rewrite decide_False by (intros Heq; by apply Hne, Hg).
    rewrite fmap_cons. f_equal. apply IHd. intros x Hx. apply Hd. by right.
Qed.

(** ** Resolving a dataset *)

(** Without [create], [get_dataset] leaves the store as it was. *)
Lemma get_dataset_lookup_store key self :
  (get_dataset key false self).1 = self.
Proof.
  unfold get_dataset, do_get_dataset. destruct self as [n b s]; simpl.
  destruct (dict_get key n); [|done]. simpl.
  destruct b as [b|]; simpl; [|done]. by destruct (dict_get key b).
Qed.

(** What [get_dataset] returns without [create]: the dataset of the name in
    the forward data, and the one in the backward data where the store has
    backward data. *)
Lemma get_dataset_lookup key self :
  (get_dataset key false self).2
  = match dict_get key (nodes self) with
    | None => Raise KeyError
    | Some f =>
        match backward self with
        | None => Ok (f, None)
        | Some b =>
            match dict_get key b with
            | None => Raise KeyError
            | Some r => Ok (f, Some r)
            end
        end
    end.
Proof.
  unfold get_dataset, do_get_dataset. destruct self as [n b s]; simpl.
  destruct (dict_get key n); [|done]. simpl.
  destruct b as [b|]; simpl; [|done]. by destruct (dict_get key b).
Qed.

(** ** Queries *)

(** C5: on a store without backward data, [get_links] with [backward=True]
    raises [ValueError] (the spec's UnsupportedOperation), whatever dataset
    pair and state it is given: the dataset is not looked at. *)
Theorem get_links_backward_unsupported
    (sep : string) (self : JsonStorage)
    (dataset : dataset_t * option dataset_t) (state : list pyval) :
  backward self = None ->
  get_links sep self dataset state true = Raise ValueError.
Proof. intros Hb. unfold get_links. by rewrite Hb. Qed.

Lemma get_links_backward_unsupported_witness :
  backward (init None (BBool false) None) = None /\
  get_links "," (init None (BBool false) None) ([], None) [VStr "a"] true
  = Raise ValueError.
Proof.
  split; [reflexivity|].
  apply (get_links_backward_unsupported "," (init None (BBool false) None)).
  reflexivity.
Defined.

(** C6: when the dataset pair comes from [get_dataset] and the key of the
    state is not in the selected dataset, [get_links] returns the empty list
    and does not raise. *)
Theorem get_links_unknown_state
    (sep : string) (self : JsonStorage) (name : string)
    (dataset : dataset_t * option dataset_t) (state : list pyval)
    (backward_ : bool) (tokens : list string) (selected : dataset_t) :
  (get_dataset name false self).2 = Ok dataset ->
  (if backward_ then dataset.2 else Some dataset.1) = Some selected ->
  as_strs state = Some tokens ->
  dict_get (Some (join_state sep tokens)) selected = None ->
  get_links sep self dataset state backward_ = Ok [].
Proof.
  intros Hds Hsel Hkey Hnone. unfold get_links.
  rewrite Hkey, Hsel, Hnone.
  destruct backward_; [|done]. simpl.
  rewrite get_dataset_lookup in Hds.
  destruct (dict_get name (nodes self)); [|done].
  destruct (backward self); [done|]. by simplify_eq.
Qed.

(** C10: on a store with backward data, [get_states] raises [KeyError] (the
    spec's NotFound) for a name that the backward data lacks, whether or not
    the forward data has it. *)
Theorem get_states_missing_backward
    (str_lower : string -> string)
    (self : JsonStorage) (b : data_t) (dataset : string) (string_ : string) :
  backward self = Some b ->
  dict_get dataset b = None ->
  get_states str_lower self dataset string_ = Raise KeyError.
Proof.
  intros Hb Hnone. unfold get_states. rewrite get_dataset_lookup, Hb, Hnone.
  by destruct (dict_get dataset (nodes self)).
Qed.

Lemma get_states_missing_backward_witness :
  let self := init (Some [("body", [(Some "the", [(Some "cat", 1)])])])
                   (BBool true) None in
  dict_get "body" (nodes self) = Some [(Some "the", [(Some "cat", 1)])] /\
  get_states lower self "body" "th" = Raise KeyError.
Proof.
  split; [reflexivity|].
  apply (get_states_missing_backward lower _ []); reflexivity.
Defined.

Lemma get_links_unknown_state_witness :
  let self := init (Some [("body", [(Some "a", [(Some "b", 1)])])]) BNone None in
  get_links "," self ([(Some "a", [(Some "b", 1)])], None) [VStr "z"; VStr "z"] false
  = Ok [].
Proof.
  apply (get_links_unknown_state "," _ "body" _ _ false ["z"; "z"]
           [(Some "a", [(Some "b", 1)])]); reflexivity.
Defined.

(** ** Context windows *)

Section deque_facts.
Context {A : Type}.
Implicit Types (d : Deque.t A) (x : A).

Lemma append_maxlen x d : Deque.maxlen (Deque.append x d) = Deque.maxlen d.
Proof. unfold Deque.append. by repeat case_match. Qed.

Lemma appendleft_maxlen x d : Deque.maxlen (Deque.appendleft x d) = Deque.maxlen d.
Proof. unfold Deque.appendleft. by repeat case_match. Qed.

Lemma append_length x d :
  (length (Deque.items d) <= Deque.maxlen d)%nat ->
  length (Deque.items (Deque.append x d))
  = Nat.min (S (length (Deque.items d))) (Deque.maxlen d).
Proof.
  intros Hle. unfold Deque.append.
  destruct (Nat.eqb_spec (Deque.maxlen d) 0) as [H0|H0]; [cbv iota; lia|].
  destruct (Nat.ltb_spec (length (Deque.items d)) (Deque.maxlen d));
    cbn [Deque.items]; rewrite length_app; cbn [length].
  - lia.
  - destruct (Deque.items d); cbn [tail length] in *; lia.
Qed.

(** A full window that is advanced to the right: leftmost element out. *)
Lemma append_full x d :
  length (Deque.items d) = Deque.maxlen d ->
  Deque.append x d = Deque.Make (tail (Deque.items d ++ [x])) (Deque.maxlen d).
Proof.
  intros Hfull. unfold Deque.append. destruct d as [l n]; simpl in *.
  destruct (Nat.eqb_spec n 0) as [->|H0].
  - by destruct l.
  - destruct (Nat.ltb_spec (length l) n); [lia|]. by destruct l.
Qed.

(** A full window that is advanced to the left: rightmost element out. *)
Lemma appendleft_full x d :
  length (Deque.items d) = Deque.maxlen d ->
  Deque.appendleft x d
  = Deque.Make (removelast (x :: Deque.items d)) (Deque.maxlen d).
Proof.
  intros Hfull. unfold Deque.appendleft. destruct d as [l n]; simpl in *.
  destruct (Nat.eqb_spec n 0) as [->|H0].
  - by destruct l.
  - destruct (Nat.ltb_spec (length l) n); [lia|]. by destruct l.
Qed.

Lemma of_iter_from_length (l : list A) d :
  (length (Deque.items d) <= Deque.maxlen d)%nat ->
  let d' := fold_left (fun d x => Deque.append x d) l d in
  Deque.maxlen d' = Deque.maxlen d /\
  length (Deque.items d')
  = Nat.min (length (Deque.items d) + length l) (Deque.maxlen d).
Proof.
  revert d. induction l as [|x l IH]; intros d Hle; simpl.
  - split; [done|lia].
  - destruct (IH (Deque.append x d)) as [Hm Hl].
    { rewrite append_length, append_maxlen by done. lia. }
    rewrite Hm, Hl, append_maxlen, append_length by done. split; [done|lia].
Qed.

Lemma of_iter_length (l : list A) (n : nat) :
  Deque.maxlen (Deque.of_iter l n) = n /\
  length (Deque.items (Deque.of_iter l n)) = Nat.min (length l) n.
Proof.
  unfold Deque.of_iter.
  destruct (of_iter_from_length l (Deque.Make [] n)) as [Hm Hl]; simpl; [lia|].
  by rewrite Hm, Hl.
Qed.
End deque_facts.

(** Advancing a full window: the deque at the location is written, the
    location is returned, and the window is as long as before. *)
Lemma follow_link_full_window
    (h : heap) (w : nat) (d : Deque.t pyval) (link : pyval * pyval)
    (backward_ : bool) :
  h !! w = Some d ->
  length (Deque.items d) = Deque.maxlen d ->
  exists d' : Deque.t pyval,
    follow_link link w backward_ h = Some (w, <[w := d']> h) /\
    <[w := d']> h !! w = Some d' /\
    Deque.items d'
    = (if backward_ then removelast (link.2 :: Deque.items d)
       else tail (Deque.items d ++ [link.2])) /\
    length (Deque.items d') = length (Deque.items d) /\
    Deque.maxlen d' = Deque.maxlen d.
Proof.
  intros Hlook Hfull.
  exists (if backward_ then Deque.appendleft link.2 d else Deque.append link.2 d).
  split_and!.
  - unfold follow_link. by rewrite Hlook.
  - apply list_lookup_insert_eq. by eapply lookup_lt_Some.
  - destruct backward_; [by rewrite appendleft_full|by rewrite append_full].
  - destruct backward_.
    + rewrite appendleft_full by done. cbn [Deque.items].
      rewrite removelast_firstn_len, length_firstn. cbn [length]. lia.
    + rewrite append_full by done. cbn [Deque.items].
      destruct (Deque.items d) as [|y l]; [done|].
      cbn [tail app length]. rewrite length_app. cbn [length]. lia.
  - destruct backward_; [by rewrite appendleft_maxlen|by rewrite append_maxlen].
Qed.

(** The window that [get_state] makes is full: it has [size] elements. *)
Lemma get_state_full (prior : list pyval) (size : nat) (h : heap) :
  exists d : Deque.t pyval,
    (get_state prior size h).2 !! (get_state prior size h).1 = Some d /\
    length (Deque.items d) = size /\ Deque.maxlen d = size.
Proof.
  unfold get_state. cbn [fst snd].
  exists (Deque.of_iter (replicate size (VStr "") ++ prior) size).
  destruct (of_iter_length (replicate size (VStr "") ++ prior) size) as [Hm Hl].
  rewrite length_app, length_replicate in Hl. split_and!; [|lia|done].
  rewrite lookup_app_r by lia. by rewrite Nat.sub_diag.
Qed.

(** C8: on a window that [get_state] made, of size [size], [follow_link]
    writes into the deque at the location it is given and returns that same
    location; the token [link[1]] is added on the right and the leftmost
    element dropped, or with [backward] added on the left and the rightmost
    element dropped, and the window is again [size] long. *)
Theorem follow_link_keeps_window
    (prior : list pyval) (size : nat) (link : pyval * pyval) (backward_ : bool)
    (h : heap) :
  let w := (get_state prior size h).1 in
  let h1 := (get_state prior size h).2 in
  exists d d' : Deque.t pyval,
    h1 !! w = Some d /\
    length (Deque.items d) = size /\
    follow_link link w backward_ h1 = Some (w, <[w := d']> h1) /\
    <[w := d']> h1 !! w = Some d' /\
    Deque.items d'
    = (if backward_ then removelast (link.2 :: Deque.items d)
       else tail (Deque.items d ++ [link.2])) /\
    length (Deque.items d') = size /\
    Deque.maxlen d' = size.
Proof.
  intros w h1. subst w h1.
  destruct (get_state_full prior size h) as (d & Hlook & Hlen & Hmax).
  destruct (follow_link_full_window _ _ d link backward_ Hlook)
    as (d' & Hf & Hl & Hi & Hlen' & Hmax'); [lia|].
  exists d, d'. split_and!; [done..|lia|lia].
Qed.

(** ** Hydration *)

Lemma hydrate_key_inj (k1 k2 : string) : hydrate_key k1 = hydrate_key k2 -> k1 = k2.
Proof. unfold hydrate_key. repeat case_decide; congruence. Qed.

Lemma hydrate_dehydrate_key (t : token) :
  hydrate_key (dehydrate_key t) = normal_token t.
Proof.
  unfold hydrate_key, normal_token. destruct t as [s|]; simpl.
  - repeat case_decide; congruence.
  - done.
Qed.

Lemma counterify_NDict (d : dict string Z) :
  counterify (NDict d) = dict_of_items ((fun kv => (hydrate_key kv.1, kv.2)) <$> d).
Proof. by destruct d. Qed.

Lemma fmap_zip_columns {A B C D : Type} (f : A -> C) (h : C -> D) (l : list (A * B)) :
  (fun vk => (h vk.2, vk.1)) <$> zip l.*2 (f <$> l.*1)
  = (fun tv => (h (f tv.1), tv.2)) <$> l.
Proof.
  induction l as [|[a b] l IH]; [done|].
  rewrite !fmap_cons. cbn [zip zip_with fst snd]. by rewrite fmap_cons, IH.
Qed.

(** What every encoding of a distribution is hydrated to. *)
Lemma counterify_encode_arrays (c : Counter) :
  counterify (encode_arrays c)
  = dict_of_items ((fun tv => (normal_token tv.1, tv.2)) <$> c).
Proof.
  unfold counterify, encode_arrays. simpl. rewrite fmap_zip_columns.
  f_equal. apply list_fmap_ext. intros _ [t n] _. simpl.
  by rewrite hydrate_dehydrate_key.
Qed.

Lemma counterify_encode_mapping (c : Counter) :
  counterify (encode_mapping c)
  = dict_of_items ((fun tv => (normal_token tv.1, tv.2)) <$> c).
Proof.
  unfold encode_mapping. rewrite counterify_NDict.
  rewrite (dict_of_items_fmap_inj hydrate_key)
    by (intros ? ? _ _; apply hydrate_key_inj).
  rewrite dict_of_items_id by apply dict_of_items_NoDup.
  rewrite <- (dict_of_items_fmap_inj hydrate_key)
    by (intros ? ? _ _; apply hydrate_key_inj).
  rewrite <- list_fmap_compose. f_equal. apply list_fmap_ext.
  intros _ [t n] _. simpl. by rewrite hydrate_dehydrate_key.
Qed.

(** C9: the mapping and the parallel arrays that encode a distribution are
    hydrated to the same [Counter], in which the sentinel string has become
    the null token; so is the single pair that encodes a distribution of one
    token; and [hydrate_nodes] gives the same data for a state whichever of
    the encodings the document uses. *)
Theorem counterify_encodings_agree (c : Counter) :
  counterify (encode_mapping c) = counterify (encode_arrays c) /\
  counterify (encode_mapping c)
  = dict_of_items ((fun tv => (normal_token tv.1, tv.2)) <$> c) /\
  (forall (t : token) (n : Z),
      counterify (encode_pair t n) = counterify (encode_mapping [(t, n)]) /\
      counterify (encode_pair t n) = counterify (encode_arrays [(t, n)]) /\
      counterify (encode_pair t n) = [(normal_token t, n)]) /\
  (forall (name state : string),
      hydrate_nodes (Some [(name, [(state, encode_mapping c)])])
      = hydrate_nodes (Some [(name, [(state, encode_arrays c)])]) /\
      forall (t : token) (n : Z),
        c = [(t, n)] ->
        hydrate_nodes (Some [(name, [(state, encode_pair t n)])])
        = hydrate_nodes (Some [(name, [(state, encode_mapping c)])])).
Proof.
  assert (Hpair : forall t n, counterify (encode_pair t n) = [(normal_token t, n)]).
  { intros t n. unfold counterify, encode_pair. simpl.
    by rewrite hydrate_dehydrate_key. }
  assert (Hone : forall t n,
             counterify (encode_mapping [(t, n)]) = [(normal_token t, n)]).
  { intros t n. by rewrite counterify_encode_mapping. }
  split_and!.
  - by rewrite counterify_encode_mapping, counterify_encode_arrays.
  - apply counterify_encode_mapping.
  - intros t n. rewrite Hpair, Hone, counterify_encode_arrays. done.
  - intros name state. split.
    + simpl. by rewrite counterify_encode_mapping, counterify_encode_arrays.
    + intros t n ->. simpl. by rewrite Hpair, Hone.
Qed.

Lemma counterify_encodings_agree_witness :
  hydrate_nodes (Some [("body", [("the", encode_pair None 2)])])
  = hydrate_nodes (Some [("body", [("the", encode_mapping [(None, 2)])])]).
Proof.
  destruct (counterify_encodings_agree [(None, 2)]) as (_ & _ & _ & H).
  destruct (H "body" "the") as [_ Hp]. by apply Hp.
Defined.

(** ** Ingestion *)

Section dict_more.
Context {K V : Type} `{EqDecision K}.
Implicit Types (k : K) (v : V) (d : dict K V).

Lemma dict_set_set k v v' d : dict_set k v (dict_set k v' d) = dict_set k v d.
Proof.
  induction d as [|[k0 v0] d IH]; simpl.
  - by rewrite decide_True.
  - destruct (decide (k = k0)) as [->|Hne]; simpl.
    + by rewrite decide_True.
    + rewrite decide_False by done. by rewrite IH.
Qed.

Lemma dict_set_Forall (P : K * V -> Prop) k v d :
  P (k, v) -> Forall P d -> Forall P (dict_set k v d).
Proof.
  intros Hv. induction 1 as [|[k0 v0] d H0 Hd IH]; simpl.
  - by repeat constructor.
  - case_decide; simplify_eq; constructor; auto.
Qed.

Lemma dict_get_Forall (P : K * V -> Prop) k v d :
  Forall P d -> dict_get k d = Some v -> P (k, v).
Proof.
  intros Hall Hget%dict_get_Some_elem. rewrite Forall_forall in Hall. auto.
Qed.

Lemma dict_mem_get k d : dict_mem k d = false <-> dict_get k d = None.
Proof. unfold dict_mem. destruct (dict_get k d); naive_solver. Qed.
End dict_more.

Lemma add_link_hashable (ds : dataset_t) (source : string) (target : pyobj) (count : Z) :
  (forall l, target <> PList l) ->
  add_link ds source target count
  = (dict_set (Some source)
       (counter_add (target_token target) count
          (default [] (dict_get (Some source) ds))) ds,
     Ok tt).
Proof.
  intros Hh. unfold add_link, dict_mem.
  assert (Hgoal :
    forall ds', ds' = (if match dict_get (Some source) ds with
                          | Some _ => true | None => false end
                       then ds else dict_set (Some source) [] ds) ->
      dict_set (Some source)
        (counter_add (target_token target) count
           (default [] (dict_get (Some source) ds'))) ds'
      = dict_set (Some source)
          (counter_add (target_token target) count
             (default [] (dict_get (Some source) ds))) ds).
  { intros ds' ->. destruct (dict_get (Some source) ds) eqn:Hg; [by rewrite Hg|].
    by rewrite dict_get_set_eq, dict_set_set. }
  destruct target as [|s|l]; [| |by destruct (Hh l)]; simpl;
    by rewrite Hgoal.
Qed.

(** How a link changes the counts of the data. *)
Lemma data_count_linked (d : data_t) (name source : string) (target : pyobj)
    (name' : string) (key' t' : token) :
  (forall l, target <> PList l) ->
  data_count (linked name source target d) name' key' t'
  = if decide (name' = name /\ key' = Some source /\ t' = target_token target)
    then Some (default 0 (data_count d name (Some source) (target_token target)) + 1)
    else data_count d name' key' t'.
Proof.
  intros Hh. unfold linked, data_count. rewrite add_link_hashable by done. simpl.
  rewrite dict_get_set.
  destruct (decide (name' = name)) as [->|Hn]; simpl.
  2:{ rewrite decide_False by naive_solver. done. }
  rewrite dict_get_set.
  destruct (decide (key' = Some source)) as [->|Hk]; simpl.
  2:{ rewrite decide_False by naive_solver.
      destruct (dict_get name d); simpl; [done|]. by destruct key'. }
  unfold counter_add. rewrite dict_get_set.
  destruct (decide (t' = target_token target)) as [->|Ht].
  - rewrite decide_True by done. f_equal.
    destruct (dict_get name d) as [ds|]; simpl; [|done].
    by destruct (dict_get (Some source) ds).
  - rewrite decide_False by naive_solver.
    destruct (dict_get name d) as [ds|]; simpl; [|done].
    by destruct (dict_get (Some source) ds).
Qed.

(** A target that cannot be hashed leaves the counts as they are. *)
Lemma data_count_linked_unhashable (d : data_t) (name source : string)
    (l : list string) (name' : string) (key' t' : token) :
  data_count (linked name source (PList l) d) name' key' t'
  = data_count d name' key' t'.
Proof.
  unfold linked, data_count, add_link, dict_mem. simpl. rewrite dict_get_set.
  destruct (decide (name' = name)) as [->|Hn]; simpl; [|done].
  destruct (dict_get name d) as [ds|]; simpl.
  - destruct (dict_get (Some source) ds) eqn:Hs; [done|]. rewrite dict_get_set.
    destruct (decide (key' = Some source)) as [->|]; simpl; [|done].
    by rewrite Hs.
  - by destruct (decide (key' = Some source)).
Qed.

Lemma data_count_created (d : data_t) (key : string)
    (name' : string) (key' t' : token) :
  data_count (created key d) name' key' t' = data_count d name' key' t'.
Proof.
  unfold created, data_count, dict_mem.
  destruct (dict_get key d) eqn:Hk; [done|]. rewrite dict_get_set.
  destruct (decide (name' = key)) as [->|]; [|done]. by rewrite Hk.
Qed.

(** [get_dataset] with [create]: the datasets are there afterwards, and the
    second component of the pair tells whether the store has backward data. *)
Lemma get_dataset_create (key : string) (self : JsonStorage) :
  get_dataset key true self
  = ({| nodes := created key (nodes self);
        backward := created key <$> backward self;
        settings := settings self |},
     Ok (default [] (dict_get key (created key (nodes self))),
         (fun b => default [] (dict_get key (created key b))) <$> backward self)).
Proof.
  unfold get_dataset, do_get_dataset, created, dict_mem.
  destruct self as [n b s]; simpl.
  destruct (dict_get key n) eqn:Hn; simpl.
  - destruct b as [b|]; simpl; [|by rewrite Hn].
    destruct (dict_get key b) eqn:Hb; simpl; rewrite ?Hn, ?Hb; [done|].
    by rewrite dict_get_set_eq.
  - rewrite dict_get_set_eq.
    destruct b as [b|]; simpl; [|done].
    destruct (dict_get key b) eqn:Hb; simpl; rewrite ?Hb; [done|].
    by rewrite dict_get_set_eq.
Qed.

Lemma add_link_forward_store (name source : string) (target : pyobj)
    (self : JsonStorage) :
  (add_link_forward name source target self).1
  = {| nodes := linked name source target (nodes self);
       backward := backward self; settings := settings self |}.
Proof. unfold add_link_forward, linked. by destruct (add_link _ _ _ _). Qed.

Lemma add_link_backward_store (name source : string) (target : pyobj)
    (self : JsonStorage) :
  (add_link_backward name source target self).1
  = {| nodes := nodes self;
       backward := linked name source target <$> backward self;
       settings := settings self |}.
Proof.
  unfold add_link_backward, linked. destruct self as [n [b|] s]; simpl; [|done].
  by destruct (add_link _ _ _ _).
Qed.

(** A property of the store that creating a dataset and adding a link keep
    is kept by the body of the loop, whatever the element and the outcome. *)
Lemma add_links_body_preserves (sep : string) (P : JsonStorage -> Prop) :
  (forall key self, P self -> P (get_dataset key true self).1) ->
  (forall name source target self,
      P self -> P (add_link_backward name source target self).1) ->
  (forall name source target self,
      P self -> P (add_link_forward name source target self).1) ->
  forall dataset_prefix it self,
    P self -> P (add_links_body sep dataset_prefix it self).1.
Proof.
  intros Hc Hb Hf dataset_prefix it self HP.
  destruct it as [|o1 [|o2 [|o3 [|? ?]]]]; try done.
  destruct o1 as [|dataset|]; try done.
  unfold add_links_body, bind.
  specialize (Hc (dataset_prefix +:+ dataset) self HP).
  destruct (get_dataset (dataset_prefix +:+ dataset) true self) as [s1 [[f b]|e]];
    [|done].
  simpl in Hc.
  assert (Hfwd : forall s2, P s2 ->
    P (match lift (iterate o2) s2 with
       | (s', Ok a) =>
           add_link_forward (dataset_prefix +:+ dataset) (join_state sep a) o3 s'
       | (s', Raise e) => (s', Raise e)
       end).1).
  { intros s2 H2. unfold lift. destruct (iterate o2); [|done]. by apply Hf. }
  destruct b as [b|]; [|by apply Hfwd].
  destruct o3 as [|t|l]; [by apply Hfwd| |].
  - unfold lift at 1. destruct (iterate o2) as [[|dst2 src2]|e] eqn:Hit; try done.
    unfold lift at 1.
    specialize (Hb (dataset_prefix +:+ dataset) (join_state sep (src2 ++ [t]))
                  (PStr dst2) s1 Hc).
    destruct (add_link_backward _ _ _ s1) as [s2 [[]|e]]; [|done].
    apply (Hfwd s2 Hb).
  - unfold lift at 1. destruct (iterate o2) as [[|dst2 src2]|e] eqn:Hit; done.
Qed.

Lemma add_links_preserves (sep : string) (P : JsonStorage -> Prop) :
  (forall dataset_prefix it self,
      P self -> P (add_links_body sep dataset_prefix it self).1) ->
  forall links dataset_prefix self,
    P self -> P (add_links sep links dataset_prefix self).1.
Proof.
  intros Hbody links dataset_prefix. induction links as [|it links IH]; [done|].
  intros self HP. simpl. unfold bind.
  specialize (Hbody dataset_prefix it self HP).
  destruct (add_links_body sep dataset_prefix it self) as [s1 [[]|e]]; [|done].
  by apply IH.
Qed.

Lemma add_links_calls_preserves (sep : string) (P : JsonStorage -> Prop) :
  (forall links dataset_prefix self,
      P self -> P (add_links sep links dataset_prefix self).1) ->
  forall calls self, P self -> P (add_links_calls sep calls self).
Proof.
  intros Hadd calls. unfold add_links_calls.
  induction calls as [|[links pre] calls IH]; [done|].
  intros self HP. simpl. by apply IH, Hadd.
Qed.

(** The same for a property of the data, forward and backward. *)
Lemma store_all_preserved (sep : string) (Q : data_t -> Prop) :
  (forall key d, Q d -> Q (created key d)) ->
  (forall name source target d, Q d -> Q (linked name source target d)) ->
  forall calls self,
    store_all Q self -> store_all Q (add_links_calls sep calls self).
Proof.
  intros Hc Hl. apply add_links_calls_preserves, add_links_preserves,
    add_links_body_preserves.
  - intros key self [Hn Hb]. rewrite get_dataset_create. split; simpl; [auto|].
    intros b. destruct (backward self); intros; simplify_eq/=. auto.
  - intros name source target self [Hn Hb]. rewrite add_link_backward_store.
    split; simpl; [done|].
    intros b. destruct (backward self); intros; simplify_eq/=. auto.
  - intros name source target self [Hn Hb]. rewrite add_link_forward_store.
    split; simpl; auto.
Qed.

(** *** What ingestion keeps *)

Lemma dataset_wf_nil : dataset_wf [].
Proof. split; [apply NoDup_nil_2|constructor]. Qed.

Lemma dataset_wf_get (d : data_t) (name : string) :
  data_wf d -> dataset_wf (default [] (dict_get name d)).
Proof.
  intros [_ Hall]. destruct (dict_get name d) as [ds|] eqn:Hg; simpl.
  - apply (dict_get_Forall _ _ _ _ Hall Hg).
  - apply dataset_wf_nil.
Qed.

Lemma counter_wf_get (ds : dataset_t) (key : token) :
  dataset_wf ds -> NoDup (dict_keys (default [] (dict_get key ds))).
Proof.
  intros [_ Hall]. destruct (dict_get key ds) as [c|] eqn:Hg; simpl.
  - apply (dict_get_Forall _ _ _ _ Hall Hg).
  - apply NoDup_nil_2.
Qed.

Lemma add_link_wf (ds : dataset_t) (source : string) (target : pyobj) (count : Z) :
  dataset_wf ds -> dataset_wf (add_link ds source target count).1.
Proof.
  intros Hwf. destruct target as [| |l].
  3:{ unfold add_link. simpl. destruct (dict_mem (Some source) ds); [done|].
      destruct Hwf as [Hk Hall]. split; [by apply dict_set_NoDup|].
      apply dict_set_Forall; [apply NoDup_nil_2|done]. }
  all: rewrite add_link_hashable by done; simpl.
  all: pose proof (counter_wf_get ds (Some source) Hwf) as Hc.
  all: destruct Hwf as [Hk Hall]; split; [by apply dict_set_NoDup|].
  all: apply dict_set_Forall; [|done].
  all: simpl; by apply dict_set_NoDup.
Qed.

Lemma created_wf (key : string) (d : data_t) : data_wf d -> data_wf (created key d).
Proof.
  intros [Hk Hall]. unfold created. destruct (dict_mem key d); [done|].
  split; [by apply dict_set_NoDup|].
  apply dict_set_Forall; [apply dataset_wf_nil|done].
Qed.

Lemma linked_wf (name source : string) (target : pyobj) (d : data_t) :
  data_wf d -> data_wf (linked name source target d).
Proof.
  intros Hwf. pose proof (dataset_wf_get d name Hwf) as Hds.
  destruct Hwf as [Hk Hall]. split; [by apply dict_set_NoDup|].
  apply dict_set_Forall; [|done]. by apply add_link_wf.
Qed.

Lemma created_positive (key : string) (d : data_t) :
  data_positive d -> data_positive (created key d).
Proof. intros Hp name k t n. rewrite data_count_created. apply Hp. Qed.

Lemma linked_positive (name source : string) (target : pyobj) (d : data_t) :
  data_positive d -> data_positive (linked name source target d).
Proof.
  intros Hp name' k t n. destruct target as [| |l].
  3:{ rewrite data_count_linked_unhashable. apply Hp. }
  all: rewrite data_count_linked by done.
  all: case_decide; [|by apply Hp].
  all: intros [= <-].
  all: destruct (data_count d name (Some source) _) as [m|] eqn:Hm; simpl; [|lia].
  all: apply Hp in Hm; lia.
Qed.

Lemma created_keys_str (key : string) (d : data_t) :
  data_keys_str d -> data_keys_str (created key d).
Proof.
  intros Hs. unfold created. destruct (dict_mem key d); [done|].
  apply dict_set_Forall; [constructor|done].
Qed.

Lemma linked_keys_str (name source : string) (target : pyobj) (d : data_t) :
  data_keys_str d -> data_keys_str (linked name source target d).
Proof.
  intros Hs. apply dict_set_Forall; [|done]. simpl.
  assert (Hds : Forall (fun sd : token * Counter => is_Some sd.1)
                  (default [] (dict_get name d))).
  { destruct (dict_get name d) as [ds|] eqn:Hg; simpl; [|constructor].
    apply (dict_get_Forall _ _ _ _ Hs Hg). }
  destruct target as [| |l].
  3:{ unfold add_link. simpl. destruct (dict_mem _ _); [done|].
      apply dict_set_Forall; [by eexists|done]. }
  all: rewrite add_link_hashable by done; simpl.
  all: apply dict_set_Forall; [by eexists|done].
Qed.

Lemma new_store_all (Q : data_t -> Prop) (enable : option bool) (settings : settings_t) :
  Q [] -> store_all Q (new_store enable settings).
Proof.
  intros HQ. split; [done|]. unfold new_store, init. simpl.
  destruct enable as [[]|]; [| |destruct (wants_backward settings)];
    intros b; intros; by simplify_eq.
Qed.

Lemma data_wf_nil : data_wf [].
Proof. split; [apply NoDup_nil_2|constructor]. Qed.

Lemma data_positive_nil : data_positive [].
Proof. intros name key t n. done. Qed.

(** The stores that [add_links] fills are made of dicts. *)
Lemma filled_wf (sep : string) (enable : option bool) (settings : settings_t)
    (calls : list (list item * string)) :
  store_all data_wf (add_links_calls sep calls (new_store enable settings)).
Proof.
  apply store_all_preserved;
    auto using created_wf, linked_wf, new_store_all, data_wf_nil.
Qed.

(** Their counts are positive. *)
Lemma filled_positive (sep : string) (enable : option bool) (settings : settings_t)
    (calls : list (list item * string)) :
  store_all data_positive (add_links_calls sep calls (new_store enable settings)).
Proof.
  apply store_all_preserved;
    auto using created_positive, linked_positive, new_store_all, data_positive_nil.
Qed.

(** Their state keys are strings. *)
Lemma filled_keys_str (sep : string) (enable : option bool) (settings : settings_t)
    (calls : list (list item * string)) :
  store_all data_keys_str (add_links_calls sep calls (new_store enable settings)).
Proof.
  apply store_all_preserved;
    auto using created_keys_str, linked_keys_str, new_store_all.
  apply new_store_all. constructor.
Qed.

(** In particular the state keys of each of their datasets are strings. *)
Lemma filled_keys_strings (sep : string) (enable : option bool)
    (settings : settings_t) (calls : list (list item * string)) (name : string) :
  let self := add_links_calls sep calls (new_store enable settings) in
  exists keys : list string,
    dict_keys (default [] (dict_get name (nodes self))) = Some <$> keys.
Proof.
  intros self. destruct (filled_keys_str sep enable settings calls) as [Hn _].
  fold self in Hn.
  assert (Hds : Forall (fun sd : token * Counter => is_Some sd.1)
                  (default [] (dict_get name (nodes self)))).
  { destruct (dict_get name (nodes self)) as [ds|] eqn:Hg; simpl; [|constructor].
    apply (dict_get_Forall _ _ _ _ Hn Hg). }
  induction Hds as [|[k c] ds [key Hk] _ [keys IH]]; [by exists []|].
  simpl in Hk. subst k.
  exists (key :: keys). unfold dict_keys in *. by rewrite !fmap_cons, IH.
Qed.

(** ** The links of a state *)

(** The dataset that [get_links] selects in a pair that [get_dataset]
    returned is the one of the name in the forward or backward data. *)
Lemma get_dataset_selected (self : JsonStorage) (name : string)
    (dataset : dataset_t * option dataset_t) (backward_ : bool)
    (selected : dataset_t) :
  (get_dataset name false self).2 = Ok dataset ->
  (if backward_ then dataset.2 else Some dataset.1) = Some selected ->
  exists d, (if backward_ then backward self else Some (nodes self)) = Some d /\
            dict_get name d = Some selected.
Proof.
  rewrite get_dataset_lookup. intros Hds Hsel.
  destruct (dict_get name (nodes self)) as [f|] eqn:Hf; [|done].
  destruct (backward self) as [b|] eqn:Hb.
  - destruct (dict_get name b) as [r|] eqn:Hr; [|done]. simplify_eq/=.
    destruct backward_; simplify_eq/=; eauto.
  - simplify_eq/=. destruct backward_; simplify_eq/=; eauto.
Qed.

Lemma get_links_found
    (sep : string) (self : JsonStorage) (name : string)
    (dataset : dataset_t * option dataset_t) (state : list pyval)
    (backward_ : bool) (tokens : list string) (selected : dataset_t)
    (node : Counter) :
  (get_dataset name false self).2 = Ok dataset ->
  (if backward_ then dataset.2 else Some dataset.1) = Some selected ->
  as_strs state = Some tokens ->
  dict_get (Some (join_state sep tokens)) selected = Some node ->
  get_links sep self dataset state backward_
  = Ok ((fun tn => (VInt tn.2, of_token tn.1)) <$> node).
Proof.
  intros Hds Hsel Hkey Hnode. unfold get_links. rewrite Hkey, Hsel, Hnode.
  destruct backward_; [|done]. simpl.
  destruct (get_dataset_selected self name dataset true selected Hds Hsel)
    as (d & Hb & _). simpl in Hb. by rewrite Hb.
Qed.

Lemma get_links_positive
    (sep : string) (enable : option bool) (settings : settings_t)
    (calls : list (list item * string)) (name : string)
    (dataset : dataset_t * option dataset_t) (state : list pyval)
    (backward_ : bool) (links : list (pyval * pyval)) :
  let self := add_links_calls sep calls (new_store enable settings) in
  (get_dataset name false self).2 = Ok dataset ->
  get_links sep self dataset state backward_ = Ok links ->
  Forall (fun link => exists (n : Z) (t : token),
                        link = (VInt n, of_token t) /\ 0 < n) links.
Proof.
  intros self Hds. unfold get_links.
  destruct (backward_ && _); [done|].
  destruct (as_strs state) as [tokens|]; [|done].
  set (key := join_state sep tokens).
  destruct (if backward_ then dataset.2 else Some dataset.1) as [sel|] eqn:Hsel;
    [|done].
  destruct (dict_get (Some key) sel) as [node|] eqn:Hnode.
  2:{ intros [= <-]. constructor. }
  intros [= <-].
  destruct (get_dataset_selected self name dataset backward_ sel Hds Hsel)
    as (d & Hd & Hname).
  assert (Hwf : data_wf d /\ data_positive d).
  { destruct (filled_wf sep enable settings calls) as [Hwn Hwb].
    destruct (filled_positive sep enable settings calls) as [Hpn Hpb].
    fold self in Hwn, Hwb, Hpn, Hpb.
    destruct backward_; simplify_eq/=; auto. }
  destruct Hwf as [Hwf Hpos].
  assert (Hnd : NoDup (dict_keys node)).
  { destruct Hwf as [_ Hall].
    destruct (dict_get_Forall _ _ _ _ Hall Hname) as [_ Hall'].
    apply (dict_get_Forall _ _ _ _ Hall' Hnode). }
  apply Forall_fmap, Forall_forall. intros [t n] Hin. simpl.
  exists n, t. split; [done|].
  apply (Hpos name (Some key) t n). unfold data_count.
  rewrite Hname. simpl. rewrite Hnode. simpl. by apply dict_get_elem.
Qed.

(** C1, as amended: [get_links] returns the continuations that the selected
    dataset records for the state as pairs of the count first and the token
    second; on a store that [add_links] filled every such count is positive;
    in the scenario of the spec the window of no prior token has the links
    [(1, "the")] and the window of ["the"] has [(1, "cat")]. *)
Theorem get_links_count_first :
  (forall (sep : string) (self : JsonStorage) (name : string)
          (dataset : dataset_t * option dataset_t) (state : list pyval)
          (backward_ : bool) (tokens : list string) (selected : dataset_t)
          (node : Counter),
      (get_dataset name false self).2 = Ok dataset ->
      (if backward_ then dataset.2 else Some dataset.1) = Some selected ->
      as_strs state = Some tokens ->
      dict_get (Some (join_state sep tokens)) selected = Some node ->
      get_links sep self dataset state backward_
      = Ok ((fun tn => (VInt tn.2, of_token tn.1)) <$> node)) /\
  (forall (sep : string) (enable : option bool) (settings : settings_t)
          (calls : list (list item * string)) (name : string)
          (dataset : dataset_t * option dataset_t) (state : list pyval)
          (backward_ : bool) (links : list (pyval * pyval)),
      let self := add_links_calls sep calls (new_store enable settings) in
      (get_dataset name false self).2 = Ok dataset ->
      get_links sep self dataset state backward_ = Ok links ->
      Forall (fun link => exists (n : Z) (t : token),
                            link = (VInt n, of_token t) /\ 0 < n) links) /\
  (exists dataset : dataset_t * option dataset_t,
      (get_dataset "body" false scenario_store).2 = Ok dataset /\
      get_links U0001 scenario_store dataset (window_items [] 2) false
      = Ok [(VInt 1, VStr "the")] /\
      get_links U0001 scenario_store dataset (window_items [VStr "the"] 2) false
      = Ok [(VInt 1, VStr "cat")]).
Proof.
  split_and!.
  - apply get_links_found.
  - apply get_links_positive.
  - eexists. split_and!; [vm_compute; reflexivity|by vm_compute..].
Qed.

Lemma get_links_count_first_witness :
  get_links U0001 scenario_store
    ([(Some U0001, [(Some "the", 1)]);
      (Some (U0001 +:+ "the"), [(Some "cat", 1)])], None)
    [VStr ""; VStr "the"] false
  = Ok [(VInt 1, VStr "cat")].
Proof.
  destruct get_links_count_first as [H _].
  apply (H U0001 scenario_store "body" _ _ false [""; "the"]
           [(Some U0001, [(Some "the", 1)]);
            (Some (U0001 +:+ "the"), [(Some "cat", 1)])]
           [(Some "cat", 1)]); by vm_compute.
Defined.

(** C1 as stated does not hold: in the scenario the only link of the window
    of no prior token is not the pair of the token first and the count
    second. *)
Lemma get_links_token_first_fails :
  exists dataset : dataset_t * option dataset_t,
    (get_dataset "body" false scenario_store).2 = Ok dataset /\
    get_links U0001 scenario_store dataset (window_items [] 2) false
    <> Ok [(VStr "the", VInt 1)].
Proof. eexists. split; [vm_compute; reflexivity|by vm_compute]. Qed.

(** ** Elements of the wrong shape *)

Lemma add_links_app (sep : string) (links1 links2 : list item)
    (dataset_prefix : string) (self : JsonStorage) :
  add_links sep (links1 ++ links2) dataset_prefix self
  = match add_links sep links1 dataset_prefix self with
    | (s, Ok _) => add_links sep links2 dataset_prefix s
    | (s, Raise e) => (s, Raise e)
    end.
Proof.
  revert self. induction links1 as [|it links1 IH]; intros self; [done|].
  simpl. unfold bind.
  destruct (add_links_body sep dataset_prefix it self) as [s [[]|e]]; [|done].
  apply IH.
Qed.

(** Unpacking an element that is not a tuple of three raises [ValueError]
    and leaves the store alone. *)
Lemma add_links_body_wrong_shape (sep dataset_prefix : string) (it : item)
    (self : JsonStorage) :
  length it <> 3%nat ->
  add_links_body sep dataset_prefix it self = (self, Raise ValueError).
Proof. intros Hlen. by destruct it as [|o1 [|o2 [|o3 [|? ?]]]]. Qed.

(** C4: an element of the batch that is not a tuple of three makes
    [add_links] raise [ValueError] (the spec's StructuralError) without any
    change of the store for that element, forward or backward; the links of
    the elements before it stay in the store, and no later element is
    looked at. *)
Theorem add_links_wrong_shape
    (sep dataset_prefix : string) (before : list item) (bad : item)
    (after : list item) (self : JsonStorage) :
  length bad <> 3%nat ->
  (add_links sep before dataset_prefix self).2 = Ok tt ->
  let committed := (add_links sep before dataset_prefix self).1 in
  add_links_body sep dataset_prefix bad committed = (committed, Raise ValueError) /\
  add_links sep (before ++ bad :: after) dataset_prefix self
  = (committed, Raise ValueError).
Proof.
  intros Hlen Hok committed. subst committed.
  split; [by apply add_links_body_wrong_shape|].
  rewrite add_links_app.
  destruct (add_links sep before dataset_prefix self) as [s r].
  simpl in Hok. subst r. simpl. unfold bind.
  by rewrite add_links_body_wrong_shape.
Qed.

Lemma add_links_wrong_shape_witness :
  add_links U0001
    (scenario_links ++ [PStr "body"; PList ["the"; "cat"]]
       :: [[PStr "body"; PList ["the"; "cat"]; PStr "sat"]])
    "" (new_store (Some true) None)
  = ((add_links U0001 scenario_links "" (new_store (Some true) None)).1,
     Raise ValueError).
Proof.
  apply (add_links_wrong_shape U0001 "" scenario_links
           [PStr "body"; PList ["the"; "cat"]]
           [[PStr "body"; PList ["the"; "cat"]; PStr "sat"]]
           (new_store (Some true) None)).
  - simpl. lia.
  - vm_compute. reflexivity.
Defined.

(** ** Searching the state keys *)

Lemma startswith_spec (p s : string) :
  startswith p s = true <-> exists v, s = p +:+ v.
Proof.
  revert s. induction p as [|a p IH]; intros s; simpl.
  - split; [intros _; by exists s|done].
  - destruct s as [|b s]; simpl.
    + split; [done|]. by intros [v ?].
    + rewrite andb_true_iff, IH. split.
      * intros [->%Ascii.eqb_eq [v ->]]. by exists v.
      * intros [v [= -> ->]]. split; [apply Ascii.eqb_refl|by exists v].
Qed.

(** [needle in hay] holds when [hay] is some [u + needle + v]. *)
Lemma contains_spec (needle hay : string) :
  contains needle hay = true <-> exists u v, hay = u +:+ needle +:+ v.
Proof.
  induction hay as [|a r IH]; simpl.
  - rewrite orb_false_r, startswith_spec. split.
    + intros [v Hv]. by exists EmptyString, v.
    + intros (u & v & Huv). destruct u; [by exists v|done].
  - rewrite orb_true_iff, startswith_spec, IH. split.
    + intros [[v Hv]|(u & v & ->)].
      * by exists EmptyString, v.
      * by exists (String a u), v.
    + intros (u & v & Huv). destruct u as [|b u].
      * left. by exists v.
      * right. exists u, v.
        change (String a r = String b (u +:+ needle +:+ v)) in Huv.
        by simplify_eq.
Qed.

Lemma get_states_keys_strings (str_lower : string -> string)
    (string_ : string) (keys : list string) :
  get_states_keys str_lower string_ (Some <$> keys)
  = Ok (List.filter (fun key => contains string_ (str_lower key)) keys).
Proof.
  induction keys as [|key keys IH]; [done|].
  rewrite fmap_cons. cbn [get_states_keys List.filter]. rewrite IH.
  by destruct (contains string_ (str_lower key)).
Qed.

Lemma get_states_keys_not_KeyError (str_lower : string -> string)
    (string_ : string) (keys : list token) :
  get_states_keys str_lower string_ keys <> Raise KeyError.
Proof.
  induction keys as [|[key|] keys IH]; simpl; [done| |done].
  by destruct (get_states_keys str_lower string_ keys) as [l|[]].
Qed.

Lemma get_dataset_exists (self : JsonStorage) (name : string) :
  dataset_exists self name = true ->
  exists r, (get_dataset name false self).2
            = Ok (default [] (dict_get name (nodes self)), r).
Proof.
  rewrite get_dataset_lookup. unfold dataset_exists, dict_mem.
  destruct (dict_get name (nodes self)) as [f|]; [|done]. simpl.
  destruct (backward self) as [b|]; [|by eexists].
  destruct (dict_get name b); [by eexists|done].
Qed.

Lemma get_dataset_missing (self : JsonStorage) (name : string) :
  dataset_exists self name = false ->
  (get_dataset name false self).2 = Raise KeyError.
Proof.
  rewrite get_dataset_lookup. unfold dataset_exists, dict_mem.
  destruct (dict_get name (nodes self)) as [f|]; [|done]. simpl.
  destruct (backward self) as [b|]; [|done]. by destruct (dict_get name b).
Qed.

(** C7, as amended: [get_states] raises [KeyError] (the spec's NotFound)
    exactly when the name cannot be resolved, which is when the forward
    data lacks it or the store has backward data that lacks it; for a
    dataset that resolves and whose state keys are all strings it returns,
    in their order, the keys that contain the string once [str.lower] has
    put both in lower case, which is the empty list when no key does; in
    the scenario of the spec the search for ["th"] returns the one key
    [join_state ["", "the"]].  Of [str.lower] only this is used, and only in
    the scenario: on a string of ASCII characters it folds the letters A to
    Z. *)
Theorem get_states_matching_keys (str_lower : string -> string) :
  (forall s : string, isascii s = true -> str_lower s = lower s) ->
  (forall (self : JsonStorage) (dataset string_ : string),
      get_states str_lower self dataset string_ = Raise KeyError
      <-> dataset_exists self dataset = false) /\
  (forall (self : JsonStorage) (dataset string_ : string) (keys : list string),
      dataset_exists self dataset = true ->
      dict_keys (default [] (dict_get dataset (nodes self))) = Some <$> keys ->
      get_states str_lower self dataset string_
      = Ok (List.filter
              (fun key => contains (str_lower string_) (str_lower key)) keys) /\
      (forall key,
          In key (List.filter
                    (fun key => contains (str_lower string_) (str_lower key))
                    keys)
          <-> In key keys /\
              exists u v, str_lower key = u +:+ str_lower string_ +:+ v) /\
      ((forall key, In key keys ->
                    ~ exists u v, str_lower key = u +:+ str_lower string_ +:+ v) ->
       get_states str_lower self dataset string_ = Ok [])) /\
  get_states str_lower scenario_store "body" "th"
  = Ok [join_state U0001 [""; "the"]].
Proof.
  intros Hlower.
  assert (Hres : forall (self : JsonStorage) (dataset string_ : string)
                        (keys : list string),
             dataset_exists self dataset = true ->
             dict_keys (default [] (dict_get dataset (nodes self)))
             = Some <$> keys ->
             get_states str_lower self dataset string_
             = Ok (List.filter
                     (fun key => contains (str_lower string_) (str_lower key))
                     keys)).
  { intros self dataset string_ keys Hex Hkeys.
    destruct (get_dataset_exists _ _ Hex) as [r Hr].
    unfold get_states. rewrite Hr. simpl. rewrite Hkeys.
    apply get_states_keys_strings. }
  split_and!.
  - intros self dataset string_. split.
    + intros Hraise. destruct (dataset_exists self dataset) eqn:Hex; [|done].
      destruct (get_dataset_exists _ _ Hex) as [r Hr].
      unfold get_states in Hraise. rewrite Hr in Hraise.
      by apply get_states_keys_not_KeyError in Hraise.
    + intros Hex. unfold get_states. by rewrite get_dataset_missing.
  - intros self dataset string_ keys Hex Hkeys.
    split_and!; [by apply Hres| |].
    + intros key. by rewrite filter_In, contains_spec.
    + intros Hnone. rewrite (Hres _ _ _ keys) by done. f_equal.
      induction keys as [|key keys IH] in Hnone |- *; [done|]. simpl.
      destruct (contains (str_lower string_) (str_lower key)) eqn:Hc.
      * apply contains_spec in Hc. destruct (Hnone key); [by left|done].
      * apply IH. intros key' Hin. apply Hnone. by right.
  - rewrite (Hres scenario_store "body" "th" [U0001; U0001 +:+ "the"])
      by (by vm_compute).
    cbn [List.filter]. rewrite !Hlower by reflexivity. by vm_compute.
Qed.

Lemma get_states_matching_keys_witness :
  get_states lower scenario_store "body" "TH" = Ok [U0001 +:+ "the"].
Proof.
  destruct (get_states_matching_keys lower) as (_ & H & _); [reflexivity|].
  destruct (H scenario_store "body" "TH" [U0001; U0001 +:+ "the"]) as [Hres _];
    [by vm_compute..|].
  exact Hres.
Defined.

(** C7 as stated does not hold, in two ways.  With the separator
    ["\u0000"] the state of three empty tokens has the sentinel string as
    its key, which [do_save] writes; in the store read back from that
    document the dataset ["body"] exists, with the state key that hydration
    turned into [None], and [get_states] returns no list of keys for it, nor
    does it raise [KeyError]: lowering the key raises [AttributeError].  And
    on a store with backward data [get_states] raises [KeyError] for the
    dataset ["body"] that the forward data has and the backward data
    lacks. *)
Lemma get_states_claim_fails :
  (do_save (add_links_calls U0000
              [([[PStr "body"; PList [""; ""; ""]; PStr "a"]], "")]
              (new_store None None))
   = {| doc_settings := None;
        doc_nodes := Some [("body", [(NONE_VALUE, NDict [("a", 1)])])];
        doc_backward := None |} /\
   dataset_exists sentinel_key_store "body" = true /\
   dict_keys (default [] (dict_get "body" (nodes sentinel_key_store))) = [None] /\
   (forall str_lower : string -> string,
       get_states str_lower sentinel_key_store "body" "a" = Raise AttributeError /\
       (forall keys, get_states str_lower sentinel_key_store "body" "a" <> Ok keys) /\
       get_states str_lower sentinel_key_store "body" "a" <> Raise KeyError)) /\
  (dict_mem "body" (nodes forward_only_store) = true /\
   forall str_lower : string -> string,
     get_states str_lower forward_only_store "body" "th" = Raise KeyError).
Proof.
  split_and!; try (by vm_compute); intros str_lower; split_and!; by vm_compute.
Qed.

(** ** Saving and loading *)

Lemma hydrate_nodes_Some (w : wire_data) :
  hydrate_nodes (Some w)
  = Some ((fun entry =>
             (entry.1,
              dict_of_items
                ((fun sd => (hydrate_key sd.1, counterify sd.2)) <$> entry.2)))
            <$> w).
Proof. by destruct w. Qed.

Lemma dehydrate_nodes_Some (d : data_t) :
  dehydrate_nodes (Some d)
  = Some (dict_of_items
            ((fun entry =>
                (entry.1,
                 dict_of_items
                   ((fun sd =>
                       (dehydrate_key sd.1,
                        NDict (dict_of_items
                                 ((fun dv => (dehydrate_key dv.1, dv.2)) <$> sd.2))))
                      <$> entry.2)))
               <$> d)).
Proof. by destruct d. Qed.

Lemma normal_token_id (t : token) : not_sentinel t = true -> normal_token t = t.
Proof.
  unfold not_sentinel, normal_token. intros Hns%bool_decide_eq_true.
  by rewrite decide_False.
Qed.

Lemma dehydrate_key_inj (t1 t2 : token) :
  not_sentinel t1 = true -> not_sentinel t2 = true ->
  dehydrate_key t1 = dehydrate_key t2 -> t1 = t2.
Proof.
  intros H1 H2 Heq. apply (f_equal hydrate_key) in Heq.
  by rewrite !hydrate_dehydrate_key, !normal_token_id in Heq.
Qed.

(** A comprehension that renames distinct keys to distinct keys is a map. *)
Lemma dict_of_items_fmap_NoDup {K K' V V' : Type} `{EqDecision K, EqDecision K'}
    (f : K * V -> K' * V') (d : dict K V) :
  NoDup (dict_keys d) ->
  (forall x y, x ∈ d -> y ∈ d -> (f x).1 = (f y).1 -> x.1 = y.1) ->
  dict_of_items (f <$> d) = f <$> d.
Proof.
  intros Hnd Hinj. apply dict_of_items_id. unfold dict_keys in *.
  rewrite <- list_fmap_compose.
  induction d as [|x d IH]; [apply NoDup_nil_2|].
  rewrite fmap_cons in *. apply NoDup_cons in Hnd as [Hx Hd].
  apply NoDup_cons. split.
  - intros (y & Hxy & Hy)%list_elem_of_fmap. apply Hx.
    apply list_elem_of_fmap. exists y. split; [|done].
    simpl in Hxy. apply Hinj; [left|by right|done].
  - apply IH; [done|]. intros y z Hy Hz. apply Hinj; by right.
Qed.

Lemma roundtrip_counter (c : Counter) :
  NoDup (dict_keys c) ->
  forallb (fun tv => not_sentinel tv.1) c = true ->
  counterify (NDict (dict_of_items ((fun dv => (dehydrate_key dv.1, dv.2)) <$> c)))
  = c.
Proof.
  intros Hnd Hns. fold (encode_mapping c). rewrite counterify_encode_mapping.
  rewrite <- (dict_of_items_id c) at 2 by done. f_equal.
  rewrite <- (list_fmap_id c) at 2. apply list_fmap_ext. intros i [t n] Hin.
  rewrite forallb_forall in Hns.
  apply list_elem_of_lookup_2, list_elem_of_In, Hns in Hin. simpl in *.
  by rewrite normal_token_id.
Qed.

Lemma roundtrip_dataset (ds : dataset_t) :
  dataset_wf ds ->
  forallb (fun sd => not_sentinel sd.1
                     && forallb (fun tv => not_sentinel tv.1) sd.2) ds = true ->
  dict_of_items
    ((fun sd => (hydrate_key sd.1, counterify sd.2))
       <$> dict_of_items
             ((fun sd =>
                 (dehydrate_key sd.1,
                  NDict (dict_of_items
                           ((fun dv => (dehydrate_key dv.1, dv.2)) <$> sd.2))))
                <$> ds))
  = ds.
Proof.
  intros [Hnd Hall] Hns. rewrite forallb_forall in Hns.
  assert (Hin : forall sd, sd ∈ ds ->
            not_sentinel sd.1 = true /\
            forallb (fun tv => not_sentinel tv.1) sd.2 = true /\
            NoDup (dict_keys sd.2)).
  { intros sd Hsd. rewrite Forall_forall in Hall.
    pose proof (Hns sd (proj1 (list_elem_of_In _ _) Hsd)) as [? ?]%andb_true_iff.
    auto. }
  rewrite (dict_of_items_fmap_NoDup _ ds); [|done|].
  2:{ intros x y Hx Hy. simpl. apply dehydrate_key_inj; by apply Hin. }
  rewrite <- list_fmap_compose.
  rewrite <- (dict_of_items_id ds) at 2 by done. f_equal.
  rewrite <- (list_fmap_id ds) at 2. apply list_fmap_ext. intros i [k c] Hkc.
  apply list_elem_of_lookup_2, Hin in Hkc as (Hk & Hc & Hcn). simpl in *.
  by rewrite hydrate_dehydrate_key, normal_token_id, roundtrip_counter.
Qed.

Lemma roundtrip_data (d : data_t) :
  data_wf d -> data_no_sentinel d = true ->
  hydrate_nodes (dehydrate_nodes (Some d)) = Some d.
Proof.
  intros [Hnd Hall] Hns. rewrite dehydrate_nodes_Some, hydrate_nodes_Some.
  f_equal. unfold data_no_sentinel in Hns. rewrite forallb_forall in Hns.
  rewrite (dict_of_items_fmap_NoDup _ d); [|done|by intros x y].
  rewrite <- list_fmap_compose.
  rewrite <- (list_fmap_id d) at 2. apply list_fmap_ext. intros i [name ds] Hin.
  apply list_elem_of_lookup_2 in Hin. simpl. f_equal.
  apply roundtrip_dataset.
  - rewrite Forall_forall in Hall. by apply (Hall (name, ds)).
  - by apply (Hns (name, ds)), list_elem_of_In.
Qed.

(** Reading back what was saved gives the store again, when the store is
    made of dicts, has no sentinel string among its keys and tokens, and has
    backward data whenever its settings ask for it. *)
Lemma load_do_save (self : JsonStorage) :
  store_all data_wf self ->
  no_sentinel self = true ->
  (backward self = None -> wants_backward (settings self) = false) ->
  load (do_save self) = self.
Proof.
  intros [Hwn Hwb] [Hnn Hnb]%andb_true_iff Hset.
  destruct self as [n b s]. unfold load, do_save, init.
  cbn [nodes backward settings doc_nodes doc_backward doc_settings] in *.
  rewrite roundtrip_data by done. f_equal.
  destruct b as [b|].
  - by rewrite roundtrip_data by auto.
  - simpl. by rewrite Hset.
Qed.

Lemma counter_eqb_refl (c : Counter) : NoDup (dict_keys c) -> counter_eqb c c = true.
Proof.
  intros _. unfold counter_eqb. apply forallb_forall. intros t _.
  apply Z.eqb_refl.
Qed.

Lemma dataset_eqb_refl (ds : dataset_t) : dataset_wf ds -> dataset_eqb ds ds = true.
Proof.
  intros [Hnd Hall]. apply dict_eqb_refl; [done|]. intros k c Hin.
  rewrite Forall_forall in Hall. by apply counter_eqb_refl, (Hall (k, c)).
Qed.

Lemma data_eqb_refl (d : data_t) : data_wf d -> data_eqb d d = true.
Proof.
  intros [Hnd Hall]. apply dict_eqb_refl; [done|]. intros k ds Hin.
  rewrite Forall_forall in Hall. by apply dataset_eqb_refl, (Hall (k, ds)).
Qed.

Lemma JsonStorage_eq_refl (self : JsonStorage) :
  store_all data_wf self -> JsonStorage_eq self self = true.
Proof.
  intros [Hwn Hwb]. unfold JsonStorage_eq.
  rewrite data_eqb_refl, bool_decide_eq_true_2 by done.
  destruct (backward self) as [b|]; [|done]. by rewrite data_eqb_refl by auto.
Qed.

(** Ingestion changes neither the settings nor whether the store has
    backward data. *)
Lemma filled_settings (sep : string) (calls : list (list item * string))
    (start : JsonStorage) :
  let self := add_links_calls sep calls start in
  settings self = settings start /\
  (backward self = None <-> backward start = None).
Proof.
  set (P := fun self : JsonStorage =>
              settings self = settings start /\
              (backward self = None <-> backward start = None)).
  apply (add_links_calls_preserves sep P); [|done].
  apply (add_links_preserves sep P), (add_links_body_preserves sep P); unfold P.
  - intros key self [Hs Hb]. rewrite get_dataset_create. simpl.
    split; [done|]. rewrite <- Hb. by destruct (backward self).
  - intros name source target self [Hs Hb]. rewrite add_link_backward_store.
    simpl. split; [done|]. rewrite <- Hb. by destruct (backward self).
  - intros name source target self [Hs Hb]. by rewrite add_link_forward_store.
Qed.

(** C2, as amended: a store that was made empty, with any settings and with
    or without the [backward] argument, and filled by [add_links] calls
    only, and in which no token and no state key is the sentinel string, is
    read back from what [do_save] writes as the same store: the same forward
    data, backward data and settings, which [__eq__] finds equal; unless
    the store was made with [backward=False] against settings that ask for
    backward data. *)
Theorem load_save_round_trip
    (sep : string) (enable : option bool) (settings : settings_t)
    (calls : list (list item * string)) :
  let self := add_links_calls sep calls (new_store enable settings) in
  (enable = Some false -> wants_backward settings = false) ->
  no_sentinel self = true ->
  load (do_save self) = self /\
  JsonStorage_eq (load (do_save self)) self = true.
Proof.
  intros self Hen Hns.
  pose proof (filled_wf sep enable settings calls) as Hwf. fold self in Hwf.
  assert (Hload : load (do_save self) = self).
  { apply load_do_save; [done..|].
    destruct (filled_settings sep calls (new_store enable settings)) as [Hs Hb].
    fold self in Hs, Hb. rewrite Hs, Hb. simpl.
    destruct enable as [[]|]; [done|by auto|].
    by destruct (wants_backward settings). }
  split; [done|]. rewrite Hload. by apply JsonStorage_eq_refl.
Qed.

Lemma load_save_round_trip_witness :
  let self := add_links_calls U0001 [(scenario_links, "")]
                (new_store None
                   (Some {[ "storage" := {[ "backward" := VBool true ]} ]})) in
  is_Some (backward self) /\
  load (do_save self) = self /\
  JsonStorage_eq (load (do_save self)) self = true.
Proof.
  split; [by eexists|].
  apply (load_save_round_trip U0001 None
           (Some {[ "storage" := {[ "backward" := VBool true ]} ]})
           [(scenario_links, "")]).
  - discriminate.
  - vm_compute. reflexivity.
Defined.

(** C2 as stated does not hold: the store that is made with
    [backward=False] and with settings that ask for backward data, and that
    is filled with the two links of the scenario, none of which has the
    sentinel string, has no backward data; the settings decide again when
    the store is read back, so that it comes back with empty backward data
    and is not equal to the store that was saved. *)
Lemma load_save_fails_backward_disabled :
  let self := add_links_calls U0001 [(scenario_links, "")]
                (new_store (Some false)
                   (Some {[ "storage" := {[ "backward" := VBool true ]} ]})) in
  no_sentinel self = true /\
  backward self = None /\
  backward (load (do_save self)) = Some [] /\
  nodes (load (do_save self)) = nodes self /\
  settings (load (do_save self)) = settings self /\
  JsonStorage_eq (load (do_save self)) self = false.
Proof. split_and!; by vm_compute. Qed.

(** ** Forward and backward links *)

(** *** The counts after the steps of ingestion *)

Lemma counts_get_dataset (key : string) (self : JsonStorage)
    (name' : string) (key' t' : token) :
  forward_count (get_dataset key true self).1 name' key' t'
  = forward_count self name' key' t' /\
  backward_count (get_dataset key true self).1 name' key' t'
  = backward_count self name' key' t'.
Proof.
  rewrite get_dataset_create. unfold forward_count, backward_count. simpl.
  split; [apply data_count_created|].
  destruct (backward self); simpl; [apply data_count_created|done].
Qed.

Lemma counts_add_link_forward (name source : string) (target : pyobj)
    (self : JsonStorage) (name' : string) (key' t' : token) :
  (forall l, target <> PList l) ->
  forward_count (add_link_forward name source target self).1 name' key' t'
  = (if decide (name' = name /\ key' = Some source /\ t' = target_token target)
     then Some (default 0 (forward_count self name (Some source)
                             (target_token target)) + 1)
     else forward_count self name' key' t') /\
  backward_count (add_link_forward name source target self).1 name' key' t'
  = backward_count self name' key' t'.
Proof.
  intros Hh. rewrite add_link_forward_store. unfold forward_count, backward_count.
  simpl. split; [by apply data_count_linked|done].
Qed.

Lemma counts_add_link_backward (name source : string) (target : pyobj)
    (self : JsonStorage) (name' : string) (key' t' : token) :
  (forall l, target <> PList l) ->
  is_Some (backward self) ->
  forward_count (add_link_backward name source target self).1 name' key' t'
  = forward_count self name' key' t' /\
  backward_count (add_link_backward name source target self).1 name' key' t'
  = (if decide (name' = name /\ key' = Some source /\ t' = target_token target)
     then Some (default 0 (backward_count self name (Some source)
                             (target_token target)) + 1)
     else backward_count self name' key' t').
Proof.
  intros Hh [b Hb]. rewrite add_link_backward_store.
  unfold forward_count, backward_count. rewrite Hb. simpl.
  split; [done|by apply data_count_linked].
Qed.

Lemma add_link_backward_ok (name source : string) (target : pyobj)
    (self : JsonStorage) :
  (forall l, target <> PList l) ->
  (add_link_backward name source target self).2 = Ok tt.
Proof.
  intros Hh. unfold add_link_backward. destruct (backward self); [|done].
  by rewrite add_link_hashable.
Qed.

(** The body of the loop on a tuple of three whose first component is a
    string, step by step. *)
Lemma add_links_body_triple (sep dataset_prefix dataset : string)
    (src dst : pyobj) (self : JsonStorage) :
  add_links_body sep dataset_prefix [PStr dataset; src; dst] self
  = let name := dataset_prefix +:+ dataset in
    let s1 := (get_dataset name true self).1 in
    match backward self, dst with
    | Some _, PStr t =>
        match iterate src with
        | Raise e => (s1, Raise e)
        | Ok [] => (s1, Raise StopIteration)
        | Ok (x :: r) =>
            add_link_forward name (join_state sep (x :: r)) dst
              (add_link_backward name (join_state sep (r ++ [t])) (PStr x) s1).1
        end
    | Some _, PList _ =>
        match iterate src with
        | Raise e => (s1, Raise e)
        | Ok [] => (s1, Raise StopIteration)
        | Ok (_ :: _) => (s1, Raise TypeError)
        end
    | _, _ =>
        match iterate src with
        | Raise e => (s1, Raise e)
        | Ok ctx => add_link_forward name (join_state sep ctx) dst s1
        end
    end.
Proof.
  unfold add_links_body, bind. rewrite get_dataset_create. cbv zeta.
  cbn [fst]. destruct (backward self) as [b|]; cbn [fmap option_fmap option_map].
  - destruct dst as [|t|l].
    + unfold lift. by destruct (iterate src).
    + unfold lift at 1. destruct (iterate src) as [[|x r]|e]; [done| |done].
      unfold lift.
      pose proof (add_link_backward_ok (dataset_prefix +:+ dataset)
                    (join_state sep (r ++ [t])) (PStr x)) as Hok.
      match goal with
      | |- context [add_link_backward ?n ?k ?tg ?s] =>
          specialize (Hok s); destruct (add_link_backward n k tg s) as [s2 res]
      end.
      simpl in Hok. by rewrite Hok.
    + unfold lift at 1. by destruct (iterate src) as [[|x r]|e].
  - unfold lift. by destruct (iterate src), dst.
Qed.

(** What the body of the loop does to the counts of a store with backward
    data: either it leaves alone the backward counts and the forward counts
    of the tokens that are strings, or it counts one link forward and its
    reverse backward. *)
Lemma add_links_body_counts (sep dataset_prefix : string) (it : item)
    (self : JsonStorage) :
  is_Some (backward self) ->
  let self' := (add_links_body sep dataset_prefix it self).1 in
  ((forall name' key' t',
       forward_count self' name' key' (Some t')
       = forward_count self name' key' (Some t')) /\
   (forall name' key' t',
       backward_count self' name' key' t' = backward_count self name' key' t'))
  \/
  (exists dataset src x r t,
      it = [PStr dataset; src; PStr t] /\ iterate src = Ok (x :: r) /\
      let name := dataset_prefix +:+ dataset in
      (forall name' key' t',
          forward_count self' name' key' t'
          = if decide (name' = name /\ key' = Some (join_state sep (x :: r))
                       /\ t' = Some t)
            then Some (default 0 (forward_count self name
                                    (Some (join_state sep (x :: r))) (Some t)) + 1)
            else forward_count self name' key' t') /\
      (forall name' key' t',
          backward_count self' name' key' t'
          = if decide (name' = name /\ key' = Some (join_state sep (r ++ [t]))
                       /\ t' = Some x)
            then Some (default 0 (backward_count self name
                                    (Some (join_state sep (r ++ [t]))) (Some x)) + 1)
            else backward_count self name' key' t')).
Proof.
  intros Hbw self'. subst self'.
  destruct it as [|o1 [|o2 [|o3 [|? ?]]]]; try (by left).
  destruct o1 as [|dataset|]; try (by left).
  rewrite add_links_body_triple. cbv zeta.
  set (name := dataset_prefix +:+ dataset).
  pose proof (counts_get_dataset name self) as Hcr.
  assert (Hbw1 : is_Some (backward (get_dataset name true self).1)).
  { rewrite get_dataset_create. destruct Hbw as [b Hb]. simpl. rewrite Hb.
    by eexists. }
  set (s1 := (get_dataset name true self).1) in *.
  assert (Hsame : forall r : result unit,
    (forall name' key' t',
        forward_count (s1, r).1 name' key' (Some t')
        = forward_count self name' key' (Some t')) /\
    (forall name' key' t',
        backward_count (s1, r).1 name' key' t' = backward_count self name' key' t')).
  { intros r. split; intros; apply Hcr. }
  destruct Hbw as [b Hb]. rewrite Hb.
  destruct o3 as [|t|l].
  - (* the null token: a forward link only *)
    left. destruct (iterate o2) as [src|e]; [|apply Hsame].
    split; intros name' key' t'.
    + destruct (counts_add_link_forward name (join_state sep src) PNone s1
                  name' key' (Some t')) as [-> _]; [done|].
      rewrite decide_False by naive_solver. apply Hcr.
    + destruct (counts_add_link_forward name (join_state sep src) PNone s1
                  name' key' t') as [_ ->]; [done|]. apply Hcr.
  - destruct (iterate o2) as [[|x r]|e] eqn:Hit; [left; apply Hsame| |left; apply Hsame].
    right. exists dataset, o2, x, r, t. split_and!; [done..| |].
    + intros name' key' t'.
      destruct (counts_add_link_forward name (join_state sep (x :: r)) (PStr t)
                  (add_link_backward name (join_state sep (r ++ [t])) (PStr x) s1).1
                  name' key' t') as [-> _]; [done|].
      assert (Hf2 : forall n k t0,
                forward_count
                  (add_link_backward name (join_state sep (r ++ [t])) (PStr x) s1).1
                  n k t0
                = forward_count self n k t0).
      { intros n k t0.
        destruct (counts_add_link_backward name (join_state sep (r ++ [t]))
                    (PStr x) s1 n k t0) as [-> _]; [done..|]. apply Hcr. }
      by rewrite !Hf2.
    + intros name' key' t'.
      destruct (counts_add_link_forward name (join_state sep (x :: r)) (PStr t)
                  (add_link_backward name (join_state sep (r ++ [t])) (PStr x) s1).1
                  name' key' t') as [_ ->]; [done|].
      destruct (counts_add_link_backward name (join_state sep (r ++ [t]))
                  (PStr x) s1 name' key' t') as [_ ->]; [done..|].
      destruct (Hcr name' key' t') as [_ ->]. cbn [target_token].
      by destruct (Hcr name (Some (join_state sep (r ++ [t]))) (Some x)) as [_ ->].
  - left. destruct (iterate o2) as [[|x r]|e]; apply Hsame.
Qed.

(** *** Keys with a separator that has no border *)

Lemma append_cons (a : ascii) (y z : string) : String a y +:+ z = String a (y +:+ z).
Proof. reflexivity. Qed.

Lemma append_nil (z : string) : EmptyString +:+ z = z.
Proof. reflexivity. Qed.

Lemma str_append_empty_r (a : string) : a +:+ EmptyString = a.
Proof. induction a as [|x a IH]; [done|]. by rewrite append_cons, IH. Qed.

Lemma str_append_length (a b : string) :
  String.length (a +:+ b) = (String.length a + String.length b)%nat.
Proof.
  induction a as [|x a IH]; [done|].
  rewrite append_cons. cbn [String.length]. by rewrite IH.
Qed.

(** Two ways to split one string: one of the first parts is a prefix of the
    other. *)
Lemma append_eq_append (x x' a b : string) :
  x +:+ a = x' +:+ b ->
  (exists d, x' = x +:+ d /\ a = d +:+ b) \/
  (exists d, x = x' +:+ d /\ b = d +:+ a).
Proof.
  revert x'. induction x as [|c y IH]; intros x' Heq.
  - left. by exists x'.
  - destruct x' as [|c' y'].
    + right. by exists (String c y).
    + rewrite !append_cons in Heq. injection Heq as -> Heq.
      destruct (IH y' Heq) as [(d & -> & ->)|(d & -> & ->)];
        [left|right]; by exists d.
Qed.

Lemma proper_suffixes_elem (d e : string) :
  d <> EmptyString -> e ∈ proper_suffixes (d +:+ e).
Proof.
  induction d as [|a d IH]; [done|]. intros _.
  rewrite append_cons. cbn [proper_suffixes].
  destruct d as [|b d]; [left|right; by apply IH].
Qed.

Section no_border.
Variable sep : string.
Hypothesis Hsep : has_border sep = false.

(** A suffix of the separator that is also a prefix of it is the separator
    or is empty. *)
Lemma border_empty (d e f : string) :
  sep = d +:+ e -> sep = e +:+ f -> d <> EmptyString -> e = EmptyString.
Proof.
  intros Hd Hf Hne. unfold has_border in Hsep.
  assert (Hin : In e (proper_suffixes sep)).
  { apply list_elem_of_In. rewrite Hd at 1. by apply proper_suffixes_elem. }
  assert (Hpre : startswith e sep = true) by (apply startswith_spec; by exists f).
  destruct (String.eqb_spec e "") as [->|Hn]; [done|].
  assert (Hex : existsb (fun e => negb (String.eqb e "") && startswith e sep)
                  (proper_suffixes sep) = true); [|congruence].
  apply existsb_exists. exists e. split; [done|].
  rewrite Hpre, andb_true_r. apply negb_true_iff. by apply String.eqb_neq.
Qed.

Lemma append_sep_not_free (x r : string) : sep_free sep (x +:+ sep +:+ r) = false.
Proof.
  unfold sep_free. apply negb_false_iff, contains_spec. by exists x, r.
Qed.

(** When one separator-free string continues another and a separator
    follows each, the two strings end together. *)
Lemma split_prefix (x d r r' : string) :
  sep_free sep (x +:+ d) = true ->
  sep +:+ r = d +:+ sep +:+ r' ->
  d = EmptyString.
Proof.
  intros Hfree Heq.
  destruct (append_eq_append _ _ _ _ Heq) as [(e & -> & _)|(e & Hde & Her)].
  { by rewrite append_sep_not_free in Hfree. }
  destruct (append_eq_append _ _ _ _ Her) as [(f & -> & _)|(f & Hef & _)].
  - apply (f_equal String.length) in Hde. rewrite !str_append_length in Hde.
    destruct d; [done|]. cbn [String.length] in Hde. lia.
  - destruct d as [|a d]; [done|].
    assert (He : e = EmptyString) by by apply (border_empty _ _ _ Hde Hef).
    subst e. rewrite str_append_empty_r in Hde. rewrite <- Hde in Hfree.
    pose proof (append_sep_not_free x EmptyString) as Hfalse.
    rewrite str_append_empty_r in Hfalse. congruence.
Qed.

(** A string that is free of the separator ends where the separator first
    occurs. *)
Lemma split_unique (x x' r r' : string) :
  sep_free sep x = true -> sep_free sep x' = true ->
  x +:+ sep +:+ r = x' +:+ sep +:+ r' -> x = x' /\ r = r'.
Proof.
  intros Hx Hx' Heq.
  assert (Hd : exists d, d = EmptyString /\
                 (x' = x +:+ d /\ sep +:+ r = d +:+ sep +:+ r' \/
                  x = x' +:+ d /\ sep +:+ r' = d +:+ sep +:+ r)).
  { destruct (append_eq_append _ _ _ _ Heq) as [(d & Hxd & Hr)|(d & Hxd & Hr)];
      exists d; (split; [|by auto]).
    - apply (split_prefix x d r r'); [by rewrite <- Hxd|done].
    - apply (split_prefix x' d r' r); [by rewrite <- Hxd|done]. }
  destruct Hd as (d & -> & [[-> Hr]|[-> Hr]]); rewrite append_nil in Hr.
  - apply (inj (String.app sep)) in Hr. by rewrite str_append_empty_r.
  - apply (inj (String.app sep)) in Hr. by rewrite str_append_empty_r.
Qed.

Lemma join_state_cons2 (x y : string) (r : list string) :
  join_state sep (x :: y :: r) = x +:+ sep +:+ join_state sep (y :: r).
Proof. reflexivity. Qed.

(** Contexts of separator-free tokens have different keys. *)
Lemma join_state_inj_cons (x x' : string) (r r' : list string) :
  sep_free_all sep (x :: r) -> sep_free_all sep (x' :: r') ->
  join_state sep (x :: r) = join_state sep (x' :: r') -> x :: r = x' :: r'.
Proof.
  revert x x' r'. induction r as [|y r IH]; intros x x' [|y' r'] Hl Hl' Heq.
  - by simplify_eq/=.
  - rewrite join_state_cons2 in Heq.
    change (x = x' +:+ sep +:+ join_state sep (y' :: r')) in Heq.
    apply Forall_cons in Hl as [Hx _]. by rewrite Heq, append_sep_not_free in Hx.
  - rewrite join_state_cons2 in Heq.
    change (x +:+ sep +:+ join_state sep (y :: r) = x') in Heq.
    apply Forall_cons in Hl' as [Hx' _].
    by rewrite <- Heq, append_sep_not_free in Hx'.
  - rewrite !join_state_cons2 in Heq.
    apply Forall_cons in Hl as [Hx Hl]. apply Forall_cons in Hl' as [Hx' Hl'].
    apply split_unique in Heq as [-> Heq]; [|done..].
    f_equal. by apply IH.
Qed.

Lemma join_state_inj (l l' : list string) :
  l <> [] -> l' <> [] ->
  sep_free_all sep l -> sep_free_all sep l' ->
  join_state sep l = join_state sep l' -> l = l'.
Proof.
  destruct l as [|x r], l' as [|x' r']; try done. intros _ _.
  apply join_state_inj_cons.
Qed.

(** A link and its reverse are told apart by their keys in the same way. *)
Lemma mirrored_address (x x' tgt tgt' : string) (r r' : list string) :
  sep_free_all sep (x :: r ++ [tgt]) ->
  sep_free_all sep (x' :: r' ++ [tgt']) ->
  (Some (join_state sep (x' :: r')) = Some (join_state sep (x :: r)) /\
   Some tgt' = Some tgt)
  <-> (Some (join_state sep (r' ++ [tgt'])) = Some (join_state sep (r ++ [tgt])) /\
       Some x' = Some x).
Proof.
  unfold sep_free_all. rewrite !Forall_cons, !Forall_app, !Forall_singleton.
  intros (Hx & Hr & Ht) (Hx' & Hr' & Ht'). split.
  - intros [[= Hk] [= ->]]. apply join_state_inj_cons in Hk.
    + by simplify_eq.
    + by apply Forall_cons.
    + by apply Forall_cons.
  - intros [[= Hk] [= ->]]. apply join_state_inj in Hk.
    + by apply app_inj_tail in Hk as [-> ->].
    + by destruct r'.
    + by destruct r.
    + apply Forall_app. by rewrite Forall_singleton.
    + apply Forall_app. by rewrite Forall_singleton.
Qed.
End no_border.

(** *** The invariant *)

Lemma clean_item_triple (sep dataset t : string) (src : pyobj) (x : string)
    (r : list string) :
  clean_item sep [PStr dataset; src; PStr t] = true ->
  iterate src = Ok (x :: r) ->
  sep_free_all sep (x :: r ++ [t]).
Proof.
  unfold clean_item. intros [Hsrc Ht]%andb_true_iff Hit. rewrite Hit in Hsrc.
  rewrite forallb_forall in Hsrc. unfold sep_free_all.
  rewrite app_comm_cons, Forall_app, Forall_singleton. split; [|done].
  apply Forall_forall. intros s Hs. by apply Hsrc, list_elem_of_In.
Qed.

Lemma links_mirrored_body (sep dataset_prefix : string) (it : item)
    (self : JsonStorage) :
  has_border sep = false ->
  is_Some (backward self) ->
  clean_item sep it = true ->
  links_mirrored sep self ->
  links_mirrored sep (add_links_body sep dataset_prefix it self).1.
Proof.
  intros Hsep Hbw Hclean (HF & HB & HE).
  destruct (add_links_body_counts sep dataset_prefix it self Hbw)
    as [[Hf Hb]|(dataset & src & x & r & t & -> & Hit & Hf & Hb)].
  - split_and!.
    + intros name key t n. rewrite Hf. apply HF.
    + intros name key t n. rewrite Hb. apply HB.
    + intros name x r tgt Hfree. rewrite Hf, Hb. by apply HE.
  - pose proof (clean_item_triple sep dataset t src x r Hclean Hit) as Hfree.
    split_and!.
    + intros name key t' n. rewrite Hf. case_decide as Hd; [|apply HF].
      destruct Hd as (-> & -> & [= ->]). intros _. by exists x, r.
    + intros name key t' n. rewrite Hb. case_decide as Hd; [|apply HB].
      destruct Hd as (-> & -> & ->). intros _. by exists x, r, t.
    + intros name x' r' tgt' Hfree'. rewrite Hf, Hb.
      pose proof (mirrored_address sep Hsep x x' t tgt' r r' Hfree Hfree')
        as Haddr.
      destruct (decide (name = dataset_prefix +:+ dataset)) as [->|Hname].
      2:{ rewrite !decide_False by (intros [? _]; contradiction). by apply HE. }
      destruct (decide (Some (join_state sep (x' :: r')) = Some (join_state sep (x :: r))
                        /\ Some tgt' = Some t)) as [Hsame|Hdiff].
      * rewrite !decide_True by (split; [reflexivity|tauto]).
        f_equal. f_equal. f_equal. by apply HE.
      * rewrite !decide_False by tauto. by apply HE.
Qed.

Lemma links_mirrored_add_links (sep : string) (links : list item)
    (dataset_prefix : string) (self : JsonStorage) :
  has_border sep = false ->
  forallb (clean_item sep) links = true ->
  is_Some (backward self) /\ links_mirrored sep self ->
  is_Some (backward (add_links sep links dataset_prefix self).1) /\
  links_mirrored sep (add_links sep links dataset_prefix self).1.
Proof.
  intros Hsep. revert self. induction links as [|it links IH]; [done|].
  intros self [Hit Hlinks]%andb_true_iff [Hbw Hinv]. simpl. unfold bind.
  assert (H1 : is_Some (backward (add_links_body sep dataset_prefix it self).1) /\
               links_mirrored sep (add_links_body sep dataset_prefix it self).1).
  { split; [|by apply links_mirrored_body].
    destruct (filled_settings sep [([it], dataset_prefix)] self) as [_ Hb].
    unfold add_links_calls in Hb. simpl in Hb. unfold bind in Hb.
    destruct (add_links_body sep dataset_prefix it self) as [s1 [[]|e]];
      simpl in *; apply not_eq_None_Some; rewrite Hb;
      by apply not_eq_None_Some. }
  destruct (add_links_body sep dataset_prefix it self) as [s1 [[]|e]]; [|done].
  by apply IH.
Qed.

Lemma links_mirrored_new (sep : string) (enable : option bool)
    (settings : settings_t) :
  links_mirrored sep (new_store enable settings).
Proof.
  assert (Hf : forall name key t,
             forward_count (new_store enable settings) name key t = None) by done.
  assert (Hb : forall name key t,
             backward_count (new_store enable settings) name key t = None).
  { intros. unfold backward_count.
    by destruct (backward (new_store enable settings)) as [b|] eqn:Hb;
      [apply (new_store_all (fun d => d = []) enable settings eq_refl) in Hb
       as ->|]. }
  split_and!; intros *; rewrite ?Hf, ?Hb; done.
Qed.

(** C3, as amended: with a separator that has no border (no non-empty
    proper suffix of it is also a prefix of it, as with every separator of
    one character), on a store that was made with backward data and filled
    by [add_links] calls whose context tokens and targets do not contain the
    separator, every forward count of a token [t] that is a string sits at
    the key of a context [x :: r] of which no token contains the separator,
    nor does [t], and the backward count at the key of [r ++ [t]] under [x]
    is the same; every backward count sits at such a reverse key under such
    a token [x], with the same forward count at the key of [x :: r] under
    the target; and for every context [x :: r] and target of tokens that do
    not contain the separator, which the keys determine, the forward count
    and the backward count of the link are the same, or both are not
    there. *)
Theorem backward_mirrors_forward
    (sep : string) (enable : option bool) (settings : settings_t)
    (calls : list (list item * string)) :
  let self := add_links_calls sep calls (new_store enable settings) in
  has_border sep = false ->
  is_Some (backward (new_store enable settings)) ->
  forallb (fun call => forallb (clean_item sep) call.1) calls = true ->
  (forall (name : string) (key : token) (t : string) (n : Z),
      forward_count self name key (Some t) = Some n ->
      exists (x : string) (r : list string),
        key = Some (join_state sep (x :: r)) /\
        sep_free_all sep (x :: r ++ [t]) /\
        backward_count self name (Some (join_state sep (r ++ [t]))) (Some x)
        = Some n) /\
  (forall (name : string) (key t : token) (n : Z),
      backward_count self name key t = Some n ->
      exists (x : string) (r : list string) (tgt : string),
        key = Some (join_state sep (r ++ [tgt])) /\ t = Some x /\
        sep_free_all sep (x :: r ++ [tgt]) /\
        forward_count self name (Some (join_state sep (x :: r))) (Some tgt)
        = Some n) /\
  (forall (name x : string) (r : list string) (tgt : string),
      sep_free_all sep (x :: r ++ [tgt]) ->
      (forall x' r',
          sep_free_all sep (x' :: r') ->
          join_state sep (x' :: r') = join_state sep (x :: r) ->
          x' :: r' = x :: r) /\
      forward_count self name (Some (join_state sep (x :: r))) (Some tgt)
      = backward_count self name (Some (join_state sep (r ++ [tgt]))) (Some x)).
Proof.
  intros self Hsep Hbw Hclean.
  assert (Hinv : is_Some (backward self) /\ links_mirrored sep self).
  { subst self. unfold add_links_calls.
    assert (Hstart : is_Some (backward (new_store enable settings)) /\
                     links_mirrored sep (new_store enable settings))
      by (split; [done|apply links_mirrored_new]).
    revert Hstart. generalize (new_store enable settings).
    induction calls as [|[links pre] calls IH]; [done|].
    apply andb_true_iff in Hclean as [Hl Hcalls]. intros start Hstart. simpl.
    apply IH; [done|]. by apply links_mirrored_add_links. }
  destruct Hinv as (_ & HF & HB & HE). split_and!.
  - intros name key t n Hn. destruct (HF name key t n Hn) as (x & r & -> & Hfree).
    exists x, r. split_and!; [done..|]. by rewrite <- HE.
  - intros name key t n Hn.
    destruct (HB name key t n Hn) as (x & r & tgt & -> & -> & Hfree).
    exists x, r, tgt. split_and!; [done..|]. by rewrite HE.
  - intros name x r tgt Hfree. split; [|by apply HE].
    intros x' r' Hfree' Hjoin. apply (join_state_inj_cons sep Hsep); [done| |done].
    unfold sep_free_all in *. rewrite app_comm_cons, Forall_app in Hfree.
    by destruct Hfree.
Qed.

Lemma backward_mirrors_forward_witness :
  let self := add_links_calls U0001 [(scenario_links, "")]
                (new_store (Some true) None) in
  (exists (x : string) (r : list string),
      Some (join_state U0001 [""; "the"]) = Some (join_state U0001 (x :: r)) /\
      sep_free_all U0001 (x :: r ++ ["cat"]) /\
      backward_count self "body" (Some (join_state U0001 (r ++ ["cat"]))) (Some x)
      = Some 1) /\
  forward_count self "body" (Some (join_state U0001 [""; "the"])) (Some "cat")
  = backward_count self "body" (Some (join_state U0001 ["the"; "cat"])) (Some "").
Proof.
  destruct (backward_mirrors_forward U0001 (Some true) None
              [(scenario_links, "")]) as (HF & _ & HE);
    [reflexivity|by eexists|reflexivity|].
  split.
  - apply (HF "body" (Some (join_state U0001 [""; "the"])) "cat" 1). reflexivity.
  - apply (HE "body" "" ["the"] "cat"). repeat constructor.
Defined.

(** C3 as stated does not hold: with the separator ["aa"], which has a
    border and which no token of the two links contains, the store with
    backward data has a forward count of 2, for the target ["x"] at the key
    that both contexts share, and no backward count of 2 in that dataset. *)
Lemma backward_mirror_fails_long_separator :
  forallb (clean_item "aa") overlap_links = true /\
  is_Some (backward overlap_store) /\
  forward_count overlap_store "d" (Some "aaa") (Some "x") = Some 2 /\
  forall key t, backward_count overlap_store "d" key t <> Some 2.
Proof.
  split_and!; [reflexivity|by eexists|reflexivity|].
  intros key t.
  assert (Hb : backward overlap_store
               = Some [("d", [(Some "aaax", [(Some "", 1)]);
                              (Some "aax", [(Some "a", 1)])])])
    by (by vm_compute).
  unfold backward_count, data_count. rewrite Hb. simpl.
  repeat (case_decide; simpl); done.
Qed.

(** * Further properties of the module *)

(** ** The wire codec *)

Lemma dehydrate_hydrate_key (key : string) : dehydrate_key (hydrate_key key) = key.
Proof. unfold hydrate_key. by case_decide; subst. Qed.

(** X1: what is read from the wire is written back as it was, for every
    key; what is written is read back as it was exactly when it is not the
    sentinel string, which is read as the null token. *)
Theorem key_round_trips :
  (forall key : string, dehydrate_key (hydrate_key key) = key) /\
  (forall key : token,
      hydrate_key (dehydrate_key key) = key <-> key <> Some NONE_VALUE) /\
  hydrate_key (dehydrate_key (Some NONE_VALUE)) = None.
Proof.
  split_and!; [| |done].
  - apply dehydrate_hydrate_key.
  - intros key. rewrite hydrate_dehydrate_key. unfold normal_token.
    case_decide; subst; naive_solver.
Qed.

(** X2: when the parallel arrays name a token more than once, its counts
    are not added up: the count that comes last in the arrays is the one the
    [Counter] has. *)
Theorem counterify_arrays_last_wins
    (values : list Z) (keys : list string) (value : Z) (key : string) :
  length values = length keys ->
  dict_get (hydrate_key key)
    (counterify (NLists (values ++ [value]) (keys ++ [key])))
  = Some value.
Proof.
  intros Hlen. unfold counterify. cbn [node_list_falsy].
  rewrite (zip_with_app pair values [value] keys [key] Hlen), fmap_app.
  cbn [zip_with fmap list_fmap fst snd].
  rewrite dict_of_items_snoc. apply dict_get_set_eq.
Qed.

Lemma counterify_arrays_last_wins_witness :
  dict_get (Some "a") (counterify (NLists [1; 2] ["a"; "a"])) = Some 2.
Proof. apply (counterify_arrays_last_wins [1] ["a"] 2 "a"). reflexivity. Defined.

Lemma zip_take_min {A B : Type} (l : list A) (k : list B) :
  zip l k = zip (take (length l `min` length k) l) (take (length l `min` length k) k).
Proof.
  revert k. induction l as [|x l IH]; intros [|y k]; try done.
  cbn. f_equal. apply IH.
Qed.

(** X3: parallel arrays of different lengths are read up to the length of
    the shorter one; what the longer one has beyond that is dropped. *)
Theorem counterify_arrays_truncated (values : list Z) (keys : list string) :
  let n := (length values `min` length keys)%nat in
  counterify (NLists values keys) = counterify (NLists (take n values) (take n keys)).
Proof. intros n. unfold counterify. cbn [node_list_falsy]. by rewrite zip_take_min. Qed.

Lemma dehydrate_hydrate_counter (d : dict string Z) :
  NoDup d.*1 ->
  dict_of_items ((fun dv => (dehydrate_key dv.1, dv.2)) <$> counterify (NDict d)) = d.
Proof.
  intros Hd. rewrite counterify_NDict.
  rewrite (dict_of_items_fmap_NoDup _ d); [|done|].
  2:{ intros x y _ _. apply hydrate_key_inj. }
  rewrite <- list_fmap_compose.
  assert (Hid : (fun dv : token * Z => (dehydrate_key dv.1, dv.2))
                  ∘ (fun kv : string * Z => (hydrate_key kv.1, kv.2)) <$> d = d).
  { rewrite <- (list_fmap_id d) at 2. apply list_fmap_ext.
    intros ? [? ?] _. unfold compose. cbn [fst snd].
    by rewrite dehydrate_hydrate_key. }
  rewrite Hid. by apply dict_of_items_id.
Qed.

Lemma dehydrate_hydrate_dataset (ds : dict string node_list) :
  NoDup ds.*1 ->
  forallb (fun sd => node_list_mapping sd.2) ds = true ->
  dict_of_items
    ((fun sd : token * Counter =>
        (dehydrate_key sd.1,
         NDict (dict_of_items ((fun dv => (dehydrate_key dv.1, dv.2)) <$> sd.2))))
       <$> dict_of_items
             ((fun sd : string * node_list => (hydrate_key sd.1, counterify sd.2))
                <$> ds))
  = ds.
Proof.
  intros Hkeys Hent. rewrite forallb_forall in Hent.
  rewrite (dict_of_items_fmap_NoDup _ ds); [|done|].
  2:{ intros x y _ _. apply hydrate_key_inj. }
  rewrite <- list_fmap_compose.
  assert (Hid :
    (fun sd : token * Counter =>
       (dehydrate_key sd.1,
        NDict (dict_of_items ((fun dv => (dehydrate_key dv.1, dv.2)) <$> sd.2))))
      ∘ (fun sd : string * node_list => (hydrate_key sd.1, counterify sd.2))
      <$> ds = ds).
  { rewrite <- (list_fmap_id ds) at 2. apply list_fmap_ext.
    intros j [k nl] Hj. unfold compose. cbn [fst snd].
    apply list_elem_of_lookup_2, list_elem_of_In, Hent in Hj. cbn [snd] in Hj.
    destruct nl as [d| |]; [|done..]. apply bool_decide_eq_true in Hj.
    by rewrite dehydrate_hydrate_key, dehydrate_hydrate_counter. }
  rewrite Hid. by apply dict_of_items_id.
Qed.

(** Reading data in the form that [do_save] writes and writing them again
    gives the same data, with or without the sentinel string in them. *)
Lemma dehydrate_hydrate_nodes (w : wire_data) :
  wire_canonical w = true ->
  dehydrate_nodes (hydrate_nodes (Some w)) = Some w.
Proof.
  intros [Hnames Hall]%andb_true_iff. apply bool_decide_eq_true in Hnames.
  rewrite forallb_forall in Hall.
  rewrite hydrate_nodes_Some, dehydrate_nodes_Some. f_equal.
  rewrite <- list_fmap_compose.
  match goal with |- dict_of_items (?f <$> w) = w =>
    assert (Hid : f <$> w = w) end.
  { rewrite <- (list_fmap_id w) at 2. apply list_fmap_ext.
    intros i [name ds] Hin. unfold compose, id. cbn [fst snd]. f_equal.
    apply list_elem_of_lookup_2, list_elem_of_In, Hall in Hin.
    apply andb_true_iff in Hin as [Hkeys Hent].
    apply bool_decide_eq_true in Hkeys. by apply dehydrate_hydrate_dataset. }
  rewrite Hid. by apply dict_of_items_id.
Qed.

(** X4: a document in the form that [do_save] writes (objects throughout,
    backward data present whenever the settings ask for them) is written
    again by [do_save] as it was after [load] has read it, even where its
    keys are the sentinel string. *)
Theorem do_save_load (data : document) :
  document_canonical data = true ->
  do_save (load data) = data.
Proof.
  destruct data as [s [w|] b]; [|done]. unfold document_canonical.
  cbn [doc_nodes doc_backward doc_settings].
  intros [Hw Hb]%andb_true_iff. unfold load, do_save, init.
  cbn [doc_nodes doc_backward doc_settings nodes backward settings].
  pose proof (dehydrate_hydrate_nodes w Hw) as Hn.
  rewrite hydrate_nodes_Some in Hn |- *. rewrite Hn. f_equal.
  destruct b as [b|].
  - pose proof (dehydrate_hydrate_nodes b Hb) as Hb'.
    rewrite hydrate_nodes_Some in Hb' |- *. by rewrite Hb'.
  - cbn. apply negb_true_iff in Hb. by rewrite Hb.
Qed.

Lemma do_save_load_witness :
  let data := {| doc_settings := None;
                 doc_nodes := Some [("body", [(NONE_VALUE, NDict [("a", 1)]);
                                              ("the", NDict [(NONE_VALUE, 2)])])];
                 doc_backward := None |} in
  do_save (load data) = data.
Proof. apply do_save_load. vm_compute. reflexivity. Defined.

(** ** Datasets *)

Lemma created_mem (key : string) (d : data_t) : dict_mem key (created key d) = true.
Proof.
  unfold created. destruct (dict_mem key d) eqn:Hm; [done|].
  unfold dict_mem. by rewrite dict_get_set_eq.
Qed.

Lemma created_idem (key : string) (d : data_t) :
  created key (created key d) = created key d.
Proof. unfold created at 1. by rewrite created_mem. Qed.

Lemma created_get (key name : string) (d : data_t) (ds : dataset_t) :
  dict_get name d = Some ds -> dict_get name (created key d) = Some ds.
Proof.
  intros Hget. unfold created, dict_mem.
  destruct (dict_get key d) eqn:Hk; [done|].
  rewrite dict_get_set_ne; [done|]. intros ->. congruence.
Qed.

(** X5: after [get_dataset] with [create] the dataset exists; asking for it
    again, with or without [create], changes nothing more and returns the
    same pair. *)
Theorem get_dataset_create_idempotent (key : string) (self : JsonStorage) :
  let created_store := (get_dataset key true self).1 in
  let pair := (get_dataset key true self).2 in
  dataset_exists created_store key = true /\
  get_dataset key true created_store = (created_store, pair) /\
  get_dataset key false created_store = (created_store, pair).
Proof.
  intros s1 pair. subst s1 pair. rewrite get_dataset_create. cbn [fst snd].
  set (s1 := {| nodes := created key (nodes self);
                backward := created key <$> backward self;
                settings := settings self |}).
  assert (Hmem : forall d : data_t,
             exists f, dict_get key (created key d) = Some f).
  { intros d. pose proof (created_mem key d) as Hm. unfold dict_mem in Hm.
    destruct (dict_get key (created key d)); [by eexists|done]. }
  split_and!.
  - unfold dataset_exists. cbn [nodes backward s1]. rewrite created_mem.
    destruct (backward self); cbn; [apply created_mem|done].
  - rewrite get_dataset_create. cbn [nodes backward settings s1].
    rewrite created_idem. destruct (backward self) as [b|]; cbn; [|done].
    by rewrite created_idem.
  - rewrite (surjective_pairing (get_dataset key false s1)).
    rewrite get_dataset_lookup_store, get_dataset_lookup.
    cbn [nodes backward settings s1].
    destruct (Hmem (nodes self)) as [f ->].
    destruct (backward self) as [b|]; cbn; [|done].
    by destruct (Hmem b) as [r ->].
Qed.

(** X6: [get_dataset] never drops or alters a dataset that is there, and
    changes neither the settings nor whether the store has backward data;
    without [create] it leaves the whole store as it is. *)
Theorem get_dataset_keeps (key : string) (create : bool) (self : JsonStorage) :
  let after := (get_dataset key create self).1 in
  settings after = settings self /\
  (forall name ds, dict_get name (nodes self) = Some ds ->
                   dict_get name (nodes after) = Some ds) /\
  (forall name ds,
      (backward self ≫= dict_get name) = Some ds ->
      (backward after ≫= dict_get name) = Some ds) /\
  (backward after = None <-> backward self = None) /\
  (create = false -> after = self).
Proof.
  intros after. subst after. destruct create.
  - rewrite get_dataset_create. cbn [fst nodes backward settings].
    split_and!; [done| | | |done].
    + intros name ds. apply created_get.
    + intros name ds. destruct (backward self) as [b|]; cbn; [|done].
      apply created_get.
    + by destruct (backward self).
  - rewrite get_dataset_lookup_store. by split_and!.
Qed.

Lemma get_dataset_keeps_witness :
  dict_get "body" (nodes (get_dataset "head" true scenario_store).1)
  = Some [(Some U0001, [(Some "the", 1)]);
          (Some (U0001 +:+ "the"), [(Some "cat", 1)])].
Proof.
  destruct (get_dataset_keeps "head" true scenario_store) as (_ & H & _).
  apply H. vm_compute. reflexivity.
Defined.

(** ** Ingestion *)

Lemma add_link_forward_ok (name source : string) (target : pyobj)
    (self : JsonStorage) :
  (forall l, target <> PList l) ->
  (add_link_forward name source target self).2 = Ok tt.
Proof. intros Hh. unfold add_link_forward. by rewrite add_link_hashable. Qed.

(** On a store without backward data an element that stands for a link is
    ingested: its forward count goes up by one, no other count changes. *)
Lemma add_links_body_forward (sep dataset_prefix : string) (it : item)
    (self : JsonStorage) (name : string) (key t : token) :
  backward self = None ->
  item_link sep dataset_prefix it = Some (name, key, t) ->
  let after := add_links_body sep dataset_prefix it self in
  after.2 = Ok tt /\ backward after.1 = None /\
  forall name' key' t',
    forward_count after.1 name' key' t'
    = if decide (name' = name /\ key' = key /\ t' = t)
      then Some (default 0 (forward_count self name key t) + 1)
      else forward_count self name' key' t'.
Proof.
  intros Hb Hlink after. subst after.
  destruct it as [|[|dataset|] [|src [|dst [|? ?]]]]; try done.
  cbn [item_link] in Hlink. rewrite add_links_body_triple. cbv zeta. rewrite Hb.
  destruct (iterate src) as [ctx|]; [|done].
  assert (Hh : forall l, dst <> PList l) by (intros l ->; done).
  assert (Hlink' : (dataset_prefix +:+ dataset, Some (join_state sep ctx),
                    target_token dst) = (name, key, t))
    by (destruct dst; by simplify_eq).
  injection Hlink' as <- <- <-. clear Hlink.
  set (s1 := (get_dataset (dataset_prefix +:+ dataset) true self).1).
  split_and!.
  - by apply add_link_forward_ok.
  - rewrite add_link_forward_store. cbn [backward]. subst s1.
    rewrite get_dataset_create. cbn [fst backward]. by rewrite Hb.
  - intros name' key' t'.
    destruct (counts_add_link_forward (dataset_prefix +:+ dataset)
                (join_state sep ctx) dst s1 name' key' t' Hh) as [-> _].
    subst s1.
    destruct (counts_get_dataset (dataset_prefix +:+ dataset) self
                (dataset_prefix +:+ dataset) (Some (join_state sep ctx))
                (target_token dst)) as [-> _].
    by destruct (counts_get_dataset (dataset_prefix +:+ dataset) self
                   name' key' t') as [-> _].
Qed.

Lemma link_count_cons (sep dataset_prefix : string) (it : item)
    (links : list item) (name : string) (key t : token) :
  link_count sep dataset_prefix (it :: links) name key t
  = (if bool_decide (item_link sep dataset_prefix it = Some (name, key, t))
     then 1 else 0)
    + link_count sep dataset_prefix links name key t.
Proof.
  unfold link_count. cbn [List.filter].
  destruct (bool_decide _); cbn [length]; lia.
Qed.

Lemma link_count_nonneg (sep dataset_prefix : string) (links : list item)
    (name : string) (key t : token) :
  0 <= link_count sep dataset_prefix links name key t.
Proof. unfold link_count. lia. Qed.

(** The counts after a batch of such elements. *)
Lemma add_links_forward_counts (sep dataset_prefix : string) (links : list item)
    (self : JsonStorage) :
  backward self = None ->
  Forall (fun it => is_Some (item_link sep dataset_prefix it)) links ->
  let after := add_links sep links dataset_prefix self in
  after.2 = Ok tt /\ backward after.1 = None /\
  forall name key t,
    forward_count after.1 name key t
    = if (link_count sep dataset_prefix links name key t =? 0)%Z
      then forward_count self name key t
      else Some (default 0 (forward_count self name key t)
                 + link_count sep dataset_prefix links name key t).
Proof.
  intros Hb Hall. revert self Hb.
  induction Hall as [|it links [[[n0 k0] t0] Hit] _ IH]; intros self Hb.
  { by split_and!. }
  cbn [add_links]. unfold bind.
  destruct (add_links_body_forward sep dataset_prefix it self n0 k0 t0 Hb Hit)
    as (Hok & Hb1 & Hcount).
  destruct (add_links_body sep dataset_prefix it self) as [s1 r1].
  cbn [fst snd] in *. subst r1.
  destruct (IH s1 Hb1) as (Hok2 & Hb2 & Hcount2).
  split_and!; [done..|]. intros name key t. rewrite Hcount2, !Hcount.
  rewrite link_count_cons, Hit.
  pose proof (link_count_nonneg sep dataset_prefix links name key t) as Hm.
  generalize dependent (link_count sep dataset_prefix links name key t).
  intros m Hm.
  destruct (decide (name = n0 /\ key = k0 /\ t = t0)) as [(-> & -> & ->)|Hne].
  - rewrite bool_decide_eq_true_2 by done.
    destruct (Z.eqb_spec m 0), (Z.eqb_spec (1 + m) 0); try lia;
      destruct (forward_count self n0 k0 t0); cbn [default]; unfold id;
      f_equal; lia.
  - rewrite bool_decide_eq_false_2 by (intros [= -> -> ->]; by destruct Hne).
    by rewrite Z.add_0_l.
Qed.

Lemma stands_for_link_Forall (sep dataset_prefix : string) (links : list item) :
  forallb (stands_for_link sep dataset_prefix) links = true ->
  Forall (fun it => is_Some (item_link sep dataset_prefix it)) links.
Proof.
  rewrite forallb_forall. intros Hall. apply Forall_forall. intros it Hin.
  apply list_elem_of_In, Hall in Hin. unfold stands_for_link in Hin.
  by destruct (item_link sep dataset_prefix it).
Qed.

(** X7: on a store without backward data a batch of well-formed elements
    is ingested without an error, and the weight of every link (0 where the
    store has no count for it) goes up by the number of elements of the
    batch that stand for it; the store has a count for a link afterwards
    exactly when it had one or the batch has the link. *)
Theorem add_links_counts_batch
    (sep dataset_prefix : string) (links : list item) (self : JsonStorage) :
  backward self = None ->
  forallb (stands_for_link sep dataset_prefix) links = true ->
  let after := add_links sep links dataset_prefix self in
  after.2 = Ok tt /\
  forall (name : string) (key t : token),
    default 0 (forward_count after.1 name key t)
    = default 0 (forward_count self name key t)
      + link_count sep dataset_prefix links name key t /\
    (is_Some (forward_count after.1 name key t)
     <-> is_Some (forward_count self name key t)
         \/ 0 < link_count sep dataset_prefix links name key t).
Proof.
  intros Hb Hall%stands_for_link_Forall after. subst after.
  destruct (add_links_forward_counts sep dataset_prefix links self Hb Hall)
    as (Hok & _ & Hcount).
  split; [done|]. intros name key t. rewrite Hcount.
  pose proof (link_count_nonneg sep dataset_prefix links name key t) as Hm.
  destruct (Z.eqb_spec (link_count sep dataset_prefix links name key t) 0)
    as [->|Hne].
  - split; [lia|]. split; [by left|]. intros [?|?]; [done|lia].
  - split; [done|]. split; [intros _; right; lia|by eexists].
Qed.

Lemma add_links_counts_batch_witness :
  let after := add_links U0001 (scenario_links ++ scenario_links) ""
                 (new_store None None) in
  after.2 = Ok tt /\
  default 0 (forward_count after.1 "body" (Some U0001) (Some "the")) = 2.
Proof.
  destruct (add_links_counts_batch U0001 "" (scenario_links ++ scenario_links)
              (new_store None None)) as [Hok Hcount]; [reflexivity..|].
  split; [exact Hok|].
  destruct (Hcount "body" (Some U0001) (Some "the")) as [-> _]. reflexivity.
Defined.

Lemma as_strs_fmap (l : list string) : as_strs (VStr <$> l) = Some l.
Proof. induction l as [|x l IH]; [done|]. cbn. by rewrite IH. Qed.

Lemma link_count_pos (sep dataset_prefix : string) (links : list item)
    (it : item) (name : string) (key t : token) :
  In it links ->
  item_link sep dataset_prefix it = Some (name, key, t) ->
  0 < link_count sep dataset_prefix links name key t.
Proof.
  intros Hin Hit. induction links as [|it' links IH]; [done|].
  rewrite link_count_cons.
  pose proof (link_count_nonneg sep dataset_prefix links name key t).
  destruct Hin as [->|Hin].
  - rewrite bool_decide_eq_true_2 by done. lia.
  - specialize (IH Hin). destruct (bool_decide _); lia.
Qed.

(** X8: what was ingested can be queried.  After such a batch on a store
    without backward data, the dataset of every element of the batch
    resolves, and the links that [get_links] returns for the context of the
    element have the pair of the target's weight, which counts the
    element, and the target. *)
Theorem get_links_after_add_links
    (sep dataset_prefix : string) (links : list item) (self : JsonStorage)
    (dataset : string) (src dst : pyobj) (ctx : list string) :
  backward self = None ->
  forallb (stands_for_link sep dataset_prefix) links = true ->
  In [PStr dataset; src; dst] links ->
  iterate src = Ok ctx ->
  let after := (add_links sep links dataset_prefix self).1 in
  let name := dataset_prefix +:+ dataset in
  let key := Some (join_state sep ctx) in
  let t := target_token dst in
  exists (pair : dataset_t * option dataset_t) (found : list (pyval * pyval)),
    (get_dataset name false after).2 = Ok pair /\
    get_links sep after pair (VStr <$> ctx) false = Ok found /\
    In (VInt (default 0 (forward_count self name key t)
              + link_count sep dataset_prefix links name key t),
        of_token t) found /\
    0 < link_count sep dataset_prefix links name key t.
Proof.
  intros Hb Hall Hin Hctx after name key t.
  pose proof Hall as Hall'. apply stands_for_link_Forall in Hall'.
  assert (Hit : item_link sep dataset_prefix [PStr dataset; src; dst]
                = Some (name, key, t)).
  { rewrite forallb_forall in Hall. specialize (Hall _ Hin).
    unfold stands_for_link in Hall. cbn [item_link] in *. rewrite Hctx in *.
    by destruct dst. }
  pose proof (link_count_pos _ _ _ _ _ _ _ Hin Hit) as Hpos.
  destruct (add_links_forward_counts sep dataset_prefix links self Hb Hall')
    as (_ & Hb' & Hcount).
  fold after in Hb', Hcount. specialize (Hcount name key t).
  destruct (Z.eqb_spec (link_count sep dataset_prefix links name key t) 0);
    [lia|].
  unfold forward_count at 1, data_count in Hcount.
  destruct (dict_get name (nodes after)) as [ds|] eqn:Hds; [|done].
  cbn in Hcount.
  destruct (dict_get key ds) as [node|] eqn:Hnode; [|done]. cbn in Hcount.
  exists (ds, None), ((fun wn => (VInt wn.2, of_token wn.1)) <$> node).
  split_and!; [| | |done].
  - by rewrite get_dataset_lookup, Hds, Hb'.
  - unfold get_links. rewrite as_strs_fmap. cbn [andb fst]. fold key.
    by rewrite Hnode.
  - apply dict_get_Some_elem in Hcount. apply list_elem_of_In.
    apply list_elem_of_fmap. by eexists (t, _).
Qed.

Lemma get_links_after_add_links_witness :
  exists (pair : dataset_t * option dataset_t) (found : list (pyval * pyval)),
    (get_dataset "body" false scenario_store).2 = Ok pair /\
    get_links U0001 scenario_store pair [VStr ""; VStr "the"] false = Ok found /\
    In (VInt 1, VStr "cat") found.
Proof.
  destruct (get_links_after_add_links U0001 "" scenario_links
              (new_store None None) "body" (PList [""; "the"]) (PStr "cat")
              [""; "the"])
    as (pair & found & Hp & Hf & Hin & _);
    [reflexivity|reflexivity|right; left; reflexivity|reflexivity|].
  exists pair, found. split_and!; [exact Hp|exact Hf|exact Hin].
Defined.

Lemma grows_refl (a : option Z) : grows a a = true.
Proof. destruct a; [apply Z.leb_refl|done]. Qed.

Lemma grows_trans (a b c : option Z) :
  grows a b = true -> grows b c = true -> grows a c = true.
Proof.
  destruct a as [x|], b as [y|], c as [z|]; cbn; try done.
  rewrite !Z.leb_le. lia.
Qed.

Lemma data_count_linked_grows (d : data_t) (name source : string)
    (target : pyobj) (name' : string) (key' t' : token) :
  grows (data_count d name' key' t')
        (data_count (linked name source target d) name' key' t') = true.
Proof.
  destruct target as [|s|l].
  3: { rewrite data_count_linked_unhashable. apply grows_refl. }
  all: rewrite data_count_linked by done.
  all: destruct (decide _) as [(-> & -> & ->)|_]; [|apply grows_refl].
  all: destruct (data_count d name (Some source) _); [|done].
  all: cbn; apply Z.leb_le; lia.
Qed.

(** X9: ingestion only ever adds.  Over any sequence of [add_links] calls,
    whatever their elements and whether or not a call raises, a count that
    the store has, forward or backward, stays in the store and does not get
    smaller. *)
Theorem add_links_calls_grows
    (sep : string) (calls : list (list item * string)) (self : JsonStorage)
    (name : string) (key t : token) :
  grows (forward_count self name key t)
        (forward_count (add_links_calls sep calls self) name key t) = true /\
  grows (backward_count self name key t)
        (backward_count (add_links_calls sep calls self) name key t) = true.
Proof.
  set (P := fun s : JsonStorage =>
              grows (forward_count self name key t)
                    (forward_count s name key t) = true /\
              grows (backward_count self name key t)
                    (backward_count s name key t) = true).
  change (P (add_links_calls sep calls self)).
  apply add_links_calls_preserves; [|split; apply grows_refl].
  intros links dataset_prefix. apply add_links_preserves.
  apply add_links_body_preserves.
  - intros k s [Hf Hb].
    destruct (counts_get_dataset k s name key t) as [Ef Eb].
    split; [by rewrite Ef|by rewrite Eb].
  - intros n source target s [Hf Hb]. rewrite add_link_backward_store.
    split; [done|]. unfold backward_count in *. cbn [backward].
    destruct (backward s) as [b|]; [|done]. cbn in *.
    eapply grows_trans; [exact Hb|apply data_count_linked_grows].
  - intros n source target s [Hf Hb]. rewrite add_link_forward_store.
    split; [|done]. unfold forward_count in *. cbn [nodes].
    eapply grows_trans; [exact Hf|apply data_count_linked_grows].
Qed.

Lemma get_dataset_create_exists (key : string) (self : JsonStorage) :
  dataset_exists (get_dataset key true self).1 key = true.
Proof.
  rewrite get_dataset_create. unfold dataset_exists. cbn [fst nodes backward].
  rewrite created_mem. destruct (backward self); cbn; [apply created_mem|done].
Qed.

(** X10: on a store with backward data an element whose context is empty
    stops the batch with [StopIteration], the error of [next] on the
    exhausted context: its dataset has been created by then, but no link is
    recorded, forward or backward, and the rest of the batch is not
    ingested. *)
Theorem add_links_empty_context
    (sep dataset_prefix dataset : string) (src : pyobj) (t : string)
    (rest : list item) (self : JsonStorage) :
  is_Some (backward self) ->
  iterate src = Ok [] ->
  let after :=
    add_links sep ([PStr dataset; src; PStr t] :: rest) dataset_prefix self in
  after.2 = Raise StopIteration /\
  dataset_exists after.1 (dataset_prefix +:+ dataset) = true /\
  forall (name' : string) (key' t' : token),
    forward_count after.1 name' key' t' = forward_count self name' key' t' /\
    backward_count after.1 name' key' t' = backward_count self name' key' t'.
Proof.
  intros [b Hb] Hsrc after. subst after. cbn [add_links]. unfold bind.
  rewrite add_links_body_triple, Hb, Hsrc. cbn [fst snd].
  split_and!; [done| |].
  - apply get_dataset_create_exists.
  - intros name' key' t'. apply counts_get_dataset.
Qed.

Lemma add_links_empty_context_witness :
  let after := add_links U0001 [[PStr "body"; PList []; PStr "the"]] ""
                 (new_store (Some true) None) in
  after.2 = Raise StopIteration /\
  dataset_exists after.1 "body" = true /\
  forward_count after.1 "body" (Some "") (Some "the") = None.
Proof.
  destruct (add_links_empty_context U0001 "" "body" (PList []) "the" []
              (new_store (Some true) None)) as (Hr & He & Hc);
    [by eexists|reflexivity|].
  split_and!; [exact Hr|exact He|].
  destruct (Hc "body" (Some "") (Some "the")) as [-> _]. reflexivity.
Defined.

(** X11: an element whose target is [None], the end of a text, is recorded
    forward only, also on a store with backward data: the batch of that one
    element raises nothing, the forward count of [None] at the state of its
    context goes up by one, and no backward count changes. *)
Theorem add_links_end_of_text
    (sep dataset_prefix dataset : string) (src : pyobj) (ctx : list string)
    (self : JsonStorage) :
  iterate src = Ok ctx ->
  let after := add_links sep [[PStr dataset; src; PNone]] dataset_prefix self in
  let name := dataset_prefix +:+ dataset in
  let key := Some (join_state sep ctx) in
  after.2 = Ok tt /\
  forward_count after.1 name key None
  = Some (default 0 (forward_count self name key None) + 1) /\
  forall (name' : string) (key' t' : token),
    backward_count after.1 name' key' t' = backward_count self name' key' t'.
Proof.
  intros Hsrc after name key. subst after. cbn [add_links]. unfold bind.
  rewrite add_links_body_triple. fold name.
  assert (Hbody :
    match backward self, PNone with
    | Some _, PStr t =>
        match iterate src with
        | Raise e => ((get_dataset name true self).1, Raise e)
        | Ok [] => ((get_dataset name true self).1, Raise StopIteration)
        | Ok (x :: r) =>
            add_link_forward name (join_state sep (x :: r)) PNone
              (add_link_backward name (join_state sep (r ++ [t])) (PStr x)
                 (get_dataset name true self).1).1
        end
    | Some _, PList _ =>
        match iterate src with
        | Raise e => ((get_dataset name true self).1, Raise e)
        | Ok [] => ((get_dataset name true self).1, Raise StopIteration)
        | Ok (_ :: _) => ((get_dataset name true self).1, Raise TypeError)
        end
    | _, _ =>
        match iterate src with
        | Raise e => ((get_dataset name true self).1, Raise e)
        | Ok ctx => add_link_forward name (join_state sep ctx) PNone
                      (get_dataset name true self).1
        end
    end
    = add_link_forward name (join_state sep ctx) PNone
        (get_dataset name true self).1).
  { rewrite Hsrc. by destruct (backward self). }
  cbv zeta. rewrite Hbody. clear Hbody.
  set (s1 := (get_dataset name true self).1).
  pose proof (add_link_forward_ok name (join_state sep ctx) PNone s1) as Hok.
  pose proof (fun n k t' =>
                counts_add_link_forward name (join_state sep ctx) PNone s1 n k t')
    as Hcount.
  destruct (add_link_forward name (join_state sep ctx) PNone s1) as [s2 r2].
  cbn [fst snd] in *. rewrite Hok by done. cbn [fst snd ret].
  split_and!; [done| |].
  - destruct (Hcount name key None) as [-> _]; [done|].
    rewrite decide_True by done. cbn [target_token]. subst s1 key.
    by destruct (counts_get_dataset name self name
                   (Some (join_state sep ctx)) None) as [-> _].
  - intros name' key' t'. destruct (Hcount name' key' t') as [_ ->]; [done|].
    subst s1.
    by destruct (counts_get_dataset name self name' key' t') as [_ ->].
Qed.

Lemma add_links_end_of_text_witness :
  let after := add_links U0001 [[PStr "body"; PList ["the"; "cat"]; PNone]] ""
                 (new_store (Some true) None) in
  after.2 = Ok tt /\
  forward_count after.1 "body" (Some (join_state U0001 ["the"; "cat"])) None
  = Some 1 /\
  backward_count after.1 "body" (Some (join_state U0001 ["cat"])) (Some "the")
  = None.
Proof.
  destruct (add_links_end_of_text U0001 "" "body" (PList ["the"; "cat"])
              ["the"; "cat"] (new_store (Some true) None)) as (Hr & Hf & Hb);
    [reflexivity|].
  split_and!; [exact Hr|exact Hf|].
  rewrite Hb. reflexivity.
Defined.

Lemma str_append_assoc (a b c : string) : (a +:+ b) +:+ c = a +:+ (b +:+ c).
Proof. induction a as [|x a IH]; [done|]. by rewrite !append_cons, IH. Qed.

(** X12: the prefix of [add_links] is put in front of the dataset names and
    does nothing else: a batch under the prefix [p + q] is ingested as the
    batch with [q] put in front of each dataset name is under [p], and so a
    batch under a prefix as the batch of the prefixed names under no
    prefix. *)
Theorem add_links_prefix
    (sep p q : string) (links : list item) (self : JsonStorage) :
  add_links sep links (p +:+ q) self
  = add_links sep (with_prefix q <$> links) p self.
Proof.
  revert self. induction links as [|it links IH]; intros self; [done|].
  rewrite fmap_cons. cbn [add_links]. unfold bind.
  assert (Hbody : add_links_body sep (p +:+ q) it self
                  = add_links_body sep p (with_prefix q it) self).
  { destruct it as [|[|d|l] [|src [|dst [|? ?]]]]; try done.
    cbn [with_prefix]. by rewrite !add_links_body_triple, str_append_assoc. }
  rewrite Hbody.
  destruct (add_links_body sep p (with_prefix q it) self) as [s [[]|e]];
    [apply IH|done].
Qed.

(** ** Context windows *)

Lemma fold_append_items {A : Type} (l : list A) (d : Deque.t A) :
  (length (Deque.items d) <= Deque.maxlen d)%nat ->
  Deque.items (fold_left (fun d x => Deque.append x d) l d)
  = drop (length (Deque.items d) + length l - Deque.maxlen d)
         (Deque.items d ++ l).
Proof.
  revert d. induction l as [|x l IH]; intros d Hle.
  { cbn [fold_left length]. rewrite app_nil_r.
    replace (_ + 0 - _)%nat with 0%nat by lia. done. }
  cbn [fold_left]. rewrite IH by (rewrite append_length, append_maxlen by done; lia).
  rewrite append_maxlen. unfold Deque.append. destruct d as [its m].
  cbn [Deque.items Deque.maxlen] in *.
  destruct (Nat.eqb_spec m 0) as [->|Hm].
  { destruct its; [|cbn in Hle; lia]. cbn [Deque.items length app].
    replace (0 + length l - 0)%nat with (length l) by lia.
    replace (0 + S (length l) - 0)%nat with (S (length l)) by lia.
    cbn [drop]. done. }
  destruct (Nat.ltb_spec (length its) m) as [Hlt|Hge]; cbn [Deque.items].
  - rewrite length_app, <- app_assoc. cbn [length app]. f_equal. lia.
  - destruct its as [|y its]; [cbn in *; lia|]. cbn [tail length] in *.
    rewrite length_app, <- app_assoc. cbn [length app].
    replace (S (length its) + S (length l) - m)%nat
      with (S (length its + 1 + length l - m)) by lia.
    done.
Qed.

Lemma of_iter_items {A : Type} (l : list A) (n : nat) :
  Deque.items (Deque.of_iter l n) = drop (length l - n) l.
Proof.
  unfold Deque.of_iter. rewrite fold_append_items by (cbn; lia). done.
Qed.

Lemma of_iter_snoc {A : Type} (l : list A) (x : A) (n : nat) :
  Deque.of_iter (l ++ [x]) n = Deque.append x (Deque.of_iter l n).
Proof. unfold Deque.of_iter. by rewrite fold_left_app. Qed.

(** X13: [get_state] makes a new window, of which no other window of the
    generator is changed, that holds the last [size] tokens of the text and
    is filled up on the left with the empty string where the text is
    shorter. *)
Theorem get_state_contents (prior : list pyval) (size : nat) (h : heap) :
  let w := (get_state prior size h).1 in
  let h1 := (get_state prior size h).2 in
  (forall w', (w' < length h)%nat -> w' <> w /\ h1 !! w' = h !! w') /\
  exists d : Deque.t pyval,
    h1 !! w = Some d /\ Deque.maxlen d = size /\
    Deque.items d
    = if (length prior <=? size)%nat
      then replicate (size - length prior) (VStr "") ++ prior
      else drop (length prior - size) prior.
Proof.
  intros w h1. subst w h1. unfold get_state. cbn [fst snd]. split.
  - intros w' Hlt. split; [lia|]. by rewrite lookup_app_l.
  - exists (Deque.of_iter (replicate size (VStr "") ++ prior) size).
    split_and!.
    + rewrite lookup_app_r by lia. by rewrite Nat.sub_diag.
    + apply of_iter_length.
    + rewrite of_iter_items, length_app, length_replicate.
      replace (size + length prior - size)%nat with (length prior) by lia.
      destruct (Nat.leb_spec (length prior) size) as [Hle|Hgt].
      * rewrite drop_app_le by (rewrite length_replicate; lia).
        by rewrite drop_replicate.
      * rewrite drop_app_ge by (rewrite length_replicate; lia).
        by rewrite length_replicate.
Qed.

Lemma get_state_contents_witness :
  let h := (get_state [] 1 []).2 in
  (get_state [VStr "the"] 2 h).2 !! 0%nat = h !! 0%nat /\
  exists d : Deque.t pyval,
    (get_state [VStr "the"] 2 h).2 !! 1%nat = Some d /\
    Deque.items d = [VStr ""; VStr "the"].
Proof.
  destruct (get_state_contents [VStr "the"] 2 (get_state [] 1 []).2)
    as [Hold (d & Hd & _ & Hitems)].
  split.
  - apply (Hold 0%nat). cbn. lia.
  - exists d. split; [exact Hd|exact Hitems].
Defined.

(** X14: a forward walk reads on in the text.  Following links forward from
    the window of a text gives the window, at the same place, that
    [get_state] makes of the text with the targets of the links added at
    its end. *)
Theorem follow_links_forward
    (links : list (pyval * pyval)) (prior : list pyval) (size : nat) (h : heap) :
  follow_links links (get_state prior size h).1 false (get_state prior size h).2
  = Some (get_state (prior ++ links.*2) size h).
Proof.
  revert prior. induction links as [|link links IH]; intros prior.
  { cbn [follow_links fmap list_fmap]. rewrite app_nil_r.
    by destruct (get_state prior size h). }
  cbn [follow_links]. rewrite fmap_cons.
  assert (Hstep : follow_link link (get_state prior size h).1 false
                    (get_state prior size h).2
                  = Some (get_state (prior ++ [link.2]) size h)).
  { unfold follow_link, get_state. cbn [fst snd].
    rewrite lookup_app_r by lia. rewrite Nat.sub_diag. cbn [lookup list_lookup].
    do 2 f_equal.
    rewrite insert_app_r_alt by lia. rewrite Nat.sub_diag. cbn.
    by rewrite app_assoc, of_iter_snoc. }
  rewrite Hstep.
  specialize (IH (prior ++ [link.2])). rewrite <- app_assoc in IH. cbn [app] in IH.
  rewrite <- IH. by destruct (get_state (prior ++ [link.2]) size h).
Qed.

Lemma fold_appendleft_items {A : Type} (l : list A) (d : Deque.t A) :
  length (Deque.items d) = Deque.maxlen d ->
  fold_left (fun d x => Deque.appendleft x d) l d
  = Deque.Make (take (Deque.maxlen d) (rev l ++ Deque.items d)) (Deque.maxlen d).
Proof.
  revert d. induction l as [|x l IH]; intros d Hfull.
  { destruct d as [its m]. cbn [fold_left rev app Deque.items Deque.maxlen] in *.
    subst m. by rewrite firstn_all. }
  cbn [fold_left rev]. rewrite appendleft_full by done.
  rewrite IH; cbn [Deque.items Deque.maxlen].
  2: { rewrite removelast_firstn_len, length_firstn. cbn [length]. lia. }
  f_equal. rewrite removelast_firstn_len. cbn [length Nat.pred].
  rewrite Hfull, <- app_assoc. cbn [app].
  rewrite !(take_app (rev l)). f_equal.
  rewrite take_take. f_equal. lia.
Qed.

(** X15: a backward walk reads back.  Following links backward from the
    window of a text puts the targets of the links in front of it, the last
    one first, and keeps the first [size] tokens of that. *)
Theorem follow_links_backward
    (links : list (pyval * pyval)) (prior : list pyval) (size : nat) (h : heap) :
  let w := (get_state prior size h).1 in
  let h1 := (get_state prior size h).2 in
  let window := drop (length prior) (replicate size (VStr "") ++ prior) in
  follow_links links w true h1
  = Some (w, h ++ [Deque.Make (take size (rev links.*2 ++ window)) size]).
Proof.
  intros w h1 window. subst w h1. unfold get_state. cbn [fst snd].
  pose proof (of_iter_length (replicate size (VStr "") ++ prior) size) as [Hm Hl].
  pose proof (of_iter_items (replicate size (VStr "") ++ prior) size) as Hi.
  rewrite length_app, length_replicate in Hl, Hi.
  replace (size + length prior - size)%nat with (length prior) in Hi by lia.
  fold window in Hi.
  set (d := Deque.of_iter (replicate size (VStr "") ++ prior) size) in *.
  assert (Hfull : length (Deque.items d) = Deque.maxlen d) by lia.
  assert (Hgen : forall d0 : Deque.t pyval,
             follow_links links (length h) true (h ++ [d0])
             = Some (length h,
                     h ++ [fold_left (fun d x => Deque.appendleft x d)
                             links.*2 d0])).
  { induction links as [|link links IH]; intros d0; [done|].
    cbn [follow_links]. unfold follow_link.
    rewrite lookup_app_r by lia. rewrite Nat.sub_diag. cbn [lookup list_lookup].
    rewrite insert_app_r_alt by lia. rewrite Nat.sub_diag. cbn [insert list_insert].
    rewrite IH. by rewrite fmap_cons. }
  rewrite Hgen, fold_appendleft_items by done. by rewrite Hm, Hi.
Qed.

(** ** Replacing the state separator *)

Lemma sep_free_cons (sep : string) (c : ascii) (x : string) :
  sep_free sep (String c x) = true ->
  startswith sep (String c x) = false /\ sep_free sep x = true.
Proof.
  unfold sep_free. cbn [contains]. rewrite !negb_true_iff, orb_false_iff.
  done.
Qed.

Lemma replace_from_free (old new s : string) :
  sep_free old s = true -> replace_from old new 0 s = s.
Proof.
  induction s as [|c s IH]; [done|].
  intros [Hs Hfree]%sep_free_cons. cbn [replace_from]. by rewrite Hs, IH.
Qed.

Lemma replace_from_skip (old new p s : string) :
  replace_from old new (String.length p) (p +:+ s) = replace_from old new 0 s.
Proof.
  induction p as [|c p IH]; [by destruct s|].
  rewrite append_cons. cbn [String.length replace_from]. apply IH.
Qed.

Lemma replace_from_head (old new s : string) :
  old <> EmptyString ->
  replace_from old new 0 (old +:+ s) = new +:+ replace_from old new 0 s.
Proof.
  intros Hne. destruct old as [|c o]; [done|].
  assert (Hs : startswith (String c o) (String c o +:+ s) = true)
    by (apply startswith_spec; by eexists).
  rewrite append_cons in *. cbn [replace_from]. rewrite Hs.
  replace (String.length (String c o) - 1)%nat with (String.length o)
    by (cbn [String.length]; lia).
  by rewrite replace_from_skip.
Qed.

Lemma replace_from_token (old new x rest : string) :
  has_border old = false ->
  old <> EmptyString ->
  sep_free old x = true ->
  replace_from old new 0 (x +:+ old +:+ rest)
  = x +:+ new +:+ replace_from old new 0 rest.
Proof.
  intros Hb Hne. induction x as [|c x IH]; intros Hfree.
  { rewrite !append_nil. by apply replace_from_head. }
  pose proof Hfree as [_ Hfree']%sep_free_cons.
  assert (Hs : startswith old (String c x +:+ old +:+ rest) = false).
  { destruct (startswith old (String c x +:+ old +:+ rest)) eqn:Hs; [|done].
    apply startswith_spec in Hs as [v Hv].
    assert (String c x = EmptyString); [|done].
    apply (split_prefix old Hb EmptyString (String c x) v rest); [done|].
    by rewrite Hv. }
  rewrite !append_cons in *. cbn [replace_from]. rewrite Hs.
  by rewrite IH.
Qed.

Lemma str_replace_nonempty (old new s : string) :
  old <> EmptyString -> str_replace old new s = replace_from old new 0 s.
Proof. by destruct old. Qed.

Lemma str_replace_join (old new : string) (l : list string) :
  old <> EmptyString ->
  has_border old = false ->
  sep_free_all old l ->
  str_replace old new (join_state old l) = join_state new l.
Proof.
  intros Hne Hb Hall. rewrite str_replace_nonempty by done.
  induction Hall as [|x l Hx Hl IH]; [done|].
  destruct l as [|y r].
  { cbn. by apply replace_from_free. }
  rewrite !join_state_cons2, replace_from_token by done. by rewrite IH.
Qed.

Lemma replace_keys_Some (old new : string) (ds : dataset_t) :
  Forall (fun sd : token * Counter => is_Some sd.1) ds ->
  replace_keys old new ds = Ok (rekeyed_dataset old new ds).
Proof.
  induction 1 as [|[k v] ds [k' Hk] _ IH]; [done|].
  cbn in Hk. subst k. cbn [replace_keys]. by rewrite IH.
Qed.

Lemma dict_set_app_r {K V : Type} `{EqDecision K}
    (k : K) (v : V) (d1 d2 : dict K V) :
  k ∉ dict_keys d1 -> dict_set k v (d1 ++ d2) = d1 ++ dict_set k v d2.
Proof.
  unfold dict_keys. induction d1 as [|[k0 v0] d1 IH]; [done|].
  rewrite fmap_cons, not_elem_of_cons. intros [Hne Hnot].
  cbn [app dict_set fst]. case_decide; [done|]. by rewrite IH.
Qed.

Lemma rekeyed_keys (old new : string) (d : data_t) :
  dict_keys (rekeyed old new d) = dict_keys d.
Proof.
  unfold dict_keys, rekeyed. rewrite <- list_fmap_compose.
  apply list_fmap_ext. by intros i [name ds] _.
Qed.

Lemma do_replace_loop_rekeyed (old new : string) (done_ todo : data_t) :
  NoDup (dict_keys (done_ ++ todo)) ->
  Forall (fun entry : string * dataset_t => NoDup (dict_keys entry.2)) todo ->
  keys_apart old new todo ->
  do_replace_loop old new todo (rekeyed old new done_ ++ todo)
  = (rekeyed old new (done_ ++ todo), Ok tt).
Proof.
  revert done_. induction todo as [|[key ds] todo IH]; intros done_ Hnd Hwf Hap.
  { by rewrite !app_nil_r. }
  apply Forall_cons in Hwf as [Hds Hwf]. apply Forall_cons in Hap as [[Hs Hinj] Hap].
  cbn [fst snd] in *. cbn [do_replace_loop]. rewrite replace_keys_Some by done.
  unfold rekeyed_dataset at 1.
  rewrite dict_of_items_fmap_NoDup; [|done|].
  2: { intros x y Hx Hy Heq. apply Hinj; [| |done].
       - apply list_elem_of_fmap. by exists x.
       - apply list_elem_of_fmap. by exists y. }
  rewrite dict_set_app_r.
  2: { rewrite rekeyed_keys. unfold dict_keys in *.
       rewrite fmap_app, fmap_cons in Hnd. cbn [fst] in Hnd.
       apply NoDup_app in Hnd as (_ & Hnot & _). intros Hin.
       apply (Hnot key); [done|left]. }
  cbn [dict_set]. rewrite decide_True by done.
  replace (rekeyed old new done_
           ++ (key, (fun sd : token * Counter =>
                       (option_map (str_replace old new) sd.1, sd.2)) <$> ds)
              :: todo)
    with (rekeyed old new (done_ ++ [(key, ds)]) ++ todo)
    by (unfold rekeyed; by rewrite fmap_app, <- app_assoc).
  replace (done_ ++ (key, ds) :: todo) with ((done_ ++ [(key, ds)]) ++ todo) in *
    by (by rewrite <- app_assoc).
  by apply IH.
Qed.

Lemma do_replace_rekeyed (old new : string) (d : data_t) :
  data_wf d -> keys_apart old new d ->
  do_replace_state_separator d old new = (rekeyed old new d, Ok tt).
Proof.
  intros [Hnd Hwf] Hap. unfold do_replace_state_separator.
  apply (do_replace_loop_rekeyed old new [] d); [done| |done].
  eapply Forall_impl; [exact Hwf|]. by intros entry [? _].
Qed.

Lemma replace_rekeyed (old new : string) (self : JsonStorage) :
  store_all data_wf self ->
  store_all (keys_apart old new) self ->
  replace_state_separator old new self = (rekeyed_store old new self, Ok tt).
Proof.
  intros [Hwf Hwfb] [Hap Hapb]. unfold replace_state_separator, rekeyed_store.
  rewrite do_replace_rekeyed by done.
  destruct (backward self) as [b|]; [|done].
  by rewrite do_replace_rekeyed by auto.
Qed.

Lemma rekeyed_get (old new name : string) (d : data_t) :
  dict_get name (rekeyed old new d) = rekeyed_dataset old new <$> dict_get name d.
Proof.
  induction d as [|[n ds] d IH]; [done|].
  cbn [rekeyed fmap list_fmap dict_get fst snd]. case_decide; [done|]. apply IH.
Qed.

Lemma rekeyed_set (old new name : string) (ds : dataset_t) (d : data_t) :
  dict_set name (rekeyed_dataset old new ds) (rekeyed old new d)
  = rekeyed old new (dict_set name ds d).
Proof.
  induction d as [|[n ds0] d IH]; [done|].
  cbn [rekeyed fmap list_fmap dict_set fst snd]. case_decide; [done|].
  cbn [fmap list_fmap fst snd]. f_equal. apply IH.
Qed.

Lemma rekeyed_created (old new name : string) (d : data_t) :
  created name (rekeyed old new d) = rekeyed old new (created name d).
Proof.
  unfold created, dict_mem. rewrite rekeyed_get.
  destruct (dict_get name d); [done|]. cbn [fmap option_fmap option_map].
  by rewrite <- rekeyed_set.
Qed.

Lemma rekeyed_dataset_get (old new : string) (k : token) (ds : dataset_t) :
  (forall k', k' ∈ dict_keys ds ->
              option_map (str_replace old new) k'
              = option_map (str_replace old new) k -> k' = k) ->
  dict_get (option_map (str_replace old new) k) (rekeyed_dataset old new ds)
  = dict_get k ds.
Proof.
  unfold dict_keys. induction ds as [|[k0 v0] ds IH]; intros Hinj; [done|].
  cbn [rekeyed_dataset fmap list_fmap dict_get fst snd].
  assert (Hrest : forall k', k' ∈ ds.*1 ->
             option_map (str_replace old new) k'
             = option_map (str_replace old new) k -> k' = k).
  { intros k' Hin. apply Hinj. rewrite fmap_cons. by right. }
  destruct (decide (k = k0)) as [->|Hne].
  - by rewrite decide_True.
  - rewrite decide_False; [by apply IH|].
    intros Heq. destruct Hne. symmetry. apply Hinj; [|done].
    rewrite fmap_cons. by left.
Qed.

Lemma rekeyed_dataset_set (old new : string) (k : token) (v : Counter)
    (ds : dataset_t) :
  (forall k', k' ∈ dict_keys ds ->
              option_map (str_replace old new) k'
              = option_map (str_replace old new) k -> k' = k) ->
  dict_set (option_map (str_replace old new) k) v (rekeyed_dataset old new ds)
  = rekeyed_dataset old new (dict_set k v ds).
Proof.
  unfold dict_keys. induction ds as [|[k0 v0] ds IH]; intros Hinj; [done|].
  cbn [rekeyed_dataset fmap list_fmap dict_set fst snd].
  assert (Hrest : forall k', k' ∈ ds.*1 ->
             option_map (str_replace old new) k'
             = option_map (str_replace old new) k -> k' = k).
  { intros k' Hin. apply Hinj. rewrite fmap_cons. by right. }
  destruct (decide (k = k0)) as [->|Hne].
  - by rewrite decide_True.
  - rewrite decide_False.
    + cbn [fmap list_fmap fst snd]. f_equal. by apply IH.
    + intros Heq. destruct Hne. symmetry. apply Hinj; [|done].
      rewrite fmap_cons. by left.
Qed.

Lemma add_link_rekeyed (old new : string) (ds : dataset_t) (source : string)
    (target : pyobj) (count : Z) :
  (forall k', k' ∈ dict_keys ds ->
              option_map (str_replace old new) k'
              = Some (str_replace old new source) -> k' = Some source) ->
  add_link (rekeyed_dataset old new ds) (str_replace old new source) target count
  = (rekeyed_dataset old new (add_link ds source target count).1,
     (add_link ds source target count).2).
Proof.
  intros Hinj. unfold add_link.
  change (Some (str_replace old new source))
    with (option_map (str_replace old new) (Some source)) in *.
  assert (Hmem : dict_mem (option_map (str_replace old new) (Some source))
                   (rekeyed_dataset old new ds)
                 = dict_mem (Some source) ds).
  { unfold dict_mem. by rewrite rekeyed_dataset_get. }
  rewrite Hmem.
  set (ds1 := if dict_mem (Some source) ds then ds
              else dict_set (Some source) [] ds).
  assert (Hds1 : (if dict_mem (Some source) ds then rekeyed_dataset old new ds
                  else dict_set (option_map (str_replace old new) (Some source))
                         [] (rekeyed_dataset old new ds))
                 = rekeyed_dataset old new ds1).
  { subst ds1. destruct (dict_mem (Some source) ds); [done|].
    by apply rekeyed_dataset_set. }
  rewrite Hds1.
  assert (Hinj1 : forall k', k' ∈ dict_keys ds1 ->
             option_map (str_replace old new) k'
             = option_map (str_replace old new) (Some source) -> k' = Some source).
  { subst ds1. destruct (dict_mem (Some source) ds) eqn:Hg; [done|].
    intros k'. rewrite dict_keys_set, Hg.
    intros [Hin| ->%list_elem_of_singleton]%elem_of_app; [by apply Hinj|done]. }
  destruct target as [|t|l]; cbn [fst snd]; [| |done].
  all: rewrite rekeyed_dataset_get by done.
  all: by rewrite rekeyed_dataset_set by done.
Qed.

Lemma linked_rekeyed (old new name source : string) (target : pyobj) (d : data_t) :
  (forall k', k' ∈ dict_keys (default [] (dict_get name d)) ->
              option_map (str_replace old new) k'
              = Some (str_replace old new source) -> k' = Some source) ->
  linked name (str_replace old new source) target (rekeyed old new d)
  = rekeyed old new (linked name source target d).
Proof.
  intros Hinj. unfold linked. rewrite rekeyed_get.
  replace (default [] (rekeyed_dataset old new <$> dict_get name d))
    with (rekeyed_dataset old new (default [] (dict_get name d)))
    by (by destruct (dict_get name d)).
  rewrite add_link_rekeyed by done. cbn [fst]. apply rekeyed_set.
Qed.

Lemma append_empty (a b : string) :
  a +:+ b = EmptyString -> a = EmptyString /\ b = EmptyString.
Proof. destruct a; [done|]. by rewrite append_cons. Qed.

Lemma join_state_nil_cons (sep sep' x : string) (r : list string) :
  sep_free_all sep (x :: r) ->
  join_state sep (x :: r) = EmptyString ->
  join_state sep' (x :: r) = EmptyString.
Proof.
  intros Hfree Hjoin. destruct r as [|y r]; [done|].
  rewrite join_state_cons2 in Hjoin.
  apply append_empty in Hjoin as [-> [-> _]%append_empty].
  apply Forall_cons in Hfree as [Hx _]. done.
Qed.

Lemma join_state_transfer (sep sep' : string) (c c' : list string) :
  has_border sep = false ->
  sep_free_all sep c -> sep_free_all sep c' ->
  join_state sep c = join_state sep c' ->
  join_state sep' c = join_state sep' c'.
Proof.
  intros Hb Hc Hc' Heq. destruct c as [|x r], c' as [|x' r'].
  - done.
  - symmetry. by apply (join_state_nil_cons sep).
  - by apply (join_state_nil_cons sep).
  - by rewrite (join_state_inj sep Hb (x :: r) (x' :: r')).
Qed.

Lemma add_link_forward_result (name source : string) (target : pyobj)
    (self : JsonStorage) :
  (add_link_forward name source target self).2
  = match target with PList _ => Raise TypeError | _ => Ok tt end.
Proof. unfold add_link_forward, add_link. by destruct target. Qed.

Lemma add_link_backward_result (name source : string) (target : pyobj)
    (self : JsonStorage) :
  is_Some (backward self) ->
  (add_link_backward name source target self).2
  = match target with PList _ => Raise TypeError | _ => Ok tt end.
Proof.
  intros [b Hb]. unfold add_link_backward, add_link. rewrite Hb.
  by destruct target.
Qed.

Section rekey.
Variables old new : string.
Hypothesis Hold : old <> EmptyString.
Hypothesis Hbo : has_border old = false.
Hypothesis Hbn : has_border new = false.

Lemma joined_apart (ds : dataset_t) (ctx : list string) :
  Forall (fun sd : token * Counter =>
            exists ctx : list string,
              sd.1 = Some (join_state old ctx) /\
              sep_free_all old ctx /\ sep_free_all new ctx) ds ->
  sep_free_all old ctx -> sep_free_all new ctx ->
  forall k', k' ∈ dict_keys ds ->
             option_map (str_replace old new) k'
             = Some (str_replace old new (join_state old ctx)) ->
             k' = Some (join_state old ctx).
Proof.
  intros Hds Ho Hn k' Hin Heq. unfold dict_keys in Hin.
  apply list_elem_of_fmap in Hin as ([k v] & -> & Hin).
  rewrite Forall_forall in Hds.
  destruct (Hds _ Hin) as (c' & Hk & Ho' & Hn'). cbn [fst] in *. subst k.
  cbn [option_map] in Heq. rewrite !str_replace_join in Heq by done.
  f_equal. apply (join_state_transfer new); [done..|]. congruence.
Qed.

Lemma keys_joined_apart (d : data_t) :
  keys_joined old new d -> keys_apart old new d.
Proof.
  unfold keys_joined, keys_apart. intros Hd.
  eapply Forall_impl; [exact Hd|]. clear Hd. intros [name ds] Hds.
  cbn [snd] in *. split.
  - eapply Forall_impl; [exact Hds|]. intros sd (c & -> & _). by eexists.
  - intros k1 k2 Hin1 Hin2 Heq.
    pose proof Hin2 as Hin2'. unfold dict_keys in Hin2'.
    apply list_elem_of_fmap in Hin2' as ([k v] & -> & Hin2').
    rewrite Forall_forall in Hds.
    destruct (Hds _ Hin2') as (c & Hk & Ho & Hn). cbn [fst] in *. subst k.
    apply (joined_apart ds c); [by apply Forall_forall|done..].
Qed.

Lemma keys_joined_created (key : string) (d : data_t) :
  keys_joined old new d -> keys_joined old new (created key d).
Proof.
  intros Hd. unfold created. destruct (dict_mem key d); [done|].
  by apply dict_set_Forall.
Qed.

Lemma keys_joined_get (name : string) (d : data_t) :
  keys_joined old new d ->
  Forall (fun sd : token * Counter =>
            exists ctx : list string,
              sd.1 = Some (join_state old ctx) /\
              sep_free_all old ctx /\ sep_free_all new ctx)
         (default [] (dict_get name d)).
Proof.
  intros Hd. destruct (dict_get name d) as [ds|] eqn:Hg; [|done].
  apply dict_get_Some_elem in Hg. unfold keys_joined in Hd.
  rewrite Forall_forall in Hd. apply (Hd _ Hg).
Qed.

Lemma keys_joined_linked (name : string) (ctx : list string) (target : pyobj)
    (d : data_t) :
  sep_free_all old ctx -> sep_free_all new ctx ->
  keys_joined old new d ->
  keys_joined old new (linked name (join_state old ctx) target d).
Proof.
  intros Ho Hn Hd. unfold linked. apply dict_set_Forall; [|done].
  cbn [snd]. pose proof (keys_joined_get name d Hd) as Hds.
  set (ds := default [] (dict_get name d)) in *.
  assert (Hkey : forall v : Counter,
             exists c : list string,
               (Some (join_state old ctx), v).1 = Some (join_state old c) /\
               sep_free_all old c /\ sep_free_all new c)
    by (intros v; by exists ctx).
  unfold add_link.
  set (ds1 := if dict_mem (Some (join_state old ctx)) ds then ds
              else dict_set (Some (join_state old ctx)) [] ds).
  assert (Hds1 : Forall (fun sd : token * Counter =>
                   exists c : list string,
                     sd.1 = Some (join_state old c) /\
                     sep_free_all old c /\ sep_free_all new c) ds1).
  { subst ds1. destruct (dict_mem _ ds); [done|]. by apply dict_set_Forall. }
  destruct target; cbn [fst]; [|by apply dict_set_Forall..|done].
  by apply dict_set_Forall.
Qed.

Lemma add_link_forward_rekeyed (name : string) (ctx : list string)
    (target : pyobj) (self : JsonStorage) :
  sep_free_all old ctx -> sep_free_all new ctx ->
  store_all (keys_joined old new) self ->
  add_link_forward name (join_state new ctx) target (rekeyed_store old new self)
  = (rekeyed_store old new
       (add_link_forward name (join_state old ctx) target self).1,
     (add_link_forward name (join_state old ctx) target self).2) /\
  store_all (keys_joined old new)
    (add_link_forward name (join_state old ctx) target self).1.
Proof.
  intros Ho Hn [Hnodes Hback]. split.
  - apply injective_projections; cbn [fst snd].
    + rewrite !add_link_forward_store. unfold rekeyed_store.
      cbn [nodes backward settings]. f_equal.
      rewrite <- (str_replace_join old new ctx) by done.
      apply linked_rekeyed, joined_apart; [|done..].
      by apply keys_joined_get.
    + by rewrite !add_link_forward_result.
  - rewrite add_link_forward_store. split; cbn [nodes backward]; [|done].
    by apply keys_joined_linked.
Qed.

Lemma add_link_backward_rekeyed (name : string) (ctx : list string)
    (target : pyobj) (self : JsonStorage) :
  sep_free_all old ctx -> sep_free_all new ctx ->
  store_all (keys_joined old new) self ->
  add_link_backward name (join_state new ctx) target (rekeyed_store old new self)
  = (rekeyed_store old new
       (add_link_backward name (join_state old ctx) target self).1,
     (add_link_backward name (join_state old ctx) target self).2) /\
  store_all (keys_joined old new)
    (add_link_backward name (join_state old ctx) target self).1.
Proof.
  intros Ho Hn [Hnodes Hback]. split.
  - apply injective_projections; cbn [fst snd].
    + rewrite !add_link_backward_store. unfold rekeyed_store.
      cbn [nodes backward settings]. f_equal.
      destruct (backward self) as [b|]; [|done]. cbn. f_equal.
      rewrite <- (str_replace_join old new ctx) by done.
      apply linked_rekeyed, joined_apart; [|done..].
      by apply keys_joined_get, Hback.
    + destruct (backward self) as [b|] eqn:Hb.
      * rewrite !add_link_backward_result; [done|by eexists|].
        unfold rekeyed_store. cbn [backward]. rewrite Hb. by eexists.
      * unfold add_link_backward, rekeyed_store. cbn [backward].
        by rewrite Hb.
  - rewrite add_link_backward_store. split; cbn [nodes backward]; [done|].
    intros b'. destruct (backward self) as [b|]; [|done]. cbn.
    intros [= <-]. by apply keys_joined_linked, Hback.
Qed.

Lemma get_dataset_rekeyed (name : string) (self : JsonStorage) :
  store_all (keys_joined old new) self ->
  (get_dataset name true (rekeyed_store old new self)).1
  = rekeyed_store old new (get_dataset name true self).1 /\
  store_all (keys_joined old new) (get_dataset name true self).1.
Proof.
  intros [Hnodes Hback]. rewrite !get_dataset_create. cbn [fst]. split.
  - unfold rekeyed_store. cbn [nodes backward settings].
    rewrite rekeyed_created. f_equal.
    destruct (backward self); [|done]. cbn. by rewrite rekeyed_created.
  - split; cbn [nodes backward]; [by apply keys_joined_created|].
    intros b'. destruct (backward self) as [b|]; [|done]. cbn.
    intros [= <-]. by apply keys_joined_created, Hback.
Qed.
Lemma clean_item_context (sep : string) (dataset src dst : pyobj)
    (ctx : list string) :
  clean_item sep [dataset; src; dst] = true ->
  iterate src = Ok ctx ->
  sep_free_all sep ctx.
Proof.
  unfold clean_item. intros [Hsrc _]%andb_true_iff Hit. rewrite Hit in Hsrc.
  rewrite forallb_forall in Hsrc. apply Forall_forall.
  intros s Hs. by apply Hsrc, list_elem_of_In.
Qed.

Lemma add_links_body_rekeyed (dataset_prefix : string) (it : item)
    (self : JsonStorage) :
  clean_item old it = true -> clean_item new it = true ->
  store_all (keys_joined old new) self ->
  add_links_body new dataset_prefix it (rekeyed_store old new self)
  = (rekeyed_store old new (add_links_body old dataset_prefix it self).1,
     (add_links_body old dataset_prefix it self).2) /\
  store_all (keys_joined old new) (add_links_body old dataset_prefix it self).1.
Proof.
  intros Hco Hcn Hinv.
  destruct it as [|[|dataset|l] [|src [|dst [|? ?]]]]; try (by split).
  rewrite !add_links_body_triple. cbv zeta.
  set (name := dataset_prefix +:+ dataset).
  destruct (get_dataset_rekeyed name self Hinv) as [Hs1 Hinv1]. rewrite Hs1.
  set (s1 := (get_dataset name true self).1) in *.
  assert (Hbw : backward (rekeyed_store old new self)
                = rekeyed old new <$> backward self) by done.
  rewrite Hbw. clear Hbw.
  destruct (iterate src) as [ctx|e] eqn:Hit.
  2: { destruct (backward self), dst; by split. }
  pose proof (clean_item_context old _ _ _ ctx Hco Hit) as Hfo.
  pose proof (clean_item_context new _ _ _ ctx Hcn Hit) as Hfn.
  destruct (backward self) as [b|] eqn:Hb; cbn [fmap option_fmap option_map].
  2: { destruct dst; by apply add_link_forward_rekeyed. }
  destruct dst as [|t|l]; [by apply add_link_forward_rekeyed| |].
  2: { destruct ctx; by split. }
  destruct ctx as [|x r]; [by split|].
  pose proof (clean_item_triple old dataset t src x r Hco Hit) as Hto.
  pose proof (clean_item_triple new dataset t src x r Hcn Hit) as Htn.
  apply Forall_cons in Hto as [_ Hto]. apply Forall_cons in Htn as [_ Htn].
  destruct (add_link_backward_rekeyed name (r ++ [t]) (PStr x) s1 Hto Htn Hinv1)
    as [Hbk Hinv2].
  rewrite Hbk. cbn [fst]. by apply add_link_forward_rekeyed.
Qed.

Lemma add_links_rekeyed (links : list item) (dataset_prefix : string)
    (self : JsonStorage) :
  forallb (clean_item old) links = true ->
  forallb (clean_item new) links = true ->
  store_all (keys_joined old new) self ->
  add_links new links dataset_prefix (rekeyed_store old new self)
  = (rekeyed_store old new (add_links old links dataset_prefix self).1,
     (add_links old links dataset_prefix self).2) /\
  store_all (keys_joined old new) (add_links old links dataset_prefix self).1.
Proof.
  revert self. induction links as [|it links IH]; intros self Hco Hcn Hinv.
  { by split. }
  cbn [forallb] in Hco, Hcn.
  apply andb_true_iff in Hco as [Hco Hcos]. apply andb_true_iff in Hcn as [Hcn Hcns].
  cbn [add_links]. unfold bind.
  destruct (add_links_body_rekeyed dataset_prefix it self Hco Hcn Hinv)
    as [Heq Hinv1].
  rewrite Heq.
  destruct (add_links_body old dataset_prefix it self) as [s1 [[]|e]];
    cbn [fst snd] in *; [by apply IH|by split].
Qed.

Lemma add_links_calls_rekeyed (calls : list (list item * string))
    (self : JsonStorage) :
  clean_calls old calls = true -> clean_calls new calls = true ->
  store_all (keys_joined old new) self ->
  add_links_calls new calls (rekeyed_store old new self)
  = rekeyed_store old new (add_links_calls old calls self) /\
  store_all (keys_joined old new) (add_links_calls old calls self).
Proof.
  unfold add_links_calls, clean_calls. revert self.
  induction calls as [|[links pre] calls IH]; intros self Hco Hcn Hinv.
  { by split. }
  cbn [forallb fst snd] in Hco, Hcn.
  apply andb_true_iff in Hco as [Hco Hcos]. apply andb_true_iff in Hcn as [Hcn Hcns].
  cbn [fold_left fst snd].
  destruct (add_links_rekeyed links pre self Hco Hcn Hinv) as [Heq Hinv1].
  rewrite Heq. cbn [fst]. by apply IH.
Qed.
End rekey.

(** X16: [replace_state_separator] turns a store that was filled under one
    separator into the store that the same calls fill under the other one,
    and raises nothing: where the old separator is not empty, neither
    separator has a border, and no token of the calls contains either of
    them, every state key, forward and backward, becomes the key of the
    same state under the new separator, with its counts as they were. *)
Theorem replace_state_separator_refill
    (old new : string) (enable : option bool) (settings : settings_t)
    (calls : list (list item * string)) :
  old <> EmptyString ->
  has_border old = false -> has_border new = false ->
  clean_calls old calls = true -> clean_calls new calls = true ->
  replace_state_separator old new
    (add_links_calls old calls (new_store enable settings))
  = (add_links_calls new calls (new_store enable settings), Ok tt).
Proof.
  intros Hold Hbo Hbn Hco Hcn.
  destruct (add_links_calls_rekeyed old new Hold Hbo Hbn calls
              (new_store enable settings) Hco Hcn) as [Heq Hinv].
  { apply new_store_all. constructor. }
  rewrite replace_rekeyed.
  - rewrite <- Heq. do 2 f_equal. unfold rekeyed_store, new_store, init.
    cbn [nodes backward]. f_equal.
    destruct enable as [[]|]; [done..|]. by destruct (wants_backward settings).
  - apply filled_wf.
  - destruct Hinv as [Hn Hb].
    split; [|intros b Hbb]; eapply keys_joined_apart; eauto.
Qed.

Lemma replace_state_separator_refill_witness :
  replace_state_separator U0001 " "
    (add_links_calls U0001 [(scenario_links, "")] (new_store (Some true) None))
  = (add_links_calls " " [(scenario_links, "")] (new_store (Some true) None),
     Ok tt).
Proof.
  apply (replace_state_separator_refill U0001 " " (Some true) None
           [(scenario_links, "")]); [done|reflexivity..].
Defined.

Lemma str_replace_free (old new s : string) :
  sep_free old s = true -> str_replace old new s = s.
Proof.
  intros Hfree. destruct old as [|c o]; [by destruct s|].
  by apply replace_from_free.
Qed.

Lemma keys_free_rekeyed (old new : string) (d : data_t) :
  keys_free old d = true -> rekeyed old new d = d /\ keys_apart old new d.
Proof.
  unfold keys_free. rewrite forallb_forall. intros Hfree.
  assert (Hkey : forall name ds k v,
             (name, ds) ∈ d -> (k, v) ∈ ds ->
             exists s, k = Some s /\ str_replace old new s = s).
  { intros name ds k v Hin Hk. apply list_elem_of_In, Hfree in Hin.
    cbn [snd] in Hin. rewrite forallb_forall in Hin.
    apply list_elem_of_In, Hin in Hk. cbn [fst] in Hk.
    destruct k as [s|]; [|done]. exists s. split; [done|].
    by apply str_replace_free. }
  assert (Hid : forall name ds k,
             (name, ds) ∈ d -> k ∈ dict_keys ds ->
             is_Some k /\ option_map (str_replace old new) k = k).
  { intros name ds k Hin Hk. unfold dict_keys in Hk.
    apply list_elem_of_fmap in Hk as ([k' v] & -> & Hk).
    destruct (Hkey name ds k' v Hin Hk) as (s & -> & Hs). cbn.
    split; [by eexists|by rewrite Hs]. }
  split.
  - unfold rekeyed. rewrite <- (list_fmap_id d) at 2.
    apply list_fmap_ext. intros i [name ds] Hin%list_elem_of_lookup_2.
    cbn [fst snd id]. f_equal. unfold rekeyed_dataset.
    rewrite <- (list_fmap_id ds) at 2.
    apply list_fmap_ext. intros j [k v] Hk%list_elem_of_lookup_2.
    cbn [fst snd id]. f_equal.
    destruct (Hkey name ds k v Hin Hk) as (s & -> & Hs). cbn. by rewrite Hs.
  - unfold keys_apart. apply Forall_forall. intros [name ds] Hin. cbn [snd].
    split.
    + apply Forall_forall. intros [k v] Hk. cbn [fst].
      destruct (Hkey name ds k v Hin Hk) as (s & -> & _). by eexists.
    + intros k1 k2 H1 H2.
      destruct (Hid name ds k1 Hin H1) as [_ ->].
      by destruct (Hid name ds k2 Hin H2) as [_ ->].
Qed.

(** X17: where no state key of the store contains the old separator,
    [replace_state_separator] leaves the store as it is and raises
    nothing. *)
Theorem replace_state_separator_absent
    (old new : string) (self : JsonStorage) :
  store_all data_wf self ->
  store_all (fun d => keys_free old d = true) self ->
  replace_state_separator old new self = (self, Ok tt).
Proof.
  intros Hwf [Hn Hb]. rewrite replace_rekeyed; [|done|].
  - f_equal. unfold rekeyed_store. destruct self as [n b s].
    cbn [nodes backward settings] in *. f_equal.
    + by apply keys_free_rekeyed.
    + destruct b as [b|]; [|done]. cbn. f_equal.
      by apply keys_free_rekeyed, Hb.
  - split; [|intros b Hbb]; apply keys_free_rekeyed; auto.
Qed.

Lemma replace_state_separator_absent_witness :
  replace_state_separator "-" "+" scenario_store = (scenario_store, Ok tt).
Proof.
  apply (replace_state_separator_absent "-" "+" scenario_store).
  - apply (filled_wf U0001 None None [(scenario_links, "")]).
  - split; [reflexivity|]. intros b Hb. vm_compute in Hb. discriminate Hb.
Defined.

Lemma replace_keys_None (old new : string) (ds : dataset_t) :
  None ∈ dict_keys ds -> replace_keys old new ds = Raise AttributeError.
Proof.
  unfold dict_keys. induction ds as [|[[k|] v] ds IH]; [by intros ?%elem_of_nil| |done].
  rewrite fmap_cons. intros [?|Hin]%elem_of_cons; [done|].
  cbn [replace_keys]. by rewrite IH.
Qed.

Lemma replace_keys_result (old new : string) (ds : dataset_t) :
  replace_keys old new ds = Raise AttributeError \/
  exists l, replace_keys old new ds = Ok l.
Proof.
  induction ds as [|[[k|] v] ds IH]; [right; by eexists| |by left].
  cbn [replace_keys]. destruct IH as [->|[l ->]]; [by left|right; by eexists].
Qed.

Lemma do_replace_loop_None (old new : string) (entries : list (string * dataset_t))
    (data : data_t) (name : string) (ds : dataset_t) :
  (name, ds) ∈ entries -> None ∈ dict_keys ds ->
  (do_replace_loop old new entries data).2 = Raise AttributeError.
Proof.
  intros Hin Hnone. revert data.
  induction entries as [|[key ds0] entries IH]; intros data.
  { by apply elem_of_nil in Hin. }
  cbn [do_replace_loop]. apply elem_of_cons in Hin as [[= <- <-]|Hin].
  { by rewrite replace_keys_None. }
  destruct (replace_keys_result old new ds0) as [->|[l ->]]; [done|].
  by apply IH.
Qed.

(** X18: a state key that is [None], as a store has it that was read from
    a file with the sentinel string as a key, makes
    [replace_state_separator] raise [AttributeError]; the backward data are
    not touched then. *)
Theorem replace_state_separator_none_key
    (old new : string) (self : JsonStorage) (name : string) (ds : dataset_t) :
  dict_get name (nodes self) = Some ds ->
  dict_get None ds <> None ->
  let after := replace_state_separator old new self in
  after.2 = Raise AttributeError /\ backward after.1 = backward self.
Proof.
  intros Hds Hnone after. subst after. unfold replace_state_separator.
  pose proof (do_replace_loop_None old new (nodes self) (nodes self) name ds)
    as Hloop.
  fold (do_replace_state_separator (nodes self) old new) in Hloop.
  destruct (do_replace_state_separator (nodes self) old new) as [n r].
  cbn [snd] in Hloop. rewrite Hloop; [done| |].
  - by apply dict_get_Some_elem.
  - destruct (decide (None ∈ dict_keys ds)) as [|Hnot]; [done|].
    by apply dict_get_None in Hnot.
Qed.

Lemma replace_state_separator_none_key_witness :
  (replace_state_separator U0000 " " sentinel_key_store).2
  = Raise AttributeError.
Proof.
  apply (replace_state_separator_none_key U0000 " " sentinel_key_store "body"
           [(None, [(Some "a", 1)])]); [reflexivity|discriminate].
Defined.

Lemma replaced_keys (old new : string) (d : data_t) :
  dict_keys (replaced old new d) = dict_keys d.
Proof.
  unfold dict_keys, replaced. rewrite <- list_fmap_compose.
  apply list_fmap_ext. by intros i [name ds] _.
Qed.

Lemma replaced_get (old new name : string) (d : data_t) :
  dict_get name (replaced old new d)
  = (fun ds => dict_of_items (rekeyed_dataset old new ds)) <$> dict_get name d.
Proof.
  induction d as [|[n ds] d IH]; [done|].
  cbn [replaced fmap list_fmap dict_get fst snd]. case_decide; [done|]. apply IH.
Qed.

Lemma do_replace_loop_replaced (old new : string) (done_ todo : data_t) :
  NoDup (dict_keys (done_ ++ todo)) ->
  data_keys_str todo ->
  do_replace_loop old new todo (replaced old new done_ ++ todo)
  = (replaced old new (done_ ++ todo), Ok tt).
Proof.
  revert done_. induction todo as [|[key ds] todo IH]; intros done_ Hnd Hstr.
  { by rewrite !app_nil_r. }
  apply Forall_cons in Hstr as [Hs Hstr].
  cbn [fst snd] in *. cbn [do_replace_loop]. rewrite replace_keys_Some by done.
  rewrite dict_set_app_r.
  2: { rewrite replaced_keys. unfold dict_keys in *.
       rewrite fmap_app, fmap_cons in Hnd. cbn [fst] in Hnd.
       apply NoDup_app in Hnd as (_ & Hnot & _). intros Hin.
       apply (Hnot key); [done|left]. }
  cbn [dict_set]. rewrite decide_True by done.
  replace (replaced old new done_
           ++ (key, dict_of_items (rekeyed_dataset old new ds)) :: todo)
    with (replaced old new (done_ ++ [(key, ds)]) ++ todo)
    by (unfold replaced; by rewrite fmap_app, <- app_assoc).
  replace (done_ ++ (key, ds) :: todo) with ((done_ ++ [(key, ds)]) ++ todo) in *
    by (by rewrite <- app_assoc).
  by apply IH.
Qed.

Lemma dict_of_items_last {K V : Type} `{EqDecision K}
    (l r : list (K * V)) (k : K) (v : V) :
  k ∉ r.*1 -> dict_get k (dict_of_items (l ++ (k, v) :: r)) = Some v.
Proof.
  induction r as [|[k' v'] r IH] using rev_ind; intros Hnot.
  { by rewrite dict_of_items_snoc, dict_get_set_eq. }
  rewrite fmap_app, not_elem_of_app in Hnot. destruct Hnot as [Hr Hk].
  cbn in Hk. rewrite not_elem_of_cons in Hk. destruct Hk as [Hk _].
  rewrite app_comm_cons, app_assoc, dict_of_items_snoc.
  rewrite dict_get_set_ne by done. by apply IH.
Qed.

(** X19: state keys that get the same key when the separator is replaced
    are not merged.  [do_replace_state_separator] raises nothing on data
    whose state keys are all strings, and the [Counter] that a dataset then
    has under a replaced key is the one of the last state that got this
    key: the counts of the states before it with the same new key are
    gone. *)
Theorem do_replace_state_separator_last_wins
    (old new : string) (data : data_t) (name : string)
    (before after : dataset_t) (k : string) (c : Counter) :
  NoDup (dict_keys data) ->
  data_keys_str data ->
  dict_get name data = Some (before ++ (Some k, c) :: after) ->
  Forall (fun sd : token * Counter =>
            option_map (str_replace old new) sd.1
            <> Some (str_replace old new k)) after ->
  let result := do_replace_state_separator data old new in
  result.2 = Ok tt /\
  exists ds : dataset_t,
    dict_get name result.1 = Some ds /\
    dict_get (Some (str_replace old new k)) ds = Some c.
Proof.
  intros Hnd Hstr Hget Hafter result. subst result.
  unfold do_replace_state_separator.
  pose proof (do_replace_loop_replaced old new [] data Hnd Hstr) as Hloop.
  change (replaced old new [] ++ data) with data in Hloop.
  change ([] ++ data) with data in Hloop. rewrite Hloop. clear Hloop.
  cbn [fst snd]. split; [done|].
  rewrite replaced_get, Hget. cbn [fmap option_fmap option_map].
  eexists. split; [done|].
  unfold rekeyed_dataset. rewrite fmap_app, fmap_cons. cbn [fst snd option_map].
  apply dict_of_items_last. rewrite <- list_fmap_compose.
  intros Hin. apply list_elem_of_fmap in Hin as ([k' v'] & Heq & Hin).
  rewrite Forall_forall in Hafter. by apply (Hafter _ Hin).
Qed.

Lemma do_replace_state_separator_last_wins_witness :
  let data := [("d", [(Some "a b", [(Some "x", 1)]);
                      (Some "a-b", [(Some "x", 2)])])] in
  (do_replace_state_separator data " " "-").2 = Ok tt /\
  exists ds : dataset_t,
    dict_get "d" (do_replace_state_separator data " " "-").1 = Some ds /\
    dict_get (Some "a-b") ds = Some [(Some "x", 2)].
Proof.
  apply (do_replace_state_separator_last_wins " " "-"
           [("d", [(Some "a b", [(Some "x", 1)]);
                   (Some "a-b", [(Some "x", 2)])])]
           "d" [(Some "a b", [(Some "x", 1)])] [] "a-b" [(Some "x", 2)]).
  - apply NoDup_singleton.
  - repeat constructor; by eexists.
  - reflexivity.
  - constructor.
Defined.

(** ** Comparing stores *)

Lemma dict_eqb_get {K V : Type} `{EqDecision K}
    (veq : V -> V -> bool) (d1 d2 : dict K V) (k : K) :
  NoDup (dict_keys d1) -> NoDup (dict_keys d2) ->
  dict_eqb veq d1 d2 = true ->
  match dict_get k d1, dict_get k d2 with
  | Some v1, Some v2 => veq v1 v2 = true
  | None, None => True
  | _, _ => False
  end.
Proof.
  intros Hnd1 Hnd2. unfold dict_eqb.
  intros [Hlen Hall]%andb_true_iff. apply Nat.eqb_eq in Hlen.
  rewrite forallb_forall in Hall.
  assert (Hsub : forall k' v1, dict_get k' d1 = Some v1 ->
             exists v2, dict_get k' d2 = Some v2 /\ veq v1 v2 = true).
  { intros k' v1 Hg. apply dict_get_Some_elem, list_elem_of_In, Hall in Hg.
    cbn [fst snd] in Hg. destruct (dict_get k' d2) as [v2|]; [|done].
    by exists v2. }
  destruct (dict_get k d1) as [v1|] eqn:H1.
  { by destruct (Hsub k v1 H1) as (v2 & -> & Hv). }
  destruct (dict_get k d2) as [v2|] eqn:H2; [|done].
  apply dict_get_None in H1. destruct H1.
  assert (Hperm : dict_keys d1 ≡ₚ dict_keys d2).
  { apply submseteq_length_Permutation.
    - apply NoDup_submseteq; [done|]. intros k' Hk'.
      destruct (dict_get k' d1) as [v1|] eqn:Hg.
      + destruct (Hsub k' v1 Hg) as (v2' & Hg2 & _).
        apply dict_get_Some_elem in Hg2. unfold dict_keys.
        apply list_elem_of_fmap. by exists (k', v2').
      + by apply dict_get_None in Hg.
    - unfold dict_keys. rewrite !length_fmap. lia. }
  rewrite Hperm. apply dict_get_Some_elem in H2. unfold dict_keys.
  apply list_elem_of_fmap. by exists (k, v2).
Qed.

Lemma counter_eqb_weight (c1 c2 : Counter) (t : token) :
  counter_eqb c1 c2 = true ->
  default 0 (dict_get t c1) = default 0 (dict_get t c2).
Proof.
  unfold counter_eqb. rewrite forallb_forall. intros Hall.
  destruct (decide (t ∈ dict_keys c1 ++ dict_keys c2)) as [Hin|Hnot].
  - by apply Z.eqb_eq, Hall, list_elem_of_In.
  - apply not_elem_of_app in Hnot as [H1 H2].
    apply dict_get_None in H1, H2. by rewrite H1, H2.
Qed.

Lemma data_eqb_weight (d1 d2 : data_t) (name : string) (key t : token) :
  data_wf d1 -> data_wf d2 ->
  data_eqb d1 d2 = true ->
  default 0 (data_count d1 name key t) = default 0 (data_count d2 name key t).
Proof.
  intros [Hnd1 Hwf1] [Hnd2 Hwf2] Heq. unfold data_count.
  pose proof (dict_eqb_get dataset_eqb d1 d2 name Hnd1 Hnd2 Heq) as Hds.
  destruct (dict_get name d1) as [ds1|] eqn:H1,
           (dict_get name d2) as [ds2|] eqn:H2; try done.
  cbn [mbind option_bind].
  apply dict_get_Some_elem in H1, H2. rewrite Forall_forall in Hwf1, Hwf2.
  destruct (Hwf1 _ H1) as [Hk1 _], (Hwf2 _ H2) as [Hk2 _]. cbn [snd] in *.
  pose proof (dict_eqb_get counter_eqb ds1 ds2 key Hk1 Hk2 Hds) as Hc.
  destruct (dict_get key ds1) as [c1|] eqn:G1,
           (dict_get key ds2) as [c2|] eqn:G2; try done.
  cbn [mbind option_bind]. by apply counter_eqb_weight.
Qed.

Lemma data_eqb_mem (d1 d2 : data_t) (name : string) :
  data_wf d1 -> data_wf d2 ->
  data_eqb d1 d2 = true ->
  dict_mem name d1 = dict_mem name d2.
Proof.
  intros [Hnd1 _] [Hnd2 _] Heq. unfold dict_mem.
  pose proof (dict_eqb_get dataset_eqb d1 d2 name Hnd1 Hnd2 Heq) as Hds.
  by destruct (dict_get name d1), (dict_get name d2).
Qed.

(** X20: stores that [__eq__] finds equal answer alike, whatever the order
    in which their dicts were filled: they have or lack backward data
    together, the same names resolve to a dataset in both, and every link,
    forward and backward, has the same weight in both, where a link that a
    store has no count for weighs 0.  (A [Counter] that holds a count of 0
    for a token and one that lacks the token are equal, so that the counts
    themselves can differ in this.) *)
Theorem JsonStorage_eq_counts (self storage : JsonStorage) :
  store_all data_wf self -> store_all data_wf storage ->
  JsonStorage_eq self storage = true ->
  (backward self = None <-> backward storage = None) /\
  (forall name : string,
      dataset_exists self name = dataset_exists storage name) /\
  forall (name : string) (key t : token),
    default 0 (forward_count self name key t)
    = default 0 (forward_count storage name key t) /\
    default 0 (backward_count self name key t)
    = default 0 (backward_count storage name key t).
Proof.
  intros [Hn1 Hb1] [Hn2 Hb2]. unfold JsonStorage_eq.
  intros [[Hnodes Hback]%andb_true_iff _]%andb_true_iff.
  split_and!.
  - by destruct (backward self), (backward storage).
  - intros name. unfold dataset_exists.
    rewrite (data_eqb_mem (nodes self) (nodes storage)) by done.
    destruct (backward self) as [b1|], (backward storage) as [b2|]; try done.
    by rewrite (data_eqb_mem b1 b2) by auto.
  - intros name key t. split.
    + by apply data_eqb_weight.
    + unfold backward_count.
      destruct (backward self) as [b1|], (backward storage) as [b2|]; try done.
      cbn [mbind option_bind]. apply data_eqb_weight; auto.
Qed.

Lemma JsonStorage_eq_counts_witness :
  let self := init (Some [("d", [(Some "s", [(Some "x", 0)])])]) BNone None in
  let storage := init (Some [("d", [(Some "s", [])])]) BNone None in
  forward_count self "d" (Some "s") (Some "x") = Some 0 /\
  forward_count storage "d" (Some "s") (Some "x") = None /\
  forall (name : string) (key t : token),
    default 0 (forward_count self name key t)
    = default 0 (forward_count storage name key t).
Proof.
  split; [reflexivity|]. split; [reflexivity|].
  intros name key t.
  destruct (JsonStorage_eq_counts
              (init (Some [("d", [(Some "s", [(Some "x", 0)])])]) BNone None)
              (init (Some [("d", [(Some "s", [])])]) BNone None))
    as (_ & _ & Hweight).
  - split; [|intros b Hb; discriminate Hb].
    split; [apply NoDup_singleton|].
    repeat constructor; apply not_elem_of_nil.
  - split; [|intros b Hb; discriminate Hb].
    split; [apply NoDup_singleton|].
    repeat constructor; apply not_elem_of_nil.
  - reflexivity.
  - apply Hweight.
Defined.

(** ** The order of a batch *)

Lemma link_count_Permutation (sep dataset_prefix : string)
    (links links' : list item) (name : string) (key t : token) :
  links ≡ₚ links' ->
  link_count sep dataset_prefix links name key t
  = link_count sep dataset_prefix links' name key t.
Proof.
  induction 1 as [|it l l' _ IH|it1 it2 l|l1 l2 l3 _ IH1 _ IH2].
  - done.
  - by rewrite !link_count_cons, IH.
  - rewrite !link_count_cons. lia.
  - by rewrite IH1.
Qed.

(** X21: on a store without backward data the order of the elements of a
    batch does not matter for what is counted: a batch of well-formed
    elements and any rearrangement of it are both ingested without an
    error and leave the same count for every link. *)
Theorem add_links_any_order
    (sep dataset_prefix : string) (links links' : list item)
    (self : JsonStorage) :
  backward self = None ->
  forallb (stands_for_link sep dataset_prefix) links = true ->
  links ≡ₚ links' ->
  let one := add_links sep links dataset_prefix self in
  let other := add_links sep links' dataset_prefix self in
  one.2 = Ok tt /\ other.2 = Ok tt /\
  forall (name : string) (key t : token),
    forward_count one.1 name key t = forward_count other.1 name key t.
Proof.
  intros Hb Hall%stands_for_link_Forall Hperm one other. subst one other.
  assert (Hall' : Forall (fun it => is_Some (item_link sep dataset_prefix it))
                    links') by (by rewrite <- Hperm).
  destruct (add_links_forward_counts sep dataset_prefix links self Hb Hall)
    as (Hok & _ & Hcount).
  destruct (add_links_forward_counts sep dataset_prefix links' self Hb Hall')
    as (Hok' & _ & Hcount').
  split_and!; [done..|]. intros name key t.
  by rewrite Hcount, Hcount', (link_count_Permutation _ _ _ _ _ _ _ Hperm).
Qed.

Lemma add_links_any_order_witness :
  (add_links U0001 scenario_links_swapped "" (new_store None None)).2 = Ok tt /\
  forall (name : string) (key t : token),
    forward_count (add_links U0001 scenario_links "" (new_store None None)).1
      name key t
    = forward_count
        (add_links U0001 scenario_links_swapped "" (new_store None None)).1
        name key t.
Proof.
  destruct (add_links_any_order U0001 "" scenario_links scenario_links_swapped
              (new_store None None)) as (_ & Hok & Hcount);
    [reflexivity|reflexivity|apply perm_swap|].
  split; [exact Hok|exact Hcount].
Defined.
